(** * libfprint: image buffers, quality metrics and the minutiae pipeline

    A shallow embedding of [libfprint/fp-image.c] and of the two error
    enumerations of [libfprint/fp-device.h].

    C integers are integers of [Z] with their conversions written out,
    pixel buffers are lists of bytes, out-of-range accesses and divisions by
    zero are failures of the option monad, and the heap that holds the pixel
    buffers is a finite map from locations to byte lists. *)

From Stdlib Require Import ZArith Lia List.
From Stdlib Require Init.Byte Strings.Byte.
From stdpp Require Import base option list gmap.

Local Open Scope Z_scope.

(** ** Machine integers *)

Abbreviation byte := Init.Byte.byte.

Definition G_MAXINT : Z := 2147483647.
Definition G_MAXUINT16 : Z := 65535.

(** Conversion to [guint] and [guint64]: reduction modulo 2^32 and 2^64. *)
Definition wrap_guint (z : Z) : Z := z mod 2 ^ 32.
Definition wrap_guint64 (z : Z) : Z := z mod 2 ^ 64.

(** Conversion to [gint] (and the result of [gint] arithmetic on a
    two's-complement machine): the representative in [-2^31, 2^31). *)
Definition wrap_gint (z : Z) : Z := (z + 2 ^ 31) mod 2 ^ 32 - 2 ^ 31.

(** Conversion to [guint8]. *)
Definition wrap_guint8 (z : Z) : Z := z mod 2 ^ 8.

(** The value of a byte, and the byte of a value ([guint8] conversion). *)
Definition byte_val (b : byte) : Z := Z.of_N (Byte.to_N b).

Definition byte_of (z : Z) : byte :=
  default Byte.x00 (Byte.of_N (Z.to_N (wrap_guint8 z))).

(** C division: truncating, undefined for a zero divisor. *)
Definition c_div (a b : Z) : option Z :=
  if bool_decide (b = 0) then None else Some (a ÷ b).

(** ** Buffers and loops *)

(** [buf[i]]: undefined outside the buffer. *)
Definition buf_load (d : list byte) (i : Z) : option byte :=
  if bool_decide (0 <= i) then d !! Z.to_nat i else None.

(** [buf[i] = v]. *)
Definition buf_store (d : list byte) (i : Z) (v : byte) : option (list byte) :=
  if bool_decide (0 <= i < Z.of_nat (length d))
  then Some (<[Z.to_nat i := v]> d) else None.

(** [memcpy (rowbuf, d + off, n)]: the [n] bytes read at offset [off]. *)
Definition memcpy_load (d : list byte) (off n : Z) : option (list byte) :=
  if bool_decide (0 <= off ∧ 0 <= n ∧ off + n <= Z.of_nat (length d))
  then Some (take (Z.to_nat n) (drop (Z.to_nat off) d)) else None.

(** [memcpy (d + off, src, length src)]: [src] written at offset [off]. *)
Definition memcpy_store (d : list byte) (off : Z) (src : list byte)
  : option (list byte) :=
  if bool_decide (0 <= off ∧ off + Z.of_nat (length src) <= Z.of_nat (length d))
  then Some (take (Z.to_nat off) d ++ src
             ++ drop (Z.to_nat off + length src)%nat d)
  else None.

(** [count] iterations of a loop body, the counter starting at [i]. *)
Fixpoint for_range {S : Type} (i : Z) (count : nat)
    (body : Z → S → option S) (s : S) : option S :=
  match count with
  | O => Some s
  | Datatypes.S c => s' ← body i s; for_range (i + 1) c body s'
  end.

(** [for (i = 0; i < n; i++) body]: the counter runs over [0 .. n-1] and
    stays below [n], itself a [gint]. *)
Definition for_loop {S : Type} (n : Z) (body : Z → S → option S) (s : S)
  : option S :=
  for_range 0 (Z.to_nat n) body s.

(** ** Quality metrics *)

(** The first loop of [fpi_std_sq_dev] and [mean /= size]; [mean] is a
    [guint64], and [size] is converted to [guint64] for the division. *)
Definition fpi_std_sq_dev_mean (buf : list byte) (size : Z) : option Z :=
  mean ← for_loop size
            (λ i mean, b ← buf_load buf i;
                       Some (wrap_guint64 (mean + byte_val b))) 0;
  c_div mean (wrap_guint64 size).

(** [fpi_std_sq_dev]. [(int) buf[i] - mean] is a [guint64] subtraction
    converted to [int]; [dev * dev] is an [int] product, added to the
    [guint64] accumulator; the quotient is converted to the [gint] result. *)
Definition fpi_std_sq_dev (buf : list byte) (size : Z) : option Z :=
  mean ← fpi_std_sq_dev_mean buf size;
  res ← for_loop size
           (λ i res,
              b ← buf_load buf i;
              let dev := wrap_gint (wrap_guint64 (byte_val b - mean)) in
              Some (wrap_guint64 (res + wrap_guint64 (wrap_gint (dev * dev)))))
           0;
  q ← c_div res (wrap_guint64 size);
  Some (wrap_gint q).

(** [fpi_mean_sq_diff_norm]: the accumulator [res] is an [int]. *)
Definition fpi_mean_sq_diff_norm (buf1 buf2 : list byte) (size : Z)
  : option Z :=
  res ← for_loop size
           (λ i res,
              b1 ← buf_load buf1 i;
              b2 ← buf_load buf2 i;
              let dev := wrap_gint (byte_val b1 - byte_val b2) in
              Some (wrap_gint (res + wrap_gint (dev * dev))))
           0;
  q ← c_div res size;
  Some (wrap_gint q).

(** The quantities of the specification, over unbounded integers. *)
Definition sum_bytes (l : list byte) : Z :=
  foldr (λ b acc, byte_val b + acc) 0 l.

Definition sum_sq_dev (mean : Z) (l : list byte) : Z :=
  foldr (λ b acc, (byte_val b - mean) * (byte_val b - mean) + acc) 0 l.

Definition squared_deviation (buf : list byte) : Z :=
  let n := Z.of_nat (length buf) in
  sum_sq_dev (sum_bytes buf ÷ n) buf ÷ n.

Fixpoint sum_sq_diff (l1 l2 : list byte) : Z :=
  match l1, l2 with
  | b1 :: l1', b2 :: l2' =>
      (byte_val b1 - byte_val b2) * (byte_val b1 - byte_val b2)
      + sum_sq_diff l1' l2'
  | _, _ => 0
  end.

Definition mean_square_diff (buf1 buf2 : list byte) (n : Z) : Z :=
  sum_sq_diff (take (Z.to_nat n) buf1) (take (Z.to_nat n) buf2) ÷ n.

(** ** Image normalization *)

(** [vflip]: swaps row [i] with row [height - 1 - i] through [rowbuf]. *)
Definition vflip (data : list byte) (width height : Z) : option (list byte) :=
  let data_len := wrap_gint (width * height) in
  for_loop (height ÷ 2)
    (λ i data,
       let offset := wrap_gint (i * width) in
       let swap_offset :=
         wrap_gint (data_len - wrap_gint (width * wrap_gint (i + 1))) in
       rowbuf ← memcpy_load data offset width;
       lower ← memcpy_load data swap_offset width;
       data ← memcpy_store data offset lower;
       memcpy_store data swap_offset rowbuf)
    data.

(** [hflip]: copies each row to [rowbuf] and writes it back reversed. *)
Definition hflip (data : list byte) (width height : Z) : option (list byte) :=
  for_loop height
    (λ i data,
       let offset := wrap_gint (i * width) in
       rowbuf ← memcpy_load data offset width;
       for_loop width
         (λ j data,
            v ← buf_load rowbuf (wrap_gint (wrap_gint (width - j) - 1));
            buf_store data (wrap_gint (offset + j)) v)
         data)
    data.

(** [invert_colors]: [data[i] = 0xff - data[i]], stored as a [guint8]. *)
Definition invert_colors (data : list byte) (width height : Z)
  : option (list byte) :=
  let data_len := wrap_gint (width * height) in
  for_loop data_len
    (λ i data,
       v ← buf_load data i;
       buf_store data i (byte_of (255 - byte_val v)))
    data.

(** The complement of a byte, [0xff - v] as a [guint8]. *)
Definition invert_byte (b : byte) : byte := byte_of (255 - byte_val b).

(** A buffer of [height] rows of [width] bytes, cut into its rows. *)
Fixpoint rows_of (width : nat) (height : nat) (data : list byte)
  : list (list byte) :=
  match height with
  | O => []
  | Datatypes.S h => take width data :: rows_of width h (drop width data)
  end.

(** ** The heap of pixel buffers *)

(** A pointer is [None] (NULL) or a location of the heap.  NULL is read as
    the empty buffer: only accesses of zero bytes succeed on it. *)
Definition deref (h : gmap positive (list byte)) (p : option positive)
  : option (list byte) :=
  match p with
  | None => Some []
  | Some l => h !! l
  end.

(** Runs an in-place buffer operation on the block [p] points to. *)
Definition heap_modify (h : gmap positive (list byte)) (p : option positive)
    (f : list byte → option (list byte)) : option (gmap positive (list byte)) :=
  match p with
  | None => _ ← f []; Some h
  | Some l => d ← h !! l; d' ← f d; Some (<[l := d']> h)
  end.

(** [g_malloc0 (n)]: NULL for zero bytes, else a fresh zeroed block. *)
Definition g_malloc0 (h : gmap positive (list byte)) (n : Z)
  : gmap positive (list byte) * option positive :=
  if bool_decide (n = 0) then (h, None)
  else let l := fresh (dom h) in
       (<[l := replicate (Z.to_nat n) Byte.x00]> h, Some l).

(** [g_malloc (n)]: as [g_malloc0]; the contents of the block are
    indeterminate in C (zero bytes stand for them), and the one caller
    overwrites all of them. *)
Definition g_malloc (h : gmap positive (list byte)) (n : Z)
  : gmap positive (list byte) * option positive :=
  g_malloc0 h n.

(** A block allocated and filled by an external function. *)
Definition heap_alloc (h : gmap positive (list byte)) (d : list byte)
  : gmap positive (list byte) * option positive :=
  let l := fresh (dom h) in (<[l := d]> h, Some l).

(** The out pointer of an external function after the call: a new block
    if the function stored a buffer, NULL if it stored nothing. *)
Definition bdata_alloc (h : gmap positive (list byte))
    (bdata : option (list byte))
  : gmap positive (list byte) * option positive :=
  match bdata with
  | Some b => heap_alloc h b
  | None => (h, None)
  end.

(** [g_free (p)]; NULL is ignored. *)
Definition g_free (h : gmap positive (list byte)) (p : option positive)
  : gmap positive (list byte) :=
  match p with
  | None => h
  | Some l => delete l h
  end.

(** A heap with a copy [d] in the block [p] (unchanged if [p] is NULL). *)
Definition snapshot_heap (h : gmap positive (list byte)) (p : option positive)
    (d : list byte) : gmap positive (list byte) :=
  match p with
  | Some l => <[l := d]> h
  | None => h
  end.

(** ** Images and the work item of an extraction *)

(** A [gdouble] is carried as its 64-bit pattern: the code only copies it. *)
Definition gdouble : Type := Z.

(** [FpMinutia]: the coordinates [fp_minutia_get_coords] reads. *)
Record FpMinutia := { minutia_x : Z; minutia_y : Z }.

Definition fp_minutia_get_coords (min : FpMinutia) : Z * Z :=
  (minutia_x min, minutia_y min).

(** [FpImage], with the fields [fp-image.c] uses; [width] and [height] are
    [guint], [minutiae] is a nullable [GPtrArray]. *)
Module FpImage.
Record t := mk {
  width : Z;
  height : Z;
  ppmm : gdouble;
  flags : Z;
  data : option positive;
  binarized : option positive;
  minutiae : option (list FpMinutia)
}.
End FpImage.

(** [DetectMinutiaeData]; [minutiae] is a nullable [struct fp_minutiae],
    its [num] the length of the list. *)
Module DetectMinutiaeData.
Record t := mk {
  user_cb : option positive;
  minutiae : option (list FpMinutia);
  width : Z;
  height : Z;
  ppmm : gdouble;
  flags : Z;
  image : option positive;
  binarized : option positive
}.
End DetectMinutiaeData.

(** What the task returned: [g_task_return_new_error] with the status code,
    or [g_task_return_boolean]. *)
Inductive GTaskResult :=
  | TaskError (code : Z)
  | TaskBoolean (b : bool).

(** A [GTask]: its cancellable (NULL, or a token with the value
    [g_cancellable_is_cancelled] reads in the completion callback), its task
    data and its result. *)
Record GTask := {
  task_cancellable : option bool;
  task_data : DetectMinutiaeData.t;
  task_result : option GTaskResult
}.

(** The program state: the heap, the image, and the user callbacks invoked
    so far. *)
Record state := {
  st_heap : gmap positive (list byte);
  st_image : FpImage.t;
  st_calls : list positive
}.

(** What the external [get_minutiae] hands back: its status, and the
    minutiae and binarized buffer it stored through its out pointers (NULL
    where it stored nothing). *)
Record lfs_result := {
  lfs_status : Z;
  lfs_minutiae : option (list FpMinutia);
  lfs_bdata : option (list byte)
}.

(** ** Properties and construction *)

Inductive prop_id := PROP_0 | PROP_WIDTH | PROP_HEIGHT.

Inductive GParamFlag :=
  | G_PARAM_STATIC_STRINGS
  | G_PARAM_READWRITE
  | G_PARAM_CONSTRUCT_ONLY.

Global Instance GParamFlag_eq_dec : EqDecision GParamFlag.
Proof. solve_decision. Defined.

(** What [g_param_spec_uint] is given. *)
Record GParamSpecUInt := {
  minimum : Z;
  maximum : Z;
  default_value : Z;
  pflags : list GParamFlag
}.

(** [fp_image_class_init]: the installed properties. *)
Definition properties (id : prop_id) : option GParamSpecUInt :=
  match id with
  | PROP_0 => None
  | PROP_WIDTH =>
      Some {| minimum := 0; maximum := G_MAXUINT16; default_value := 0;
              pflags := [G_PARAM_STATIC_STRINGS; G_PARAM_READWRITE;
                         G_PARAM_CONSTRUCT_ONLY] |}
  | PROP_HEIGHT =>
      Some {| minimum := 0; maximum := G_MAXUINT16; default_value := 0;
              pflags := [G_PARAM_STATIC_STRINGS; G_PARAM_READWRITE;
                         G_PARAM_CONSTRUCT_ONLY] |}
  end.

Definition fp_image_set_property (self : FpImage.t) (id : prop_id) (value : Z)
  : FpImage.t :=
  match id with
  | PROP_WIDTH =>
      FpImage.mk value (FpImage.height self) (FpImage.ppmm self)
        (FpImage.flags self) (FpImage.data self) (FpImage.binarized self)
        (FpImage.minutiae self)
  | PROP_HEIGHT =>
      FpImage.mk (FpImage.width self) value (FpImage.ppmm self)
        (FpImage.flags self) (FpImage.data self) (FpImage.binarized self)
        (FpImage.minutiae self)
  | PROP_0 => self
  end.

Definition fp_image_get_property (self : FpImage.t) (id : prop_id) : option Z :=
  match id with
  | PROP_WIDTH => Some (FpImage.width self)
  | PROP_HEIGHT => Some (FpImage.height self)
  | PROP_0 => None
  end.

(** [fp_image_init] does nothing: the instance is as GObject allocates it,
    zero-filled. *)
Definition fp_image_init : FpImage.t :=
  FpImage.mk 0 0 0 0 None None None.

(** [fp_image_constructed]: [width * height] is a [guint] product. *)
Definition fp_image_constructed (s : state) : state :=
  let self := st_image s in
  let '(h, p) :=
    g_malloc0 (st_heap s)
      (wrap_guint (FpImage.width self * FpImage.height self)) in
  {| st_heap := h;
     st_image :=
       FpImage.mk (FpImage.width self) (FpImage.height self)
         (FpImage.ppmm self) (FpImage.flags self) p
         (FpImage.binarized self) (FpImage.minutiae self);
     st_calls := st_calls s |}.

Definition fp_image_get_height (self : FpImage.t) : Z := FpImage.height self.
Definition fp_image_get_width (self : FpImage.t) : Z := FpImage.width self.
Definition fp_image_get_ppmm (self : FpImage.t) : gdouble := FpImage.ppmm self.

(** [fp_image_get_data], called with a non-NULL [len]. *)
Definition fp_image_get_data (self : FpImage.t) : option positive * Z :=
  (FpImage.data self, wrap_guint (FpImage.width self * FpImage.height self)).

(** [fp_image_get_binarized]: [len] is written only if the buffer is there. *)
Definition fp_image_get_binarized (self : FpImage.t)
  : option positive * option Z :=
  (FpImage.binarized self,
   match FpImage.binarized self with
   | Some _ =>
       Some (wrap_guint (FpImage.width self * FpImage.height self))
   | None => None
   end).

Definition fp_image_get_minutiae (self : FpImage.t)
  : option (list FpMinutia) :=
  FpImage.minutiae self.

(** [fp_image_finalize]: the raw buffer, the binarized buffer and the
    minutiae array are released; what is left is the heap. *)
Definition fp_image_finalize (s : state) : gmap positive (list byte) :=
  g_free (g_free (st_heap s) (FpImage.data (st_image s)))
    (FpImage.binarized (st_image s)).

(** ** GObject construction *)

Section Construction.

(** The value GObject hands to [set_property] for a property given to
    [g_object_new], [None] when it refuses the value and leaves the
    property unset. *)
Variable g_param_value_validate : GParamSpecUInt → Z → option Z.

Definition g_object_construct_property (self : FpImage.t) (id : prop_id)
    (value : Z) : FpImage.t :=
  match properties id with
  | Some pspec =>
      match g_param_value_validate pspec (wrap_guint value) with
      | Some v => fp_image_set_property self id v
      | None => self
      end
  | None => self
  end.

(** [fp_image_new]: the two [gint] arguments are collected as [guint]
    property values, then [fp_image_constructed] runs. *)
Definition fp_image_new (h : gmap positive (list byte)) (width height : Z)
  : state :=
  let self := g_object_construct_property fp_image_init PROP_WIDTH width in
  let self := g_object_construct_property self PROP_HEIGHT height in
  fp_image_constructed {| st_heap := h; st_image := self; st_calls := [] |}.

(** [g_object_set] on a constructed object: GObject refuses a property
    flagged [G_PARAM_CONSTRUCT_ONLY]. *)
Definition g_object_set (self : FpImage.t) (id : prop_id) (value : Z)
  : FpImage.t :=
  match properties id with
  | Some pspec =>
      if bool_decide (G_PARAM_CONSTRUCT_ONLY ∈ pflags pspec) then self
      else
        match g_param_value_validate pspec (wrap_guint value) with
        | Some v => fp_image_set_property self id v
        | None => self
        end
  | None => self
  end.

End Construction.

(** GObject's validation of a [guint] value: out of range is refused. *)
Definition g_param_value_validate_uint (pspec : GParamSpecUInt) (v : Z)
  : option Z :=
  if bool_decide (minimum pspec <= v <= maximum pspec) then Some v else None.

(** ** The minutiae pipeline *)

Section Pipeline.

(** The flag masks of [FpiImageFlags] ([fpi-image.h]). *)
Variables FPI_IMAGE_V_FLIPPED FPI_IMAGE_H_FLIPPED FPI_IMAGE_COLORS_INVERTED : Z.

(** The external extraction function of NBIS, a black box: image bytes,
    width, height, depth and resolution to status and outputs. *)
Variable get_minutiae : list byte → Z → Z → Z → gdouble → lfs_result.

(** [fp_image_detect_minutiae]: the snapshot.  The product is a [guint],
    the dimensions are stored as [gint]. *)
Definition fp_image_detect_minutiae (s : state) (cancellable : option bool)
    (callback : option positive) : option (state * GTask) :=
  let self := st_image s in
  let n := wrap_guint (FpImage.width self * FpImage.height self) in
  let '(h, p) := g_malloc (st_heap s) n in
  src ← deref h (FpImage.data self);
  bytes ← memcpy_load src 0 n;
  h ← heap_modify h p (λ d, memcpy_store d 0 bytes);
  Some ({| st_heap := h; st_image := self; st_calls := st_calls s |},
        {| task_cancellable := cancellable;
           task_data :=
             DetectMinutiaeData.mk callback None
               (wrap_gint (FpImage.width self))
               (wrap_gint (FpImage.height self))
               (FpImage.ppmm self) (FpImage.flags self) p None;
           task_result := None |}).

Definition flag_set (flags mask : Z) : bool :=
  bool_decide (Z.land flags mask ≠ 0).

(** The normalization step of the worker: flips and inversion on the work
    item's buffer, then the three flags are cleared. *)
Definition normalize (h : gmap positive (list byte))
    (data : DetectMinutiaeData.t)
  : option (gmap positive (list byte) * DetectMinutiaeData.t) :=
  let w := DetectMinutiaeData.width data in
  let ht := DetectMinutiaeData.height data in
  let fl := DetectMinutiaeData.flags data in
  let img := DetectMinutiaeData.image data in
  h ← (if flag_set fl FPI_IMAGE_H_FLIPPED
       then heap_modify h img (λ d, hflip d w ht) else Some h);
  h ← (if flag_set fl FPI_IMAGE_V_FLIPPED
       then heap_modify h img (λ d, vflip d w ht) else Some h);
  h ← (if flag_set fl FPI_IMAGE_COLORS_INVERTED
       then heap_modify h img (λ d, invert_colors d w ht) else Some h);
  Some (h,
        DetectMinutiaeData.mk
          (DetectMinutiaeData.user_cb data)
          (DetectMinutiaeData.minutiae data) w ht
          (DetectMinutiaeData.ppmm data)
          (Z.land fl
             (Z.lnot (Z.lor (Z.lor FPI_IMAGE_H_FLIPPED FPI_IMAGE_V_FLIPPED)
                        FPI_IMAGE_COLORS_INVERTED)))
          img (DetectMinutiaeData.binarized data)).

(** What normalization is to do to a buffer of [height] rows of [width]
    bytes: each row reversed if the horizontal flag is set, then the
    order of the rows reversed if the vertical flag is set, then every
    byte complemented if the inversion flag is set. *)
Definition normalize_pixels (fl : Z) (W H : nat) (pixels : list byte)
  : list byte :=
  let d := if flag_set fl FPI_IMAGE_H_FLIPPED
           then concat (reverse <$> rows_of W H pixels) else pixels in
  let d := if flag_set fl FPI_IMAGE_V_FLIPPED
           then concat (reverse (rows_of W H d)) else d in
  if flag_set fl FPI_IMAGE_COLORS_INVERTED then invert_byte <$> d else d.

(** [fp_image_detect_minutiae_thread_func]. *)
Definition fp_image_detect_minutiae_thread_func (task : GTask)
    (h : gmap positive (list byte))
  : option (GTask * gmap positive (list byte)) :=
  '(h, data) ← normalize h (task_data task);
  pixels ← deref h (DetectMinutiaeData.image data);
  let r := get_minutiae pixels (DetectMinutiaeData.width data)
             (DetectMinutiaeData.height data) 8
             (DetectMinutiaeData.ppmm data) in
  let '(h, bdata) := bdata_alloc h (lfs_bdata r) in
  let data :=
    DetectMinutiaeData.mk
      (DetectMinutiaeData.user_cb data) (lfs_minutiae r)
      (DetectMinutiaeData.width data) (DetectMinutiaeData.height data)
      (DetectMinutiaeData.ppmm data) (DetectMinutiaeData.flags data)
      (DetectMinutiaeData.image data) bdata in
  Some ({| task_cancellable := task_cancellable task;
           task_data := data;
           task_result :=
             Some (if bool_decide (lfs_status r ≠ 0)
                   then TaskError (lfs_status r) else TaskBoolean true) |},
        h).

(** The first half of the commit in [fp_image_detect_minutiae_cb]: flags,
    raw buffer and binarized buffer are replaced and the old minutiae
    array is dropped. *)
Definition commit_buffers (s : state) (data : DetectMinutiaeData.t)
  : state * DetectMinutiaeData.t :=
  let image := st_image s in
  let h := g_free (st_heap s) (FpImage.data image) in
  let h := g_free h (FpImage.binarized image) in
  ({| st_heap := h;
      st_image :=
        FpImage.mk (FpImage.width image) (FpImage.height image)
          (FpImage.ppmm image) (DetectMinutiaeData.flags data)
          (DetectMinutiaeData.image data)
          (DetectMinutiaeData.binarized data) None;
      st_calls := st_calls s |},
   DetectMinutiaeData.mk
     (DetectMinutiaeData.user_cb data) (DetectMinutiaeData.minutiae data)
     (DetectMinutiaeData.width data) (DetectMinutiaeData.height data)
     (DetectMinutiaeData.ppmm data) (DetectMinutiaeData.flags data)
     None None).

(** The second half: [data->minutiae->num] is read (a NULL [minutiae] is
    dereferenced), the minutiae move to a new array of the image, and
    [num] is set to 0. *)
Definition commit_minutiae (s : state) (data : DetectMinutiaeData.t)
  : option (state * DetectMinutiaeData.t) :=
  m ← DetectMinutiaeData.minutiae data;
  let image := st_image s in
  Some ({| st_heap := st_heap s;
           st_image :=
             FpImage.mk (FpImage.width image) (FpImage.height image)
               (FpImage.ppmm image) (FpImage.flags image)
               (FpImage.data image) (FpImage.binarized image) (Some m);
           st_calls := st_calls s |},
        DetectMinutiaeData.mk
          (DetectMinutiaeData.user_cb data) (Some [])
          (DetectMinutiaeData.width data) (DetectMinutiaeData.height data)
          (DetectMinutiaeData.ppmm data) (DetectMinutiaeData.flags data)
          (DetectMinutiaeData.image data)
          (DetectMinutiaeData.binarized data)).

(** [!cancellable || !g_cancellable_is_cancelled (cancellable)]. *)
Definition not_cancelled (cancellable : option bool) : bool :=
  match cancellable with
  | None => true
  | Some cancelled => negb cancelled
  end.

(** [if (data->user_cb) data->user_cb (...)]: the calls made. *)
Definition user_cb_calls (callback : option positive) : list positive :=
  match callback with
  | Some f => [f]
  | None => []
  end.

(** [fp_image_detect_minutiae_cb]: the commit, then the user callback. *)
Definition fp_image_detect_minutiae_cb (s : state) (task : GTask)
  : option (state * GTask) :=
  '(s, data) ←
    (if not_cancelled (task_cancellable task)
     then let '(s, data) := commit_buffers s (task_data task) in
          commit_minutiae s data
     else Some (s, task_data task));
  Some ({| st_heap := st_heap s; st_image := st_image s;
           st_calls :=
             st_calls s ++ user_cb_calls (DetectMinutiaeData.user_cb data) |},
        {| task_cancellable := task_cancellable task;
           task_data := data;
           task_result := task_result task |}).

(** [fp_image_detect_minutiae_free], run when the task is released. *)
Definition fp_image_detect_minutiae_free (data : DetectMinutiaeData.t)
    (h : gmap positive (list byte)) : gmap positive (list byte) :=
  g_free (g_free h (DetectMinutiaeData.image data))
    (DetectMinutiaeData.binarized data).

(** One extraction from dispatch to the release of its task. *)
Definition detect_minutiae_run (s : state) (cancellable : option bool)
    (callback : option positive) : option (state * GTask) :=
  '(s, task) ← fp_image_detect_minutiae s cancellable callback;
  '(task, h) ← fp_image_detect_minutiae_thread_func task (st_heap s);
  '(s, task) ←
    fp_image_detect_minutiae_cb
      {| st_heap := h; st_image := st_image s; st_calls := st_calls s |}
      task;
  Some ({| st_heap := fp_image_detect_minutiae_free (task_data task)
                        (st_heap s);
           st_image := st_image s;
           st_calls := st_calls s |},
        task).

End Pipeline.

(** ** The life of an image *)

(** A well-formed image state: the dimensions are within the range of their
    properties, the raw buffer is a block of [width * height] bytes, and the
    binarized buffer, if any, is allocated. *)
Definition image_wf (s : state) : Prop :=
  0 <= FpImage.width (st_image s) <= G_MAXUINT16
  ∧ 0 <= FpImage.height (st_image s) <= G_MAXUINT16
  ∧ (∃ d, deref (st_heap s) (FpImage.data (st_image s)) = Some d
          ∧ Z.of_nat (length d)
            = FpImage.width (st_image s) * FpImage.height (st_image s))
  ∧ (∀ l, FpImage.binarized (st_image s) = Some l →
          is_Some (st_heap s !! l)).

(** What a caller can do to an image: try to set a property, or run an
    extraction. *)
Inductive image_op :=
  | OpSetProperty (id : prop_id) (value : Z)
  | OpDetectMinutiae (cancellable : option bool) (callback : option positive).

Section Life.

Variable g_param_value_validate : GParamSpecUInt → Z → option Z.
Variables FPI_IMAGE_V_FLIPPED FPI_IMAGE_H_FLIPPED FPI_IMAGE_COLORS_INVERTED : Z.
Variable get_minutiae : list byte → Z → Z → Z → gdouble → lfs_result.

Definition image_step (s : state) (op : image_op) : option state :=
  match op with
  | OpSetProperty id value =>
      Some {| st_heap := st_heap s;
              st_image := g_object_set g_param_value_validate (st_image s)
                            id value;
              st_calls := st_calls s |}
  | OpDetectMinutiae cancellable callback =>
      fst <$> detect_minutiae_run FPI_IMAGE_V_FLIPPED FPI_IMAGE_H_FLIPPED
                FPI_IMAGE_COLORS_INVERTED get_minutiae s cancellable callback
  end.

(** The states an image goes through: created by [fp_image_new], then
    changed by the operations that complete. *)
Inductive reachable : state → Prop :=
  | reachable_new (h : gmap positive (list byte)) (width height : Z) :
      reachable (fp_image_new g_param_value_validate h width height)
  | reachable_step (s s' : state) (op : image_op) :
      reachable s → image_step s op = Some s' → reachable s'.

End Life.

(** ** Sample values *)

Definition sample_pixels : list byte :=
  [Byte.x01; Byte.x02; Byte.x03; Byte.x04; Byte.x05; Byte.x06].

Definition sample_heap : gmap positive (list byte) :=
  {[ 1%positive := sample_pixels ]}.

(** A 3 by 2 work item and image on [sample_pixels], all three flags set
    for masks 1, 2 and 4. *)
Definition sample_work_item : DetectMinutiaeData.t :=
  DetectMinutiaeData.mk None None 3 2 0 7 (Some 1%positive) None.

Definition sample_state : state :=
  {| st_heap := sample_heap;
     st_image := FpImage.mk 3 2 0 7 (Some 1%positive) None None;
     st_calls := [] |}.

(** An extraction that fails: status -1, nothing stored through the out
    pointers. *)
Definition get_minutiae_failing
    (pixels : list byte) (w h depth : Z) (ppmm : gdouble) : lfs_result :=
  {| lfs_status := -1; lfs_minutiae := None; lfs_bdata := None |}.

(** An extraction that succeeds with one minutia and the image as its
    binarized buffer. *)
Definition get_minutiae_sample
    (pixels : list byte) (w h depth : Z) (ppmm : gdouble) : lfs_result :=
  {| lfs_status := 0;
     lfs_minutiae := Some [{| minutia_x := 1; minutia_y := 1 |}];
     lfs_bdata := Some pixels |}.

(** ** Error domains *)

(** [FpDeviceRetry] and [FpDeviceError], the two enumerations of
    [fp-device.h]. *)
Inductive FpDeviceRetry :=
  | FP_DEVICE_RETRY_GENERAL
  | FP_DEVICE_RETRY_TOO_SHORT
  | FP_DEVICE_RETRY_CENTER_FINGER
  | FP_DEVICE_RETRY_REMOVE_FINGER.

Inductive FpDeviceError :=
  | FP_DEVICE_ERROR_GENERAL
  | FP_DEVICE_ERROR_NOT_SUPPORTED
  | FP_DEVICE_ERROR_NOT_OPEN
  | FP_DEVICE_ERROR_ALREADY_OPEN
  | FP_DEVICE_ERROR_BUSY
  | FP_DEVICE_ERROR_PROTO
  | FP_DEVICE_ERROR_DATA_INVALID
  | FP_DEVICE_ERROR_DATA_NOT_FOUND
  | FP_DEVICE_ERROR_DATA_FULL.

Global Instance FpDeviceRetry_eq_dec : EqDecision FpDeviceRetry.
Proof. solve_decision. Defined.

Global Instance FpDeviceError_eq_dec : EqDecision FpDeviceError.
Proof. solve_decision. Defined.

(** The integer of an enumerator: C numbers them from 0. *)
Definition FpDeviceRetry_code (r : FpDeviceRetry) : Z :=
  match r with
  | FP_DEVICE_RETRY_GENERAL => 0
  | FP_DEVICE_RETRY_TOO_SHORT => 1
  | FP_DEVICE_RETRY_CENTER_FINGER => 2
  | FP_DEVICE_RETRY_REMOVE_FINGER => 3
  end.

Definition FpDeviceError_code (e : FpDeviceError) : Z :=
  match e with
  | FP_DEVICE_ERROR_GENERAL => 0
  | FP_DEVICE_ERROR_NOT_SUPPORTED => 1
  | FP_DEVICE_ERROR_NOT_OPEN => 2
  | FP_DEVICE_ERROR_ALREADY_OPEN => 3
  | FP_DEVICE_ERROR_BUSY => 4
  | FP_DEVICE_ERROR_PROTO => 5
  | FP_DEVICE_ERROR_DATA_INVALID => 6
  | FP_DEVICE_ERROR_DATA_NOT_FOUND => 7
  | FP_DEVICE_ERROR_DATA_FULL => 8
  end.

(** Modelled from the spec: the quarks [fp_device_retry_quark ()] and
    [fp_device_error_quark ()] behind the macros [FP_DEVICE_RETRY] and
    [FP_DEVICE_ERROR] are declared in [fp-device.h] and defined elsewhere;
    the specification has them name two disjoint error domains. *)
Inductive GQuark :=
  | FP_DEVICE_RETRY
  | FP_DEVICE_ERROR.

(** A [GError]: its domain and its code. *)
Record GError := { domain : GQuark; code : Z }.

Definition retry_error (r : FpDeviceRetry) : GError :=
  {| domain := FP_DEVICE_RETRY; code := FpDeviceRetry_code r |}.

Definition device_error (e : FpDeviceError) : GError :=
  {| domain := FP_DEVICE_ERROR; code := FpDeviceError_code e |}.

(** The members of the two domains. *)
Definition in_retry_domain (err : GError) : Prop :=
  ∃ r, err = retry_error r.

Definition in_error_domain (err : GError) : Prop :=
  ∃ e, err = device_error e.

(** * Properties *)

(** ** Machine integers and bytes *)

Lemma wrap_gint_id z : - 2 ^ 31 <= z < 2 ^ 31 → wrap_gint z = z.
Proof.
  intros Hz. unfold wrap_gint. rewrite Z.mod_small by lia. lia.
Qed.

(** A number between [G_MAXINT] and [2 ^ 32] is negative as an [int]. *)
Lemma wrap_gint_overflow (z : Z) :
  2 ^ 31 <= z < 2 ^ 32 → wrap_gint z = z - 2 ^ 32.
Proof.
  intros Hz. unfold wrap_gint.
  rewrite <- (Z.mod_unique (z + 2 ^ 31) (2 ^ 32) 1 (z + 2 ^ 31 - 2 ^ 32)); lia.
Qed.

Lemma wrap_guint_id z : 0 <= z < 2 ^ 32 → wrap_guint z = z.
Proof. intros Hz. unfold wrap_guint. by rewrite Z.mod_small. Qed.

Lemma wrap_guint64_id z : 0 <= z < 2 ^ 64 → wrap_guint64 z = z.
Proof. intros Hz. unfold wrap_guint64. by rewrite Z.mod_small. Qed.

(** A small signed value survives the detour through [guint64]. *)
Lemma wrap_gint_guint64 z :
  - 2 ^ 31 <= z < 2 ^ 31 → wrap_gint (wrap_guint64 z) = z.
Proof.
  intros Hz. destruct (decide (0 <= z)) as [Hp|Hn].
  - rewrite wrap_guint64_id by lia. by apply wrap_gint_id.
  - unfold wrap_guint64.
    replace (z mod 2 ^ 64) with (z + 2 ^ 64).
    + unfold wrap_gint.
      replace (z + 2 ^ 64 + 2 ^ 31) with (z + 2 ^ 31 + 2 ^ 32 * 2 ^ 32) by lia.
      rewrite Z_mod_plus_full, Z.mod_small by lia. lia.
    + symmetry. replace z with (z + 2 ^ 64 + (-1) * 2 ^ 64) at 1 by lia.
      rewrite Z_mod_plus_full. apply Z.mod_small. lia.
Qed.

Lemma byte_val_range b : 0 <= byte_val b <= 255.
Proof.
  unfold byte_val. pose proof (Byte.to_N_bounded b). lia.
Qed.

Lemma byte_val_of z : byte_val (byte_of z) = z mod 256.
Proof.
  unfold byte_of, byte_val, wrap_guint8.
  change (2 ^ 8) with 256.
  pose proof (Z.mod_pos_bound z 256 eq_refl) as Hm.
  destruct (Byte.of_N (Z.to_N (z mod 256))) as [b|] eqn:Hb; simpl.
  - apply Byte.to_of_N in Hb. rewrite Hb. lia.
  - apply Byte.of_N_None_iff in Hb. lia.
Qed.

Lemma byte_val_inj b1 b2 : byte_val b1 = byte_val b2 → b1 = b2.
Proof.
  unfold byte_val. intros H.
  assert (Byte.to_N b1 = Byte.to_N b2) as Heq by lia.
  pose proof (Byte.of_to_N b1) as H1. pose proof (Byte.of_to_N b2) as H2.
  rewrite Heq in H1. congruence.
Qed.

(** Colour inversion twice gives the byte back. *)
Lemma byte_of_invert b : byte_val (byte_of (255 - byte_val b)) = 255 - byte_val b.
Proof.
  rewrite byte_val_of. pose proof (byte_val_range b).
  apply Z.mod_small. lia.
Qed.

(** ** Loops *)

(** The invariant rule of the [for] loop: an invariant indexed by the number
    of iterations made, kept by every iteration, holds at the exit, and the
    loop runs to its end. *)
Lemma for_range_inv {S : Type} (P : nat → S → Prop) (body : Z → S → option S)
    (count : nat) (i : Z) (s : S) :
  P O s →
  (∀ (k : nat) (t : S), (k < count)%nat → P k t →
     ∃ t', body (i + Z.of_nat k) t = Some t' ∧ P (Datatypes.S k) t') →
  ∃ s', for_range i count body s = Some s' ∧ P count s'.
Proof.
  revert P i s. induction count as [|c IH]; intros P i s H0 Hstep.
  - exists s. by split.
  - destruct (Hstep O s) as (s1 & Hb & H1); [lia | done |].
    rewrite Z.add_0_r in Hb. simpl. rewrite Hb. simpl.
    apply (IH (λ k t, P (Datatypes.S k) t) (i + 1) s1 H1).
    intros k t Hk HP.
    destruct (Hstep (Datatypes.S k) t) as (t' & Hb' & HP'); [lia | done |].
    exists t'. split; [|done].
    rewrite <- Hb'. f_equal. lia.
Qed.

Lemma for_loop_inv {S : Type} (P : nat → S → Prop) (body : Z → S → option S)
    (n : Z) (s : S) :
  P O s →
  (∀ (k : nat) (t : S), Z.of_nat k < n → P k t →
     ∃ t', body (Z.of_nat k) t = Some t' ∧ P (Datatypes.S k) t') →
  ∃ s', for_loop n body s = Some s' ∧ P (Z.to_nat n) s'.
Proof.
  intros H0 Hstep. unfold for_loop.
  apply for_range_inv; [done|].
  intros k t Hk HP. rewrite Z.add_0_l. apply Hstep; [lia | done].
Qed.

(** A loop whose iterations keep a property of the state keeps it, whether
    or not it runs to its end. *)
Lemma for_range_preserve {S : Type} (Q : S → Prop) (body : Z → S → option S)
    (count : nat) (i : Z) (s s' : S) :
  (∀ j t t', body j t = Some t' → Q t → Q t') →
  Q s → for_range i count body s = Some s' → Q s'.
Proof.
  intros Hb. revert i s. induction count as [|c IH]; intros i s HQ Hrun.
  - simpl in Hrun. by simplify_eq.
  - simpl in Hrun. destruct (body i s) as [s1|] eqn:E; simplify_eq/=.
    eapply IH; [|done]. by eapply Hb.
Qed.

(** A loop with an iteration that fails on every state does not complete. *)
Lemma for_range_fail {S : Type} (body : Z → S → option S)
    (count k : nat) (i : Z) (s : S) :
  (k < count)%nat → (∀ t, body (i + Z.of_nat k) t = None) →
  for_range i count body s = None.
Proof.
  revert k i s. induction count as [|c IH]; intros k i s Hk Hfail; [lia|].
  simpl. destruct k as [|k].
  - rewrite Z.add_0_r in Hfail. by rewrite Hfail.
  - destruct (body i s) as [s1|]; simpl; [|done].
    apply (IH k); [lia|]. intros t. rewrite <- (Hfail t). f_equal. lia.
Qed.

Lemma buf_load_lookup (d : list byte) (k : nat) :
  buf_load d (Z.of_nat k) = d !! k.
Proof.
  unfold buf_load. rewrite bool_decide_true by lia. by rewrite Nat2Z.id.
Qed.

(** ** Squared deviation *)

Lemma sum_bytes_app l1 l2 : sum_bytes (l1 ++ l2) = sum_bytes l1 + sum_bytes l2.
Proof.
  unfold sum_bytes. induction l1 as [|b l1 IH]; simpl; [done|].
  rewrite IH. lia.
Qed.

Lemma sum_bytes_bound l : 0 <= sum_bytes l <= 255 * Z.of_nat (length l).
Proof.
  unfold sum_bytes. induction l as [|b l IH]; simpl; [lia|].
  pose proof (byte_val_range b). lia.
Qed.

Lemma sq_range_255 d : -255 <= d <= 255 → 0 <= d * d <= 65025.
Proof.
  intros Hd. split; [apply Z.square_nonneg|].
  assert (0 <= (255 - d) * (255 + d)) by (apply Z.mul_nonneg_nonneg; lia).
  lia.
Qed.

Lemma sum_sq_dev_app m l1 l2 :
  sum_sq_dev m (l1 ++ l2) = sum_sq_dev m l1 + sum_sq_dev m l2.
Proof.
  unfold sum_sq_dev. induction l1 as [|b l1 IH]; simpl; [done|].
  rewrite IH. lia.
Qed.

Lemma sum_sq_dev_bound m l :
  0 <= m <= 255 → 0 <= sum_sq_dev m l <= 65025 * Z.of_nat (length l).
Proof.
  intros Hm. unfold sum_sq_dev. induction l as [|b l IH]; [simpl; lia|].
  rewrite length_cons, Nat2Z.inj_succ. simpl foldr.
  pose proof (byte_val_range b).
  pose proof (sq_range_255 (byte_val b - m)). lia.
Qed.

Lemma sum_bytes_replicate n v :
  sum_bytes (replicate n v) = Z.of_nat n * byte_val v.
Proof.
  unfold sum_bytes. induction n as [|n IH]; simpl; [lia|].
  rewrite IH. lia.
Qed.

Lemma sum_sq_dev_replicate m n v :
  sum_sq_dev m (replicate n v)
  = Z.of_nat n * ((byte_val v - m) * (byte_val v - m)).
Proof.
  unfold sum_sq_dev. induction n as [|n IH]; simpl; [lia|].
  rewrite IH. lia.
Qed.

(** The integer mean of bytes is a byte value. *)
Lemma mean_range l n :
  n = Z.of_nat (length l) → 1 <= n → 0 <= sum_bytes l ÷ n <= 255.
Proof.
  intros -> Hn. pose proof (sum_bytes_bound l) as Hs.
  rewrite Z.quot_div_nonneg by lia. split.
  - apply Z.div_pos; lia.
  - apply Z.div_le_upper_bound; lia.
Qed.

(** The first loop of [fpi_std_sq_dev] sums the bytes without wrapping. *)
Lemma fpi_std_sq_dev_sum_loop buf size :
  size = Z.of_nat (length buf) → size <= G_MAXINT →
  for_loop size
    (λ i mean, b ← buf_load buf i; Some (wrap_guint64 (mean + byte_val b))) 0
  = Some (sum_bytes buf).
Proof.
  intros -> Hmax. unfold G_MAXINT in Hmax.
  destruct (for_loop_inv (λ k acc, acc = sum_bytes (take k buf))
              (λ i mean, b ← buf_load buf i;
                         Some (wrap_guint64 (mean + byte_val b)))
              (Z.of_nat (length buf)) 0) as (r & Hr & HP).
  - by rewrite take_0.
  - intros k t Hk ->.
    destruct (lookup_lt_is_Some_2 buf k) as [b Hb]; [lia|].
    rewrite buf_load_lookup, Hb. simpl. eexists. split; [done|].
    rewrite (take_S_r _ _ _ Hb), sum_bytes_app.
    pose proof (sum_bytes_bound (take k buf)) as Hs.
    rewrite length_take in Hs. pose proof (byte_val_range b).
    rewrite wrap_guint64_id by lia.
    unfold sum_bytes at 3. simpl. lia.
  - rewrite Hr, HP, Nat2Z.id, firstn_all. done.
Qed.

Lemma fpi_std_sq_dev_mean_eq buf size :
  size = Z.of_nat (length buf) → 1 <= size <= G_MAXINT →
  fpi_std_sq_dev_mean buf size = Some (sum_bytes buf ÷ size).
Proof.
  intros Hsz [Hlo Hhi]. unfold fpi_std_sq_dev_mean.
  rewrite fpi_std_sq_dev_sum_loop by done. simpl.
  unfold G_MAXINT in Hhi. rewrite wrap_guint64_id by lia.
  unfold c_div. by rewrite bool_decide_false by lia.
Qed.

(** The second loop sums the squared deviations without wrapping. *)
Lemma fpi_std_sq_dev_dev_loop buf size mean :
  size = Z.of_nat (length buf) → size <= G_MAXINT → 0 <= mean <= 255 →
  for_loop size
    (λ i res,
       b ← buf_load buf i;
       let dev := wrap_gint (wrap_guint64 (byte_val b - mean)) in
       Some (wrap_guint64 (res + wrap_guint64 (wrap_gint (dev * dev))))) 0
  = Some (sum_sq_dev mean buf).
Proof.
  intros -> Hmax Hmean. unfold G_MAXINT in Hmax.
  destruct (for_loop_inv (λ k acc, acc = sum_sq_dev mean (take k buf))
              (λ i res,
                 b ← buf_load buf i;
                 let dev := wrap_gint (wrap_guint64 (byte_val b - mean)) in
                 Some (wrap_guint64
                         (res + wrap_guint64 (wrap_gint (dev * dev)))))
              (Z.of_nat (length buf)) 0) as (r & Hr & HP).
  - by rewrite take_0.
  - intros k t Hk ->.
    destruct (lookup_lt_is_Some_2 buf k) as [b Hb]; [lia|].
    rewrite buf_load_lookup, Hb. simpl. eexists. split; [done|].
    rewrite (take_S_r _ _ _ Hb), sum_sq_dev_app.
    pose proof (sum_sq_dev_bound mean (take k buf) Hmean) as Hs.
    rewrite length_take in Hs. pose proof (byte_val_range b).
    rewrite wrap_gint_guint64 by lia.
    pose proof (sq_range_255 (byte_val b - mean)) as Hsq.
    rewrite (wrap_gint_id ((byte_val b - mean) * (byte_val b - mean))) by lia.
    rewrite (wrap_guint64_id ((byte_val b - mean) * (byte_val b - mean)))
      by lia.
    rewrite wrap_guint64_id by lia.
    unfold sum_sq_dev at 3. simpl. lia.
  - rewrite Hr, HP, Nat2Z.id, firstn_all. done.
Qed.

Lemma fpi_std_sq_dev_eq buf size :
  size = Z.of_nat (length buf) → 1 <= size <= G_MAXINT →
  fpi_std_sq_dev buf size = Some (squared_deviation buf).
Proof.
  intros Hsz [Hlo Hhi]. unfold fpi_std_sq_dev.
  rewrite fpi_std_sq_dev_mean_eq by done. simpl.
  pose proof (mean_range buf size Hsz Hlo) as Hmean.
  rewrite fpi_std_sq_dev_dev_loop by done. simpl.
  pose proof Hhi as Hhi'. unfold G_MAXINT in Hhi'.
  rewrite wrap_guint64_id by lia.
  unfold c_div. rewrite bool_decide_false by lia. simpl.
  unfold squared_deviation. rewrite <- Hsz. f_equal.
  apply wrap_gint_id.
  pose proof (sum_sq_dev_bound (sum_bytes buf ÷ size) buf Hmean) as Hs.
  rewrite <- Hsz in Hs.
  rewrite Z.quot_div_nonneg by lia.
  assert (0 <= sum_sq_dev (sum_bytes buf ÷ size) buf / size <= 65025).
  { split; [apply Z.div_pos; lia | apply Z.div_le_upper_bound; lia]. }
  lia.
Qed.

Lemma squared_deviation_constant n v :
  (1 <= n)%nat → squared_deviation (replicate n v) = 0.
Proof.
  intros Hn. unfold squared_deviation.
  rewrite length_replicate, sum_bytes_replicate.
  rewrite Z.mul_comm, Z.quot_mul by lia.
  rewrite sum_sq_dev_replicate, Z.sub_diag.
  replace (Z.of_nat n * (0 * 0)) with 0 by lia.
  apply Z.quot_0_l. lia.
Qed.

(** C3. For a buffer of [size = N] bytes, [1 <= N] (and [N] a [gint]),
    [fpi_std_sq_dev] computes the truncated mean [sum / N] and returns
    [(sum of (byte - mean)^2) / N], truncated; a buffer of [N] equal bytes
    gives 0; and [0,0,255,255] has mean 127 and result 16256. *)
Theorem fpi_std_sq_dev_correct (buf : list byte) (size : Z) :
  size = Z.of_nat (length buf) → 1 <= size <= G_MAXINT →
  fpi_std_sq_dev_mean buf size = Some (sum_bytes buf ÷ size)
  ∧ fpi_std_sq_dev buf size
    = Some (sum_sq_dev (sum_bytes buf ÷ size) buf ÷ size)
  ∧ (∀ v, buf = replicate (length buf) v → fpi_std_sq_dev buf size = Some 0)
  ∧ fpi_std_sq_dev_mean [Byte.x00; Byte.x00; Byte.xff; Byte.xff] 4 = Some 127
  ∧ fpi_std_sq_dev [Byte.x00; Byte.x00; Byte.xff; Byte.xff] 4 = Some 16256.
Proof.
  intros Hsz Hrange. split; [by apply fpi_std_sq_dev_mean_eq|].
  split.
  { rewrite fpi_std_sq_dev_eq by done. unfold squared_deviation.
    by rewrite <- Hsz. }
  split.
  { intros v Hv. rewrite fpi_std_sq_dev_eq by done. f_equal.
    rewrite Hv. apply squared_deviation_constant. lia. }
  split; vm_compute; reflexivity.
Qed.

Lemma fpi_std_sq_dev_correct_witness :
  fpi_std_sq_dev [Byte.x0a; Byte.x0a; Byte.x0a; Byte.x0a] 4 = Some 0.
Proof.
  refine (proj1 (proj2 (proj2
    (fpi_std_sq_dev_correct [Byte.x0a; Byte.x0a; Byte.x0a; Byte.x0a] 4
       _ _))) Byte.x0a _).
  - reflexivity.
  - unfold G_MAXINT. lia.
  - reflexivity.
Defined.

(** ** Mean square difference *)

Lemma sum_sq_diff_snoc l1 l2 b1 b2 :
  length l1 = length l2 →
  sum_sq_diff (l1 ++ [b1]) (l2 ++ [b2])
  = sum_sq_diff l1 l2 + (byte_val b1 - byte_val b2) * (byte_val b1 - byte_val b2).
Proof.
  revert l2. induction l1 as [|a l1 IH]; intros [|c l2] Hlen;
    simplify_eq/=; [lia|].
  rewrite IH by done. lia.
Qed.

Lemma sum_sq_diff_bound l1 l2 :
  0 <= sum_sq_diff l1 l2 <= 65025 * Z.of_nat (length l1).
Proof.
  revert l2. induction l1 as [|a l1 IH]; intros [|c l2]; simpl; try lia.
  specialize (IH l2).
  pose proof (byte_val_range a). pose proof (byte_val_range c).
  pose proof (sq_range_255 (byte_val a - byte_val c)). lia.
Qed.

(** Where the sum of squares fits the [int] accumulator (at most 33025
    bytes always do), [fpi_mean_sq_diff_norm] returns the documented
    quotient. *)
Lemma fpi_mean_sq_diff_norm_small buf1 buf2 size :
  1 <= size <= 33025 →
  size <= Z.of_nat (length buf1) → size <= Z.of_nat (length buf2) →
  fpi_mean_sq_diff_norm buf1 buf2 size
  = Some (mean_square_diff buf1 buf2 size).
Proof.
  intros Hsz H1 H2. unfold fpi_mean_sq_diff_norm.
  match goal with
  | |- context [for_loop ?n ?b ?s] =>
      destruct (for_loop_inv
                  (λ k acc, acc = sum_sq_diff (take k buf1) (take k buf2))
                  b n s) as (r & Hr & HP)
  end.
  - by rewrite !take_0.
  - intros k t Hk ->.
    destruct (lookup_lt_is_Some_2 buf1 k) as [b1 Hb1]; [lia|].
    destruct (lookup_lt_is_Some_2 buf2 k) as [b2 Hb2]; [lia|].
    rewrite !buf_load_lookup, Hb1, Hb2. simpl. eexists. split; [done|].
    rewrite (take_S_r _ _ _ Hb1), (take_S_r _ _ _ Hb2).
    rewrite sum_sq_diff_snoc by (rewrite !length_take; lia).
    pose proof (sum_sq_diff_bound (take k buf1) (take k buf2)) as Hs.
    rewrite length_take in Hs.
    pose proof (byte_val_range b1). pose proof (byte_val_range b2).
    pose proof (sq_range_255 (byte_val b1 - byte_val b2)).
    rewrite (wrap_gint_id (byte_val b1 - byte_val b2)) by lia.
    rewrite (wrap_gint_id ((byte_val b1 - byte_val b2) * _)) by lia.
    apply wrap_gint_id. lia.
  - rewrite Hr. simpl. subst r. unfold c_div.
    rewrite bool_decide_false by lia. simpl. unfold mean_square_diff.
    f_equal. apply wrap_gint_id.
    pose proof (sum_sq_diff_bound (take (Z.to_nat size) buf1)
                  (take (Z.to_nat size) buf2)) as Hs.
    rewrite length_take in Hs.
    rewrite Z.quot_div_nonneg by lia.
    assert (0 <= sum_sq_diff (take (Z.to_nat size) buf1)
                   (take (Z.to_nat size) buf2) / size <= 65025).
    { split; [apply Z.div_pos; lia | apply Z.div_le_upper_bound; lia]. }
    lia.
Qed.

(** C4 at its failing input.  For two buffers of 33026 bytes, all 0 and all
    255, the sum of squares 2147515650 exceeds [G_MAXINT]: the [int]
    accumulator overflows, and with two's-complement wrap-around the
    function returns -65023, where the documented quotient is 65025. *)
Theorem fpi_mean_sq_diff_norm_overflow :
  let buf1 := replicate (Z.to_nat 33026) Byte.x00 in
  let buf2 := replicate (Z.to_nat 33026) Byte.xff in
  fpi_mean_sq_diff_norm buf1 buf2 33026 = Some (-65023)
  ∧ mean_square_diff buf1 buf2 33026 = 65025
  ∧ sum_sq_diff buf1 buf2 = 2147515650
  ∧ G_MAXINT < sum_sq_diff buf1 buf2.
Proof. vm_compute. repeat split; reflexivity. Qed.

(** ** Memory blocks *)

Lemma memcpy_load_negative (d : list byte) (off n : Z) :
  off < 0 → memcpy_load d off n = None.
Proof. intros Hoff. unfold memcpy_load. by rewrite bool_decide_false by lia. Qed.

Lemma memcpy_load_app (p a q : list byte) (off n : Z) :
  off = Z.of_nat (length p) → n = Z.of_nat (length a) →
  memcpy_load (p ++ a ++ q) off n = Some a.
Proof.
  intros -> ->. unfold memcpy_load.
  rewrite bool_decide_true by (rewrite !length_app; lia).
  rewrite !Nat2Z.id, drop_app_length, take_app_length. done.
Qed.

Lemma memcpy_store_app (p a q b : list byte) (off : Z) :
  off = Z.of_nat (length p) → length b = length a →
  memcpy_store (p ++ a ++ q) off b = Some (p ++ b ++ q).
Proof.
  intros -> Hlen. unfold memcpy_store.
  rewrite bool_decide_true by (rewrite !length_app; lia).
  rewrite Nat2Z.id, take_app_length. do 3 f_equal.
  rewrite Hlen, drop_app_add' by done. apply drop_app_length.
Qed.

Lemma buf_store_app (p q : list byte) (a v : byte) (off : Z) :
  off = Z.of_nat (length p) →
  buf_store (p ++ a :: q) off v = Some (p ++ v :: q).
Proof.
  intros ->. unfold buf_store.
  rewrite bool_decide_true by (rewrite length_app; simpl; lia).
  rewrite Nat2Z.id. f_equal.
  replace (length p) with (length p + 0)%nat at 1 by lia.
  by rewrite insert_app_r.
Qed.

Lemma length_concat_rows (W : nat) (rows : list (list byte)) :
  Forall (λ r, length r = W) rows →
  length (concat rows) = (W * length rows)%nat.
Proof.
  induction 1 as [|r rows Hr _ IH]; simpl; [lia|].
  rewrite length_app, IH, Hr. lia.
Qed.

Lemma rows_of_concat (W H : nat) (data : list byte) :
  length data = (W * H)%nat → concat (rows_of W H data) = data.
Proof.
  revert data. induction H as [|H IH]; intros data Hlen; simpl.
  - destruct data; [done | simpl in Hlen; lia].
  - rewrite IH by (rewrite length_drop; lia). apply take_drop.
Qed.

Lemma rows_of_width (W H : nat) (data : list byte) :
  length data = (W * H)%nat →
  Forall (λ r, length r = W) (rows_of W H data).
Proof.
  revert data. induction H as [|H IH]; intros data Hlen; simpl; [done|].
  constructor.
  - rewrite length_take. lia.
  - apply IH. rewrite length_drop. lia.
Qed.

Lemma rows_of_length (W H : nat) (data : list byte) :
  length (rows_of W H data) = H.
Proof. revert data. induction H as [|H IH]; intros; simpl; [done|]. by rewrite IH. Qed.

(** ** Horizontal flip *)

Ltac loop_invariant P :=
  match goal with
  | |- context [for_loop ?n ?b ?s] =>
      let r := fresh "r" in
      let Hr := fresh "Hr" in
      let HP := fresh "HP" in
      destruct (for_loop_inv P b n s) as (r & Hr & HP);
      [ | | rewrite Hr ]
  end.

(** The inner loop of [hflip] writes one row back reversed. *)
Lemma hflip_row (p row q : list byte) (offset : Z) :
  offset = Z.of_nat (length p) →
  offset + Z.of_nat (length row) <= G_MAXINT →
  for_loop (Z.of_nat (length row))
    (λ j data,
       v ← buf_load row
             (wrap_gint (wrap_gint (Z.of_nat (length row) - j) - 1));
       buf_store data (wrap_gint (offset + j)) v)
    (p ++ row ++ q)
  = Some (p ++ reverse row ++ q).
Proof.
  intros -> Hmax. unfold G_MAXINT in Hmax.
  loop_invariant
    (λ k d, d = p ++ take k (reverse row) ++ drop k row ++ q).
  - by rewrite take_0, drop_0.
  - intros k t Hk ->.
    rewrite (wrap_gint_id (Z.of_nat (length row) - Z.of_nat k)) by lia.
    rewrite (wrap_gint_id (_ - 1)) by lia.
    rewrite (wrap_gint_id (_ + _)) by lia.
    destruct (lookup_lt_is_Some_2 (reverse row) k) as [v Hv];
      [rewrite length_reverse; lia|].
    destruct (lookup_lt_is_Some_2 row k) as [x Hx]; [lia|].
    pose proof Hv as Hv'. rewrite reverse_lookup in Hv' by lia.
    replace (Z.of_nat (length row) - Z.of_nat k - 1)
      with (Z.of_nat (length row - Datatypes.S k)) by lia.
    rewrite buf_load_lookup, Hv'. simpl.
    rewrite (drop_S _ _ _ Hx), (take_S_r _ _ _ Hv).
    exists (p ++ (take k (reverse row) ++ [v]) ++ drop (Datatypes.S k) row ++ q).
    split; [|done].
    replace (p ++ take k (reverse row) ++ (x :: drop (Datatypes.S k) row) ++ q)
      with ((p ++ take k (reverse row)) ++ x :: (drop (Datatypes.S k) row ++ q))
      by (by rewrite <- !app_assoc).
    rewrite buf_store_app.
    + by rewrite <- !app_assoc.
    + rewrite length_app, length_take, length_reverse. lia.
  - rewrite HP, Nat2Z.id. f_equal. f_equal.
    rewrite take_ge by (rewrite length_reverse; lia).
    by rewrite drop_ge by lia.
Qed.

(** [hflip] reverses every row of a buffer of [H] rows of [W] bytes. *)
Lemma hflip_rows (W : nat) (rows : list (list byte)) :
  Forall (λ r, length r = W) rows →
  Z.of_nat W * Z.of_nat (length rows) <= G_MAXINT →
  hflip (concat rows) (Z.of_nat W) (Z.of_nat (length rows))
  = Some (concat (reverse <$> rows)).
Proof.
  intros Hrows Hmax. unfold hflip.
  loop_invariant
    (λ k d, d = concat (reverse <$> take k rows) ++ concat (drop k rows)).
  - by rewrite take_0, drop_0.
  - intros k t Hk ->.
    destruct (lookup_lt_is_Some_2 rows k) as [row Hrow]; [lia|].
    assert (length row = W) as HW by (by eapply (Forall_lookup_1 _ _ _ _ Hrows)).
    assert (length (concat (reverse <$> take k rows)) = (W * k)%nat) as HP.
    { rewrite (length_concat_rows W).
      - rewrite length_fmap, length_take. lia.
      - apply Forall_fmap. eapply Forall_impl; [by apply Forall_take|].
        intros r Hr. simpl. by rewrite length_reverse. }
    assert (Z.of_nat k * Z.of_nat W + Z.of_nat W <= G_MAXINT) as Hoff by nia.
    unfold G_MAXINT in Hoff.
    rewrite (wrap_gint_id (_ * _)) by lia.
    rewrite (drop_S _ _ _ Hrow), concat_cons.
    rewrite memcpy_load_app by lia. simpl.
    subst W. rewrite hflip_row by (unfold G_MAXINT; lia).
    eexists. split; [done|].
    rewrite (take_S_r _ _ _ Hrow), fmap_app, concat_app. simpl.
    by rewrite app_nil_r, <- !app_assoc.
  - rewrite HP, Nat2Z.id, take_ge, drop_ge by lia. simpl.
    by rewrite app_nil_r.
Qed.

(** ** Vertical flip *)

(** One iteration of [vflip]: two rows of the buffer change places. *)
Lemma vflip_swap (p a m b q : list byte) (offset swap_offset width : Z) :
  offset = Z.of_nat (length p) →
  swap_offset = Z.of_nat (length p + length a + length m) →
  width = Z.of_nat (length a) → length b = length a →
  (rowbuf ← memcpy_load (p ++ a ++ m ++ b ++ q) offset width;
   lower ← memcpy_load (p ++ a ++ m ++ b ++ q) swap_offset width;
   data ← memcpy_store (p ++ a ++ m ++ b ++ q) offset lower;
   memcpy_store data swap_offset rowbuf)
  = Some (p ++ b ++ m ++ a ++ q).
Proof.
  intros -> -> -> Hlen.
  rewrite (memcpy_load_app p a (m ++ b ++ q) (Z.of_nat (length p))) by lia.
  change (Some ?x ≫= ?f) with (f x). cbv beta.
  assert (p ++ a ++ m ++ b ++ q = (p ++ a ++ m) ++ b ++ q) as Hsplit
    by (by rewrite <- !app_assoc).
  rewrite Hsplit at 1.
  rewrite (memcpy_load_app (p ++ a ++ m) b q)
    by (rewrite ?length_app; lia).
  change (Some ?x ≫= ?f) with (f x). cbv beta.
  rewrite (memcpy_store_app p a (m ++ b ++ q) b) by (lia || congruence).
  change (Some ?x ≫= ?f) with (f x). cbv beta.
  replace (p ++ b ++ m ++ b ++ q) with ((p ++ b ++ m) ++ b ++ q)
    by (by rewrite <- !app_assoc).
  rewrite (memcpy_store_app (p ++ b ++ m) b q a)
    by (rewrite ?length_app; (lia || congruence)).
  by rewrite <- !app_assoc.
Qed.

Lemma for_range_S {S : Type} (i : Z) (c : nat) (body : Z → S → option S)
    (s : S) :
  for_range i (Datatypes.S c) body s
  = body i s ≫= for_range (i + 1) c body.
Proof. done. Qed.

(** The loop of [vflip] from iteration [k] on: the [k] outermost rows on
    either side are done, the rows [X] between them get reversed. *)
Lemma vflip_loop (W Htot : nat) (n k : nat) (P X Q : list (list byte)) :
  Forall (λ r, length r = W) P →
  Forall (λ r, length r = W) X →
  Forall (λ r, length r = W) Q →
  length P = k → length Q = k → (length X + 2 * k = Htot)%nat →
  (2 * n <= length X < 2 * n + 2)%nat →
  Z.of_nat Htot <= G_MAXINT →
  Z.of_nat W * Z.of_nat Htot <= G_MAXINT →
  for_range (Z.of_nat k) n
    (λ i data,
       let offset := wrap_gint (i * Z.of_nat W) in
       let swap_offset :=
         wrap_gint (Z.of_nat W * Z.of_nat Htot
                    - wrap_gint (Z.of_nat W * wrap_gint (i + 1))) in
       rowbuf ← memcpy_load data offset (Z.of_nat W);
       lower ← memcpy_load data swap_offset (Z.of_nat W);
       data ← memcpy_store data offset lower;
       memcpy_store data swap_offset rowbuf)
    (concat (P ++ X ++ Q))
  = Some (concat (P ++ reverse X ++ Q)).
Proof.
  revert k P X Q.
  induction n as [|n IH]; intros k P X Q HP HX HQ HlP HlQ HH Hn Hhmax Hmax.
  - simpl. destruct X as [|x [|y X]]; simpl in Hn; try lia; done.
  - destruct X as [|a X]; [simpl in Hn; lia|].
    destruct X as [|b M _] using rev_ind; [simpl in Hn; lia|].
    rewrite length_cons, length_app in Hn, HH. simpl in Hn, HH.
    apply Forall_cons in HX as [Ha HX].
    apply Forall_app in HX as [HM Hb].
    rewrite Forall_singleton in Hb. cbv beta in Ha, Hb.
    pose proof (length_concat_rows W P HP) as HcP.
    pose proof (length_concat_rows W M HM) as HcM.
    assert (0 <= Z.of_nat W * Z.of_nat Htot < 2 ^ 31) as Hr1
      by (unfold G_MAXINT in Hmax; lia).
    pose proof Hhmax as Hhmax'. unfold G_MAXINT in Hhmax'.
    assert (Z.of_nat W * (Z.of_nat k + 1) <= Z.of_nat W * Z.of_nat Htot)
      as Hr2 by (apply Z.mul_le_mono_nonneg_l; lia).
    assert (Z.of_nat k * Z.of_nat W <= Z.of_nat W * Z.of_nat Htot)
      as Hr3 by nia.
    assert (concat (P ++ (a :: M ++ [b]) ++ Q)
            = concat P ++ a ++ concat M ++ b ++ concat Q) as Hdata.
    { rewrite !concat_app. simpl.
      rewrite !concat_app. simpl. by rewrite app_nil_r, <- !app_assoc. }
    rewrite for_range_S. cbv beta zeta.
    rewrite (wrap_gint_id (Z.of_nat k + 1)) by lia.
    rewrite (wrap_gint_id (Z.of_nat W * (Z.of_nat k + 1))) by lia.
    rewrite (wrap_gint_id (Z.of_nat k * Z.of_nat W)) by lia.
    rewrite (wrap_gint_id (_ - Z.of_nat W * (Z.of_nat k + 1))) by lia.
    assert (Z.of_nat k * Z.of_nat W = Z.of_nat (length (concat P))) as Ho1
      by (rewrite HcP; nia).
    assert (Z.of_nat W * Z.of_nat Htot - Z.of_nat W * (Z.of_nat k + 1)
            = Z.of_nat (length (concat P) + length a + length (concat M)))
      as Ho2 by (rewrite HcP, HcM, Ha; nia).
    rewrite Hdata.
    rewrite (vflip_swap (concat P) a (concat M) b (concat Q))
      by (done || lia || congruence).
    change (Some ?x ≫= ?f) with (f x).
    replace (Z.of_nat k + 1) with (Z.of_nat (Datatypes.S k)) by lia.
    replace (concat P ++ b ++ concat M ++ a ++ concat Q)
      with (concat ((P ++ [b]) ++ M ++ (a :: Q))).
    2:{ rewrite !concat_app. simpl. by rewrite app_nil_r, <- !app_assoc. }
    replace (concat (P ++ reverse (a :: M ++ [b]) ++ Q))
      with (concat ((P ++ [b]) ++ reverse M ++ (a :: Q))).
    2:{ rewrite reverse_cons, reverse_app, reverse_singleton.
        simpl. by rewrite <- !app_assoc. }
    apply (IH (Datatypes.S k) (P ++ [b]) M (a :: Q)); try done.
    + apply Forall_app. split; [done|]. by apply Forall_singleton.
    + by apply Forall_cons.
    + rewrite length_app. simpl. lia.
    + simpl. lia.
    + lia.
    + lia.
Qed.

(** [vflip] reverses the order of the rows. *)
Lemma vflip_rows (W : nat) (rows : list (list byte)) :
  Forall (λ r, length r = W) rows →
  Z.of_nat (length rows) <= G_MAXINT →
  Z.of_nat W * Z.of_nat (length rows) <= G_MAXINT →
  vflip (concat rows) (Z.of_nat W) (Z.of_nat (length rows))
  = Some (concat (reverse rows)).
Proof.
  intros Hrows Hhmax Hmax. unfold vflip, for_loop.
  rewrite (wrap_gint_id (Z.of_nat W * _)) by (unfold G_MAXINT in Hmax; lia).
  set (n := Z.to_nat (Z.of_nat (length rows) ÷ 2)).
  assert (2 * n <= length rows < 2 * n + 2)%nat as Hn.
  { subst n. rewrite Z.quot_div_nonneg by lia.
    pose proof (Z.div_mod (Z.of_nat (length rows)) 2).
    pose proof (Z.mod_pos_bound (Z.of_nat (length rows)) 2).
    assert (0 <= Z.of_nat (length rows) / 2) by (apply Z.div_pos; lia).
    lia. }
  assert (length rows + 2 * 0 = length rows)%nat as Hh by lia.
  pose proof (vflip_loop W (length rows) n O [] rows []
                (Forall_nil_2 _) Hrows (Forall_nil_2 _)
                eq_refl eq_refl Hh Hn Hhmax Hmax) as Hl.
  rewrite !app_nil_l, !app_nil_r in Hl. exact Hl.
Qed.

(** ** Colour inversion *)

Lemma invert_colors_map (data : list byte) (W H : Z) :
  W * H = Z.of_nat (length data) → W * H <= G_MAXINT →
  invert_colors data W H = Some (invert_byte <$> data).
Proof.
  intros Hlen Hmax. unfold invert_colors. unfold G_MAXINT in Hmax.
  rewrite wrap_gint_id by lia. rewrite Hlen.
  loop_invariant
    (λ k d, d = (invert_byte <$> take k data) ++ drop k data).
  - by rewrite take_0, drop_0.
  - intros k t Hk ->.
    destruct (lookup_lt_is_Some_2 data k) as [x Hx]; [lia|].
    assert (length (invert_byte <$> take k data) = k) as Hlk
      by (rewrite length_fmap, length_take; lia).
    rewrite (drop_S _ _ _ Hx).
    rewrite buf_load_lookup, list_lookup_middle by done. simpl.
    rewrite buf_store_app by lia.
    eexists. split; [done|].
    rewrite (take_S_r _ _ _ Hx), fmap_app. simpl.
    by rewrite <- app_assoc.
  - rewrite HP, Nat2Z.id, take_ge, drop_ge by lia. by rewrite app_nil_r.
Qed.

Lemma invert_byte_val b : byte_val (invert_byte b) = 255 - byte_val b.
Proof. apply byte_of_invert. Qed.

(** ** Flips are involutions *)

Lemma hflip_buffer (W H : Z) (data : list byte) :
  0 <= W → 0 <= H → W * H <= G_MAXINT → Z.of_nat (length data) = W * H →
  hflip data W H
  = Some (concat (reverse <$> rows_of (Z.to_nat W) (Z.to_nat H) data)).
Proof.
  intros HW HH Hmax Hlen.
  assert (length data = (Z.to_nat W * Z.to_nat H)%nat) as Hlen' by nia.
  pose proof (hflip_rows (Z.to_nat W) (rows_of (Z.to_nat W) (Z.to_nat H) data)
                (rows_of_width _ _ _ Hlen')) as Hf.
  rewrite rows_of_length, rows_of_concat, !Z2Nat.id in Hf by done.
  by apply Hf.
Qed.

Lemma vflip_buffer (W H : Z) (data : list byte) :
  0 <= W → 0 <= H <= G_MAXINT → W * H <= G_MAXINT →
  Z.of_nat (length data) = W * H →
  vflip data W H
  = Some (concat (reverse (rows_of (Z.to_nat W) (Z.to_nat H) data))).
Proof.
  intros HW [HH HHmax] Hmax Hlen.
  assert (length data = (Z.to_nat W * Z.to_nat H)%nat) as Hlen' by nia.
  pose proof (vflip_rows (Z.to_nat W) (rows_of (Z.to_nat W) (Z.to_nat H) data)
                (rows_of_width _ _ _ Hlen')) as Hf.
  rewrite rows_of_length, rows_of_concat, !Z2Nat.id in Hf by done.
  by apply Hf.
Qed.

Lemma rows_of_concat_rows (W : nat) (rows : list (list byte)) :
  Forall (λ r, length r = W) rows →
  rows_of W (length rows) (concat rows) = rows.
Proof.
  induction 1 as [|r rows Hr _ IH]; simpl; [done|].
  rewrite take_app_length', drop_app_length' by done. by rewrite IH.
Qed.

Lemma hflip_rows_width (W : nat) (rows : list (list byte)) :
  Forall (λ r, length r = W) rows →
  Forall (λ r, length r = W) (reverse <$> rows).
Proof.
  intros Hr. apply Forall_fmap. eapply Forall_impl; [done|].
  intros r Hl. simpl. by rewrite length_reverse.
Qed.

Lemma reverse_reverse_rows (rows : list (list byte)) :
  reverse <$> (reverse <$> rows) = rows.
Proof.
  induction rows as [|r rows IH]; [done|].
  rewrite !fmap_cons. by rewrite reverse_involutive, IH.
Qed.

(** Where the index arithmetic of the flips stays within [gint], that is
    for a buffer of [W * H] bytes with [W * H] at most [G_MAXINT], [hflip]
    applied twice gives the buffer back, and so does [vflip]. *)
Lemma flips_involutive (W H : Z) (data : list byte) :
  0 <= W → 0 <= H <= G_MAXINT → W * H <= G_MAXINT →
  Z.of_nat (length data) = W * H →
  (d ← hflip data W H; hflip d W H) = Some data
  ∧ (d ← vflip data W H; vflip d W H) = Some data.
Proof.
  intros HW [HH HHmax] Hmax Hlen.
  assert (length data = (Z.to_nat W * Z.to_nat H)%nat) as Hlen' by nia.
  pose proof (rows_of_width _ _ _ Hlen') as Hrows.
  pose proof (rows_of_length (Z.to_nat W) (Z.to_nat H) data) as Hcount.
  pose proof (rows_of_concat _ _ _ Hlen') as Hcat.
  set (rows := rows_of (Z.to_nat W) (Z.to_nat H) data) in *.
  assert (Z.of_nat (Z.to_nat W) * Z.of_nat (length rows) <= G_MAXINT)
    as Hmax' by (rewrite Hcount, !Z2Nat.id by done; done).
  assert (Z.of_nat (length rows) <= G_MAXINT)
    as HHmax' by (rewrite Hcount, Z2Nat.id by done; done).
  replace W with (Z.of_nat (Z.to_nat W)) by lia.
  replace H with (Z.of_nat (length rows)) by lia.
  rewrite <- Hcat. split.
  - rewrite hflip_rows by done. simpl.
    pose proof (hflip_rows (Z.to_nat W) (reverse <$> rows)
                  (hflip_rows_width _ _ Hrows)) as Hf.
    rewrite length_fmap in Hf. rewrite Hf by done.
    by rewrite reverse_reverse_rows.
  - rewrite vflip_rows by done. simpl.
    pose proof (vflip_rows (Z.to_nat W) (reverse rows)) as Hf.
    rewrite length_reverse in Hf. rewrite Hf; try done.
    + by rewrite reverse_involutive.
    + by apply Forall_reverse.
Qed.

Lemma flips_involutive_witness :
  let data := [Byte.x01; Byte.x02; Byte.x03; Byte.x04; Byte.x05; Byte.x06] in
  (d ← hflip data 3 2; hflip d 3 2) = Some data
  ∧ (d ← vflip data 3 2; vflip d 3 2) = Some data.
Proof.
  apply (flips_involutive 3 2
           [Byte.x01; Byte.x02; Byte.x03; Byte.x04; Byte.x05; Byte.x06]).
  - lia.
  - unfold G_MAXINT. lia.
  - unfold G_MAXINT. lia.
  - reflexivity.
Defined.

(** ** Flips of images of more than [G_MAXINT] bytes *)

(** The image class accepts widths and heights up to 65535, and the raw
    buffer is allocated with the [guint] product [width * height], which
    these dimensions cannot overflow.  The flips compute their offsets as
    [int]s. *)

(** [hflip] does not complete when the offset of the last row exceeds
    [G_MAXINT]: the offset is negative as an [int], and the row is read
    before the start of the buffer. *)
Lemma hflip_overflow (W H : Z) (data : list byte) :
  0 <= W <= G_MAXUINT16 → 0 <= H <= G_MAXUINT16 → G_MAXINT < W * (H - 1) →
  hflip data W H = None.
Proof.
  unfold G_MAXUINT16, G_MAXINT. intros HW HH Hbig.
  assert (W * (H - 1) <= 65535 * 65534) as Hle
    by (apply Z.mul_le_mono_nonneg; lia).
  unfold hflip, for_loop.
  apply (for_range_fail _ _ (Z.to_nat (H - 1))); [lia|].
  intros t. rewrite Z2Nat.id by lia. cbv beta zeta.
  replace ((0 + (H - 1)) * W) with (W * (H - 1)) by lia.
  rewrite wrap_gint_overflow by lia.
  rewrite memcpy_load_negative by lia. done.
Qed.

(** [vflip] does not complete either: [data_len] is negative as an [int],
    and so is the offset of the last row, which the first iteration
    reads. *)
Lemma vflip_overflow (W H : Z) (data : list byte) :
  0 <= W <= G_MAXUINT16 → 0 <= H <= G_MAXUINT16 → G_MAXINT < W * (H - 1) →
  vflip data W H = None.
Proof.
  unfold G_MAXUINT16, G_MAXINT. intros HW HH Hbig.
  assert (W * (H - 1) <= 65535 * 65534) as Hle
    by (apply Z.mul_le_mono_nonneg; lia).
  assert (2 <= H) as HH2 by nia.
  assert (1 <= H ÷ 2) as Hhalf.
  { rewrite Z.quot_div_nonneg by lia. apply Z.div_le_lower_bound; lia. }
  unfold vflip, for_loop.
  apply (for_range_fail _ _ O); [lia|].
  intros t. cbv beta zeta. simpl Z.of_nat. rewrite Z.add_0_r.
  replace (W * H) with (W * (H - 1) + W) by lia.
  rewrite (wrap_gint_id (0 + 1)) by lia.
  replace (W * (0 + 1)) with W by lia.
  rewrite (wrap_gint_overflow (W * (H - 1) + W)) by lia.
  rewrite (wrap_gint_id W) by lia.
  replace (W * (H - 1) + W - 2 ^ 32 - W) with (W * (H - 1) - 2 ^ 32) by lia.
  rewrite (wrap_gint_id (W * (H - 1) - 2 ^ 32)) by lia.
  destruct (memcpy_load t (wrap_gint (0 * W)) W) as [rowbuf|]; [|done].
  simpl. rewrite memcpy_load_negative by lia. done.
Qed.

(** C6 at its failing input: width and height 65535, the largest the image
    class accepts, and the buffer of such an image, whatever it holds.  In
    [hflip] the offset [32769 * 65535] of row 32769 exceeds [G_MAXINT]; in
    [vflip] the length [65535 * 65535] does, and with it the offset of the
    last row.  Both are signed overflows; with two's-complement wrap-around
    the offsets are negative and the row is read before the start of the
    buffer.  Neither flip completes, so that neither, applied twice, gives
    the buffer back. *)
Theorem flips_overflow (data : list byte) :
  (∀ id pspec, properties id = Some pspec →
     minimum pspec <= 65535 <= maximum pspec)
  ∧ G_MAXINT < 32769 * 65535
  ∧ wrap_gint (32769 * 65535) < 0
  ∧ wrap_gint (65535 * 65535) < 0
  ∧ hflip data 65535 65535 = None
  ∧ vflip data 65535 65535 = None
  ∧ (d ← hflip data 65535 65535; hflip d 65535 65535) ≠ Some data
  ∧ (d ← vflip data 65535 65535; vflip d 65535 65535) ≠ Some data.
Proof.
  assert (hflip data 65535 65535 = None) as Hh
    by (apply hflip_overflow; unfold G_MAXUINT16, G_MAXINT; lia).
  assert (vflip data 65535 65535 = None) as Hv
    by (apply vflip_overflow; unfold G_MAXUINT16, G_MAXINT; lia).
  split.
  { intros id pspec Hp. destruct id; simpl in Hp; [done| |];
      injection Hp as <-; simpl; unfold G_MAXUINT16; lia. }
  split; [unfold G_MAXINT; lia|].
  split; [by vm_compute|]. split; [by vm_compute|].
  split; [exact Hh|]. split; [exact Hv|].
  rewrite Hh, Hv. done.
Qed.

(** ** The buffer operations keep the length of the buffer *)

Lemma buf_store_length d i v d' :
  buf_store d i v = Some d' → length d' = length d.
Proof.
  unfold buf_store. case_bool_decide; intros; simplify_eq.
  apply length_insert.
Qed.

Lemma memcpy_store_length d off src d' :
  memcpy_store d off src = Some d' → length d' = length d.
Proof.
  unfold memcpy_store. case_bool_decide; intros; simplify_eq.
  rewrite !length_app, length_take, length_drop. lia.
Qed.

Lemma for_loop_preserve {S : Type} (Q : S → Prop) (body : Z → S → option S)
    (n : Z) (s s' : S) :
  (∀ j t t', body j t = Some t' → Q t → Q t') →
  Q s → for_loop n body s = Some s' → Q s'.
Proof. unfold for_loop. apply for_range_preserve. Qed.

Lemma hflip_length d W H d' : hflip d W H = Some d' → length d' = length d.
Proof.
  unfold hflip. intros Hrun.
  eapply (for_loop_preserve (λ t, length t = length d)); [|done|exact Hrun].
  intros j t t' Hb Ht.
  apply bind_Some in Hb as (rowbuf & _ & Hb).
  eapply (for_loop_preserve (λ u, length u = length d)); [|done|exact Hb].
  intros k u u' Hs Hu.
  apply bind_Some in Hs as (v & _ & Hs).
  apply buf_store_length in Hs. congruence.
Qed.

Lemma vflip_length d W H d' : vflip d W H = Some d' → length d' = length d.
Proof.
  unfold vflip. intros Hrun.
  eapply (for_loop_preserve (λ t, length t = length d)); [|done|exact Hrun].
  intros j t t' Hb Ht.
  apply bind_Some in Hb as (rowbuf & _ & Hb).
  apply bind_Some in Hb as (lower & _ & Hb).
  apply bind_Some in Hb as (t1 & E1 & Hb).
  apply memcpy_store_length in E1, Hb. congruence.
Qed.

Lemma invert_colors_length d W H d' :
  invert_colors d W H = Some d' → length d' = length d.
Proof.
  unfold invert_colors. intros Hrun.
  eapply (for_loop_preserve (λ t, length t = length d)); [|done|exact Hrun].
  intros j t t' Hb Ht.
  apply bind_Some in Hb as (v & _ & Hb).
  apply buf_store_length in Hb. congruence.
Qed.

(** ** The heap *)

Lemma heap_modify_deref (h : gmap positive (list byte)) (p : option positive)
    (f : list byte → option (list byte)) (d d' : list byte) :
  deref h p = Some d → f d = Some d' → length d' = length d →
  ∃ h', heap_modify h p f = Some h'
        ∧ deref h' p = Some d'
        ∧ (∀ l, p ≠ Some l → h' !! l = h !! l)
        ∧ dom h' = dom h.
Proof.
  intros Hd Hf Hlen. destruct p as [l|]; simpl in *.
  - exists (<[l := d']> h). rewrite Hd. simpl. rewrite Hf. simpl.
    split; [done|]. split; [by rewrite lookup_insert_eq|]. split.
    + intros l' Hne. rewrite lookup_insert_ne; [done | congruence].
    + apply dom_insert_lookup_L. by exists d.
  - simplify_eq. rewrite Hf. simpl. exists h.
    destruct d'; [done | simpl in Hlen; lia].
Qed.

(** What a completed in-place operation did, read backwards. *)
Lemma heap_modify_inv (h h' : gmap positive (list byte)) (p : option positive)
    (f : list byte → option (list byte)) :
  heap_modify h p f = Some h' →
  (∀ d d', f d = Some d' → length d' = length d) →
  ∃ d d', deref h p = Some d ∧ f d = Some d' ∧ deref h' p = Some d'
          ∧ (∀ l, p ≠ Some l → h' !! l = h !! l)
          ∧ dom h' = dom h.
Proof.
  intros Hm Hlen. destruct p as [l|]; simpl in *.
  - apply bind_Some in Hm as (d & Hd & Hm).
    apply bind_Some in Hm as (d' & Hf & Hm). simplify_eq.
    exists d, d'. rewrite lookup_insert_eq. repeat split; try done.
    + intros l' Hne. rewrite lookup_insert_ne; [done | congruence].
    + apply dom_insert_lookup_L. by exists d.
  - apply bind_Some in Hm as (d' & Hf & Hm). simplify_eq.
    exists [], d'. repeat split; try done.
    apply Hlen in Hf. destruct d'; [done | simpl in Hf; lia].
Qed.

(** One conditional step of the normalization. *)
Lemma normalize_step (h : gmap positive (list byte)) (p : option positive)
    (b : bool) (f : list byte → option (list byte)) (d d' : list byte) :
  deref h p = Some d → f d = Some d' → length d' = length d →
  ∃ h', (if b then heap_modify h p f else Some h) = Some h'
        ∧ deref h' p = Some (if b then d' else d)
        ∧ (∀ l, p ≠ Some l → h' !! l = h !! l)
        ∧ dom h' = dom h.
Proof.
  intros Hd Hf Hlen. destruct b.
  - by eapply heap_modify_deref.
  - by exists h.
Qed.

(** ** Flags *)

Lemma flags_cleared (fl a b c m : Z) :
  (∀ n, 0 <= n → Z.testbit m n = true →
        Z.testbit (Z.lor (Z.lor a b) c) n = true) →
  Z.land (Z.land fl (Z.lnot (Z.lor (Z.lor a b) c))) m = 0.
Proof.
  intros Hm. apply Z.bits_inj'. intros n Hn.
  rewrite !Z.land_spec, Z.lnot_spec, Z.bits_0 by done.
  specialize (Hm n Hn).
  destruct (Z.testbit m n).
  - rewrite Hm by done. by destruct (Z.testbit fl n).
  - apply andb_false_r.
Qed.

(** A bit outside the three masks is kept. *)
Lemma flags_other_kept (fl a b c : Z) (n : Z) :
  0 <= n → Z.testbit (Z.lor (Z.lor a b) c) n = false →
  Z.testbit (Z.land fl (Z.lnot (Z.lor (Z.lor a b) c))) n = Z.testbit fl n.
Proof.
  intros Hn Hm. rewrite Z.land_spec, Z.lnot_spec, Hm by done.
  by destruct (Z.testbit fl n).
Qed.

(** ** The normalization step *)

Section NormalizeProperties.

Variables FPI_IMAGE_V_FLIPPED FPI_IMAGE_H_FLIPPED FPI_IMAGE_COLORS_INVERTED : Z.

Local Abbreviation norm :=
  (normalize FPI_IMAGE_V_FLIPPED FPI_IMAGE_H_FLIPPED FPI_IMAGE_COLORS_INVERTED).
Local Abbreviation norm_pixels :=
  (normalize_pixels FPI_IMAGE_V_FLIPPED FPI_IMAGE_H_FLIPPED
     FPI_IMAGE_COLORS_INVERTED).
Local Abbreviation cleared fl :=
  (Z.land fl
     (Z.lnot (Z.lor (Z.lor FPI_IMAGE_H_FLIPPED FPI_IMAGE_V_FLIPPED)
                FPI_IMAGE_COLORS_INVERTED))).

Lemma normalize_pixels_length (fl : Z) (W H : nat) (pixels : list byte) :
  length pixels = (W * H)%nat →
  length (norm_pixels fl W H pixels) = length pixels.
Proof.
  intros Hlen. unfold normalize_pixels.
  assert (length (if flag_set fl FPI_IMAGE_H_FLIPPED
                  then concat (reverse <$> rows_of W H pixels) else pixels)
          = length pixels) as H1.
  { destruct (flag_set fl FPI_IMAGE_H_FLIPPED); [|done].
    rewrite (length_concat_rows W).
    - rewrite length_fmap, rows_of_length. lia.
    - apply hflip_rows_width. by apply rows_of_width. }
  set (d1 := if flag_set fl FPI_IMAGE_H_FLIPPED then _ else _) in *.
  assert (length (if flag_set fl FPI_IMAGE_V_FLIPPED
                  then concat (reverse (rows_of W H d1)) else d1)
          = length pixels) as H2.
  { destruct (flag_set fl FPI_IMAGE_V_FLIPPED); [|done].
    rewrite (length_concat_rows W).
    - rewrite length_reverse, rows_of_length. lia.
    - apply Forall_reverse. apply rows_of_width. lia. }
  set (d2 := if flag_set fl FPI_IMAGE_V_FLIPPED then _ else _) in *.
  destruct (flag_set fl FPI_IMAGE_COLORS_INVERTED); [|done].
  by rewrite length_fmap.
Qed.

(** The heap and work item after [normalize]. *)
Lemma normalize_run (h : gmap positive (list byte))
    (data : DetectMinutiaeData.t) (pixels : list byte) :
  0 <= DetectMinutiaeData.width data →
  0 <= DetectMinutiaeData.height data <= G_MAXINT →
  DetectMinutiaeData.width data * DetectMinutiaeData.height data <= G_MAXINT →
  deref h (DetectMinutiaeData.image data) = Some pixels →
  Z.of_nat (length pixels)
  = DetectMinutiaeData.width data * DetectMinutiaeData.height data →
  ∃ h',
    norm h data
    = Some (h',
            DetectMinutiaeData.mk
              (DetectMinutiaeData.user_cb data)
              (DetectMinutiaeData.minutiae data)
              (DetectMinutiaeData.width data)
              (DetectMinutiaeData.height data)
              (DetectMinutiaeData.ppmm data)
              (cleared (DetectMinutiaeData.flags data))
              (DetectMinutiaeData.image data)
              (DetectMinutiaeData.binarized data))
    ∧ deref h' (DetectMinutiaeData.image data)
      = Some (norm_pixels (DetectMinutiaeData.flags data)
                (Z.to_nat (DetectMinutiaeData.width data))
                (Z.to_nat (DetectMinutiaeData.height data)) pixels)
    ∧ (∀ l, DetectMinutiaeData.image data ≠ Some l → h' !! l = h !! l)
    ∧ dom h' = dom h.
Proof.
  destruct data as [cb mn W H pp fl img bin]. simpl.
  intros HW HH Hmax Hd Hlen. unfold normalize. simpl.
  assert (length pixels = (Z.to_nat W * Z.to_nat H)%nat) as Hlen' by nia.
  (* horizontal flip *)
  destruct (normalize_step h img (flag_set fl FPI_IMAGE_H_FLIPPED)
              (λ d, hflip d W H) pixels
              (concat (reverse <$> rows_of (Z.to_nat W) (Z.to_nat H) pixels)))
    as (h1 & E1 & D1 & F1 & M1); [done | | |].
  { apply hflip_buffer; lia. }
  { eapply hflip_length. apply hflip_buffer; lia. }
  rewrite E1. simpl.
  set (d1 := if flag_set fl FPI_IMAGE_H_FLIPPED then _ else pixels) in *.
  assert (length d1 = length pixels) as L1.
  { subst d1. destruct (flag_set fl FPI_IMAGE_H_FLIPPED); [|done].
    eapply hflip_length. apply hflip_buffer; lia. }
  (* vertical flip *)
  destruct (normalize_step h1 img (flag_set fl FPI_IMAGE_V_FLIPPED)
              (λ d, vflip d W H) d1
              (concat (reverse (rows_of (Z.to_nat W) (Z.to_nat H) d1))))
    as (h2 & E2 & D2 & F2 & M2); [done | | |].
  { apply vflip_buffer; lia. }
  { eapply vflip_length. apply vflip_buffer; lia. }
  rewrite E2. simpl.
  set (d2 := if flag_set fl FPI_IMAGE_V_FLIPPED then _ else d1) in *.
  assert (length d2 = length pixels) as L2.
  { subst d2. destruct (flag_set fl FPI_IMAGE_V_FLIPPED); [|done].
    rewrite <- L1. eapply vflip_length. apply vflip_buffer; lia. }
  (* colour inversion *)
  destruct (normalize_step h2 img (flag_set fl FPI_IMAGE_COLORS_INVERTED)
              (λ d, invert_colors d W H) d2 (invert_byte <$> d2))
    as (h3 & E3 & D3 & F3 & M3); [done | | |].
  { apply invert_colors_map; lia. }
  { by rewrite length_fmap. }
  rewrite E3. simpl. exists h3. split; [done|]. split; [done|]. split.
  - intros l Hl. rewrite F3, F2, F1 by done. done.
  - congruence.
Qed.

(** On a work item whose buffer holds [height] rows of [width] bytes, with
    [width * height] at most [G_MAXINT], the normalization step runs
    horizontal flip, then vertical flip, then colour inversion, each exactly
    when its flag is set, and clears the three flags in the work item;
    horizontal flip reverses each row, vertical flip reverses the order of
    the rows, and colour inversion replaces every byte [v] by [255 - v]. *)
Lemma normalize_correct (h : gmap positive (list byte))
    (data : DetectMinutiaeData.t) (pixels : list byte) :
  0 <= DetectMinutiaeData.width data →
  0 <= DetectMinutiaeData.height data <= G_MAXINT →
  DetectMinutiaeData.width data * DetectMinutiaeData.height data <= G_MAXINT →
  deref h (DetectMinutiaeData.image data) = Some pixels →
  Z.of_nat (length pixels)
  = DetectMinutiaeData.width data * DetectMinutiaeData.height data →
  (∃ h' data',
     norm h data = Some (h', data')
     ∧ deref h' (DetectMinutiaeData.image data')
       = Some (norm_pixels (DetectMinutiaeData.flags data)
                 (Z.to_nat (DetectMinutiaeData.width data))
                 (Z.to_nat (DetectMinutiaeData.height data)) pixels)
     ∧ (∀ l, DetectMinutiaeData.image data ≠ Some l → h' !! l = h !! l)
     ∧ DetectMinutiaeData.flags data'
       = cleared (DetectMinutiaeData.flags data)
     ∧ Z.land (DetectMinutiaeData.flags data') FPI_IMAGE_H_FLIPPED = 0
     ∧ Z.land (DetectMinutiaeData.flags data') FPI_IMAGE_V_FLIPPED = 0
     ∧ Z.land (DetectMinutiaeData.flags data') FPI_IMAGE_COLORS_INVERTED = 0
     ∧ DetectMinutiaeData.image data' = DetectMinutiaeData.image data
     ∧ DetectMinutiaeData.width data' = DetectMinutiaeData.width data
     ∧ DetectMinutiaeData.height data' = DetectMinutiaeData.height data)
  ∧ hflip pixels (DetectMinutiaeData.width data)
      (DetectMinutiaeData.height data)
    = Some (concat (reverse <$>
                      rows_of (Z.to_nat (DetectMinutiaeData.width data))
                        (Z.to_nat (DetectMinutiaeData.height data)) pixels))
  ∧ vflip pixels (DetectMinutiaeData.width data)
      (DetectMinutiaeData.height data)
    = Some (concat (reverse
                      (rows_of (Z.to_nat (DetectMinutiaeData.width data))
                         (Z.to_nat (DetectMinutiaeData.height data)) pixels)))
  ∧ invert_colors pixels (DetectMinutiaeData.width data)
      (DetectMinutiaeData.height data)
    = Some (invert_byte <$> pixels)
  ∧ (∀ b, byte_val (invert_byte b) = 255 - byte_val b).
Proof.
  intros HW HH Hmax Hd Hlen.
  destruct (normalize_run h data pixels HW HH Hmax Hd Hlen)
    as (h' & Hn & Hd' & Hf & _).
  split.
  { eexists h', _. split; [exact Hn|]. simpl. split; [done|].
    split; [done|]. split; [done|].
    split; [|split; [|split]]; try done.
    - apply flags_cleared. intros n Hn0 Hb.
      rewrite !Z.lor_spec, Hb. done.
    - apply flags_cleared. intros n Hn0 Hb.
      rewrite !Z.lor_spec, Hb. by rewrite orb_true_r.
    - apply flags_cleared. intros n Hn0 Hb.
      rewrite !Z.lor_spec, Hb. by rewrite orb_true_r. }
  split; [apply hflip_buffer; lia|].
  split; [apply vflip_buffer; lia|].
  split; [apply invert_colors_map; lia|].
  apply invert_byte_val.
Qed.

End NormalizeProperties.

Lemma normalize_correct_witness :
  ∃ h' data',
    normalize 1 2 4 sample_heap sample_work_item = Some (h', data')
    ∧ deref h' (DetectMinutiaeData.image data')
      = Some [Byte.xf9; Byte.xfa; Byte.xfb; Byte.xfc; Byte.xfd; Byte.xfe]
    ∧ DetectMinutiaeData.flags data' = 0.
Proof.
  destruct (normalize_correct 1 2 4 sample_heap sample_work_item sample_pixels)
    as [(h' & data' & Hn & Hd & _ & Hfl & _) _].
  - simpl. lia.
  - simpl. unfold G_MAXINT. lia.
  - simpl. unfold G_MAXINT. lia.
  - reflexivity.
  - reflexivity.
  - exists h', data'. split; [exact Hn|]. split; [exact Hd|]. exact Hfl.
Defined.

(** ** Normalization of images of more than [G_MAXINT] bytes *)

(** [invert_colors] changes nothing when [width * height] exceeds
    [G_MAXINT]: [data_len] is negative as an [int] and the loop does not
    run. *)
Lemma invert_colors_overflow (W H : Z) (data : list byte) :
  0 <= W <= G_MAXUINT16 → 0 <= H <= G_MAXUINT16 → G_MAXINT < W * H →
  invert_colors data W H = Some data.
Proof.
  unfold G_MAXUINT16, G_MAXINT. intros HW HH Hbig.
  assert (W * H <= 65535 * 65535) as Hle
    by (apply Z.mul_le_mono_nonneg; lia).
  unfold invert_colors, for_loop.
  rewrite wrap_gint_overflow by lia.
  rewrite Z2Nat.nonpos by lia. done.
Qed.

Lemma invert_byte_ne (b : byte) : invert_byte b ≠ b.
Proof.
  intros Hb. apply (f_equal byte_val) in Hb.
  rewrite invert_byte_val in Hb. lia.
Qed.

(** C5 at its failing input, the flag masks being 1, 2 and 4.  On a work
    item of 46341 by 46341 pixels with the inversion flag set, [data_len]
    overflows in [invert_colors]: with two's-complement wrap-around it is
    negative, no byte is complemented, and the flag is cleared all the
    same, where normalization is to replace every byte [v] by [255 - v].
    On a work item of 65535 by 65535 pixels with a flip flag set, the row
    offsets overflow and normalization does not complete.  Both sizes are
    within what the image class accepts; the buffer is any buffer that is
    not empty. *)
Theorem normalize_overflow (b : byte) (rest : list byte) :
  let pixels := b :: rest in
  let h : gmap positive (list byte) := {[ 1%positive := pixels ]} in
  let work_item W H fl :=
    DetectMinutiaeData.mk None None W H 0 fl (Some 1%positive) None in
  (∀ id pspec, properties id = Some pspec →
     minimum pspec <= 46341 ∧ 65535 <= maximum pspec)
  ∧ G_MAXINT < 46341 * 46341
  ∧ wrap_gint (46341 * 46341) < 0
  ∧ normalize 1 2 4 h (work_item 46341 46341 4)
    = Some (h, work_item 46341 46341 0)
  ∧ normalize_pixels 1 2 4 4 (Z.to_nat 46341) (Z.to_nat 46341) pixels
    = invert_byte b :: (invert_byte <$> rest)
  ∧ invert_byte b ≠ b
  ∧ normalize 1 2 4 h (work_item 65535 65535 2) = None
  ∧ normalize 1 2 4 h (work_item 65535 65535 1) = None.
Proof.
  intros pixels h work_item.
  split.
  { intros id pspec Hp. destruct id; simpl in Hp; [done| |];
      injection Hp as <-; simpl; unfold G_MAXUINT16; lia. }
  split; [unfold G_MAXINT; lia|].
  split; [by vm_compute|].
  split.
  { unfold normalize, work_item.
    cbn [DetectMinutiaeData.width DetectMinutiaeData.height
         DetectMinutiaeData.flags DetectMinutiaeData.image
         DetectMinutiaeData.user_cb DetectMinutiaeData.minutiae
         DetectMinutiaeData.ppmm DetectMinutiaeData.binarized].
    change (flag_set 4 2) with false. change (flag_set 4 1) with false.
    change (flag_set 4 4) with true. cbv iota.
    unfold heap_modify, h. cbn [mbind option_bind].
    rewrite lookup_singleton_eq. cbn [mbind option_bind].
    rewrite invert_colors_overflow by (unfold G_MAXUINT16, G_MAXINT; lia).
    cbn [mbind option_bind]. rewrite insert_singleton_eq. done. }
  split; [done|]. split; [apply invert_byte_ne|].
  split.
  - unfold normalize, work_item.
    cbn [DetectMinutiaeData.width DetectMinutiaeData.height
         DetectMinutiaeData.flags DetectMinutiaeData.image].
    change (flag_set 2 2) with true. cbv iota.
    unfold heap_modify, h. cbn [mbind option_bind].
    rewrite lookup_singleton_eq. cbn [mbind option_bind].
    rewrite hflip_overflow by (unfold G_MAXUINT16, G_MAXINT; lia). done.
  - unfold normalize, work_item.
    cbn [DetectMinutiaeData.width DetectMinutiaeData.height
         DetectMinutiaeData.flags DetectMinutiaeData.image].
    change (flag_set 1 2) with false. change (flag_set 1 1) with true.
    cbv iota. cbn [mbind option_bind].
    unfold heap_modify, h. cbn [mbind option_bind].
    rewrite lookup_singleton_eq. cbn [mbind option_bind].
    rewrite vflip_overflow by (unfold G_MAXUINT16, G_MAXINT; lia). done.
Qed.

(** ** The snapshot *)

Lemma g_malloc_spec (h h1 : gmap positive (list byte)) (n : Z)
    (p : option positive) :
  g_malloc h n = (h1, p) →
  (n = 0 ∧ p = None ∧ h1 = h)
  ∨ (n ≠ 0 ∧ ∃ l, p = Some l ∧ h !! l = None
                  ∧ h1 = <[l := replicate (Z.to_nat n) Byte.x00]> h).
Proof.
  unfold g_malloc, g_malloc0. case_bool_decide; intros; simplify_eq.
  - by left.
  - right. split; [done|]. eexists. split; [done|]. split; [|done].
    apply not_elem_of_dom, is_fresh.
Qed.

Lemma dims_product (W H : Z) :
  0 <= W <= G_MAXUINT16 → 0 <= H <= G_MAXUINT16 →
  0 <= W * H <= G_MAXUINT16 * G_MAXUINT16
  ∧ wrap_guint (W * H) = W * H
  ∧ wrap_gint W = W ∧ wrap_gint H = H.
Proof.
  unfold G_MAXUINT16. intros HW HH.
  assert (0 <= W * H <= 65535 * 65535) as Hp by nia.
  split; [done|]. split; [apply wrap_guint_id; lia|].
  split; apply wrap_gint_id; lia.
Qed.

(** The snapshot of a well-formed image: the state is the old one but for
    one fresh block holding a copy of the raw buffer (none for an empty
    image), and the work item holds copies of the fields. *)
Lemma fp_image_detect_minutiae_spec (s : state) (cancellable : option bool)
    (callback : option positive) :
  image_wf s →
  ∃ p d,
    deref (st_heap s) (FpImage.data (st_image s)) = Some d
    ∧ Z.of_nat (length d)
      = FpImage.width (st_image s) * FpImage.height (st_image s)
    ∧ (∀ l, p = Some l → st_heap s !! l = None)
    ∧ (p = None → d = [])
    ∧ fp_image_detect_minutiae s cancellable callback
      = Some ({| st_heap := snapshot_heap (st_heap s) p d;
                 st_image := st_image s;
                 st_calls := st_calls s |},
              {| task_cancellable := cancellable;
                 task_data :=
                   DetectMinutiaeData.mk callback None
                     (FpImage.width (st_image s))
                     (FpImage.height (st_image s))
                     (FpImage.ppmm (st_image s))
                     (FpImage.flags (st_image s)) p None;
                 task_result := None |}).
Proof.
  intros (HW & HH & (d & Hd & Hlen) & _).
  destruct (dims_product _ _ HW HH) as (Hp & Hwrap & HwW & HwH).
  unfold fp_image_detect_minutiae. rewrite Hwrap, HwW, HwH.
  destruct (g_malloc (st_heap s) _) as [h1 p] eqn:Hm.
  exists p, d. split; [done|]. split; [done|].
  assert (memcpy_load d 0
            (FpImage.width (st_image s) * FpImage.height (st_image s))
          = Some d) as Hload.
  { unfold memcpy_load. rewrite bool_decide_true by lia.
    simpl. by rewrite drop_0, take_ge by lia. }
  apply g_malloc_spec in Hm as [(Hn & -> & ->)|(Hn & l & -> & Hfresh & ->)].
  - rewrite Hd. simpl. rewrite Hload. simpl.
    assert (d = []) as -> by (destruct d; [done | simpl in Hlen; lia]).
    split; [done|]. split; [done|]. done.
  - assert (deref (<[l := replicate
                            (Z.to_nat (FpImage.width (st_image s)
                                       * FpImage.height (st_image s)))
                            Byte.x00]> (st_heap s))
              (FpImage.data (st_image s)) = Some d) as Hd'.
    { destruct (FpImage.data (st_image s)) as [l'|]; simpl in *; [|done].
      rewrite lookup_insert_ne; [done | congruence]. }
    rewrite Hd'. simpl. rewrite Hload. simpl.
    split; [by intros ? [= <-]|]. split; [done|]. simpl.
    rewrite lookup_insert_eq. simpl.
    unfold memcpy_store. rewrite bool_decide_true
      by (rewrite length_replicate; lia).
    simpl. rewrite drop_ge by (rewrite length_replicate; lia).
    rewrite app_nil_r. simpl. by rewrite insert_insert_eq.
Qed.

(** ** The worker *)

(** A completed conditional step of the normalization, read backwards. *)
Lemma normalize_step_inv (h h' : gmap positive (list byte))
    (p : option positive) (b : bool) (f : list byte → option (list byte)) :
  (if b then heap_modify h p f else Some h) = Some h' →
  (∀ d d', f d = Some d' → length d' = length d) →
  (∀ l, p ≠ Some l → h' !! l = h !! l)
  ∧ dom h' = dom h
  ∧ (∀ d, deref h p = Some d →
          ∃ d', deref h' p = Some d' ∧ length d' = length d).
Proof.
  intros Hstep Hlen. destruct b.
  - destruct (heap_modify_inv _ _ _ _ Hstep Hlen)
      as (d & d' & Hd & Hf & Hd' & Hfr & Hdom).
    split; [done|]. split; [done|].
    intros d0 Hd0. exists d'. split; [done|].
    rewrite Hd in Hd0. simplify_eq. by eapply Hlen.
  - simplify_eq. split; [done|]. split; [done|]. intros d Hd. by exists d.
Qed.

Section WorkerProperties.

Variables FPI_IMAGE_V_FLIPPED FPI_IMAGE_H_FLIPPED FPI_IMAGE_COLORS_INVERTED : Z.
Variable get_minutiae : list byte → Z → Z → Z → gdouble → lfs_result.

Local Abbreviation norm :=
  (normalize FPI_IMAGE_V_FLIPPED FPI_IMAGE_H_FLIPPED FPI_IMAGE_COLORS_INVERTED).
Local Abbreviation thread_func :=
  (fp_image_detect_minutiae_thread_func FPI_IMAGE_V_FLIPPED
     FPI_IMAGE_H_FLIPPED FPI_IMAGE_COLORS_INVERTED get_minutiae).
Local Abbreviation run :=
  (detect_minutiae_run FPI_IMAGE_V_FLIPPED FPI_IMAGE_H_FLIPPED
     FPI_IMAGE_COLORS_INVERTED get_minutiae).
Local Abbreviation cleared fl :=
  (Z.land fl
     (Z.lnot (Z.lor (Z.lor FPI_IMAGE_H_FLIPPED FPI_IMAGE_V_FLIPPED)
                FPI_IMAGE_COLORS_INVERTED))).

(** Whatever the sizes, a normalization that completes has worked on the
    block of the work item only, and has kept its length. *)
Lemma normalize_inv (h h' : gmap positive (list byte))
    (data data' : DetectMinutiaeData.t) :
  norm h data = Some (h', data') →
  data' = DetectMinutiaeData.mk
            (DetectMinutiaeData.user_cb data)
            (DetectMinutiaeData.minutiae data)
            (DetectMinutiaeData.width data)
            (DetectMinutiaeData.height data)
            (DetectMinutiaeData.ppmm data)
            (cleared (DetectMinutiaeData.flags data))
            (DetectMinutiaeData.image data)
            (DetectMinutiaeData.binarized data)
  ∧ (∀ l, DetectMinutiaeData.image data ≠ Some l → h' !! l = h !! l)
  ∧ dom h' = dom h
  ∧ (∀ d, deref h (DetectMinutiaeData.image data) = Some d →
          ∃ d', deref h' (DetectMinutiaeData.image data) = Some d'
                ∧ length d' = length d).
Proof.
  unfold normalize. intros Hn.
  apply bind_Some in Hn as (h1 & H1 & Hn).
  apply bind_Some in Hn as (h2 & H2 & Hn).
  apply bind_Some in Hn as (h3 & H3 & Hn). simplify_eq.
  apply normalize_step_inv in H1 as (F1 & M1 & L1);
    [|intros; by eapply hflip_length].
  apply normalize_step_inv in H2 as (F2 & M2 & L2);
    [|intros; by eapply vflip_length].
  apply normalize_step_inv in H3 as (F3 & M3 & L3);
    [|intros; by eapply invert_colors_length].
  split; [done|]. split; [|split].
  - intros l Hl. by rewrite F3, F2, F1.
  - congruence.
  - intros d Hd.
    destruct (L1 d Hd) as (d1 & Hd1 & Hl1).
    destruct (L2 d1 Hd1) as (d2 & Hd2 & Hl2).
    destruct (L3 d2 Hd2) as (d3 & Hd3 & Hl3).
    exists d3. split; [done|]. congruence.
Qed.

(** A worker run that completes: the heap after normalization, the pixels
    handed to the extraction function, and the work item and heap left. *)
Lemma thread_func_inv (task task' : GTask) (h h' : gmap positive (list byte)) :
  thread_func task h = Some (task', h') →
  ∃ h3 pixels,
    let data := task_data task in
    let r := get_minutiae pixels (DetectMinutiaeData.width data)
               (DetectMinutiaeData.height data) 8
               (DetectMinutiaeData.ppmm data) in
    deref h3 (DetectMinutiaeData.image data) = Some pixels
    ∧ (∀ l, DetectMinutiaeData.image data ≠ Some l → h3 !! l = h !! l)
    ∧ dom h3 = dom h
    ∧ (∀ d, deref h (DetectMinutiaeData.image data) = Some d →
            length pixels = length d)
    ∧ h' = (bdata_alloc h3 (lfs_bdata r)).1
    ∧ task'
      = {| task_cancellable := task_cancellable task;
           task_data :=
             DetectMinutiaeData.mk
               (DetectMinutiaeData.user_cb data) (lfs_minutiae r)
               (DetectMinutiaeData.width data)
               (DetectMinutiaeData.height data)
               (DetectMinutiaeData.ppmm data)
               (cleared (DetectMinutiaeData.flags data))
               (DetectMinutiaeData.image data)
               (bdata_alloc h3 (lfs_bdata r)).2;
           task_result :=
             Some (if bool_decide (lfs_status r ≠ 0)
                   then TaskError (lfs_status r) else TaskBoolean true) |}.
Proof.
  unfold fp_image_detect_minutiae_thread_func. intros Ht.
  apply bind_Some in Ht as ([h3 data3] & Hn & Ht).
  apply normalize_inv in Hn as (-> & Hfr & Hdom & Hlen).
  simpl in Ht.
  apply bind_Some in Ht as (pixels & Hpix & Ht).
  exists h3, pixels. simpl.
  split; [done|]. split; [done|]. split; [done|]. split.
  { intros d Hd. destruct (Hlen d Hd) as (d' & Hd' & Hl). congruence. }
  destruct (bdata_alloc h3 _) as [h4 bptr]; simpl in *. by simplify_eq.
Qed.

End WorkerProperties.

(** ** Allocation and release *)

Lemma bdata_alloc_spec (h h' : gmap positive (list byte))
    (bdata : option (list byte)) (bptr : option positive) :
  bdata_alloc h bdata = (h', bptr) →
  (bdata = None ∧ h' = h ∧ bptr = None)
  ∨ (∃ b l, bdata = Some b ∧ bptr = Some l ∧ h !! l = None
            ∧ h' = <[l := b]> h).
Proof.
  unfold bdata_alloc, heap_alloc. destruct bdata as [b|]; intros; simplify_eq.
  - right. eexists _, _. repeat split; try done.
    apply not_elem_of_dom, is_fresh.
  - by left.
Qed.

Lemma lookup_g_free_ne (h : gmap positive (list byte)) (p : option positive)
    (l : positive) :
  p ≠ Some l → g_free h p !! l = h !! l.
Proof.
  destruct p as [l'|]; simpl; [|done].
  intros Hne. apply lookup_delete_ne. congruence.
Qed.

Lemma lookup_g_free_eq (h : gmap positive (list byte)) (l : positive) :
  g_free h (Some l) !! l = None.
Proof. apply lookup_delete_eq. Qed.

Lemma dom_lookup_iff (h h' : gmap positive (list byte)) (l : positive) :
  dom h' = dom h → h' !! l = None → h !! l = None.
Proof.
  intros Hdom Hl. apply not_elem_of_dom. rewrite <- Hdom.
  by apply not_elem_of_dom.
Qed.

Lemma snapshot_heap_frame h p d l :
  p ≠ Some l → snapshot_heap h p d !! l = h !! l.
Proof.
  destruct p as [l'|]; simpl; [|done].
  intros Hne. apply lookup_insert_ne. congruence.
Qed.

Lemma snapshot_heap_mono h p d l :
  h !! l ≠ None → snapshot_heap h p d !! l ≠ None.
Proof.
  destruct p as [l'|]; simpl; [|done].
  intros Hl. destruct (decide (l' = l)) as [->|Hne].
  - by rewrite lookup_insert_eq.
  - by rewrite lookup_insert_ne.
Qed.

(** After a run that did not commit, releasing the work item gives the heap
    of before the snapshot back. *)
Lemma heap_released (h h3 h4 : gmap positive (list byte))
    (p bptr : option positive) (d : list byte) (bdata : option (list byte)) :
  (∀ l, p = Some l → h !! l = None) →
  (∀ l, p ≠ Some l → h3 !! l = snapshot_heap h p d !! l) →
  dom h3 = dom (snapshot_heap h p d) →
  bdata_alloc h3 bdata = (h4, bptr) →
  g_free (g_free h4 p) bptr = h.
Proof.
  intros Hfresh Hfr Hdom Hb. apply map_eq. intros l.
  assert (∀ l', h3 !! l' = None → h !! l' = None) as Hnone.
  { intros l' Hl'. apply (dom_lookup_iff _ _ _ Hdom) in Hl'.
    destruct (h !! l') eqn:E; [|done].
    exfalso. eapply snapshot_heap_mono; [|exact Hl']. by rewrite E. }
  assert (g_free h3 p !! l = h !! l) as Hp.
  { destruct (decide (p = Some l)) as [->|Hne].
    - rewrite lookup_g_free_eq. symmetry. by apply Hfresh.
    - rewrite lookup_g_free_ne, Hfr by done. by apply snapshot_heap_frame. }
  apply bdata_alloc_spec in Hb
    as [(_ & -> & ->)|(b & l1 & _ & -> & Hl1 & ->)]; simpl; [done|].
  destruct (decide (l1 = l)) as [->|Hne].
  - rewrite lookup_delete_eq. symmetry. by apply Hnone.
  - rewrite lookup_delete_ne by done. rewrite <- Hp.
    destruct p as [l0|]; simpl.
    + destruct (decide (l0 = l)) as [->|Hne0].
      * by rewrite !lookup_delete_eq.
      * rewrite !lookup_delete_ne by done. by apply lookup_insert_ne.
    + by apply lookup_insert_ne.
Qed.

Lemma snapshot_heap_none (h h3 : gmap positive (list byte))
    (p : option positive) (d : list byte) (l : positive) :
  dom h3 = dom (snapshot_heap h p d) → h3 !! l = None → h !! l = None.
Proof.
  intros Hdom Hl. apply (dom_lookup_iff _ _ _ Hdom) in Hl.
  destruct (h !! l) eqn:E; [|done].
  exfalso. eapply snapshot_heap_mono; [|exact Hl]. by rewrite E.
Qed.

Lemma snapshot_heap_deref (h : gmap positive (list byte))
    (p : option positive) (d : list byte) :
  (p = None → d = []) → deref (snapshot_heap h p d) p = Some d.
Proof.
  destruct p as [l|]; simpl; intros Hnull.
  - by rewrite lookup_insert_eq.
  - by rewrite Hnull.
Qed.

(** ** One extraction, from dispatch to release *)

Section RunProperties.

Variables FPI_IMAGE_V_FLIPPED FPI_IMAGE_H_FLIPPED FPI_IMAGE_COLORS_INVERTED : Z.
Variable get_minutiae : list byte → Z → Z → Z → gdouble → lfs_result.

Local Abbreviation thread_func :=
  (fp_image_detect_minutiae_thread_func FPI_IMAGE_V_FLIPPED
     FPI_IMAGE_H_FLIPPED FPI_IMAGE_COLORS_INVERTED get_minutiae).
Local Abbreviation run :=
  (detect_minutiae_run FPI_IMAGE_V_FLIPPED FPI_IMAGE_H_FLIPPED
     FPI_IMAGE_COLORS_INVERTED get_minutiae).
Local Abbreviation cleared fl :=
  (Z.land fl
     (Z.lnot (Z.lor (Z.lor FPI_IMAGE_H_FLIPPED FPI_IMAGE_V_FLIPPED)
                FPI_IMAGE_COLORS_INVERTED))).

(** What a run that completes has done to a well-formed image: nothing, if
    it was cancelled; else the image has the cleared flags, a raw buffer of
    [width * height] bytes, the binarized buffer and the minutiae of the
    work item. *)
Lemma detect_minutiae_run_inv (s s' : state) (cancellable : option bool)
    (callback : option positive) (task : GTask) :
  image_wf s →
  run s cancellable callback = Some (s', task) →
  st_calls s' = st_calls s ++ user_cb_calls callback
  ∧ ((not_cancelled cancellable = false
      ∧ st_image s' = st_image s ∧ st_heap s' = st_heap s)
     ∨ (not_cancelled cancellable = true
        ∧ ∃ p bptr m d',
            st_image s'
            = FpImage.mk (FpImage.width (st_image s))
                (FpImage.height (st_image s)) (FpImage.ppmm (st_image s))
                (cleared (FpImage.flags (st_image s))) p bptr (Some m)
            ∧ deref (st_heap s') p = Some d'
            ∧ Z.of_nat (length d')
              = FpImage.width (st_image s) * FpImage.height (st_image s)
            ∧ (∀ l, bptr = Some l → is_Some (st_heap s' !! l))
            ∧ ∃ pixels,
                let r := get_minutiae pixels (FpImage.width (st_image s))
                           (FpImage.height (st_image s)) 8
                           (FpImage.ppmm (st_image s)) in
                lfs_minutiae r = Some m
                ∧ (bptr = None ↔ lfs_bdata r = None))).
Proof.
  intros Hwf Hrun.
  destruct (fp_image_detect_minutiae_spec s cancellable callback Hwf)
    as (p & d & Hd & Hlen & Hfresh & Hnull & Hdisp).
  destruct Hwf as (HW & HH & _ & Hbin).
  unfold detect_minutiae_run in Hrun. rewrite Hdisp in Hrun. simpl in Hrun.
  apply bind_Some in Hrun as ([task1 h4] & Ht & Hrun).
  apply thread_func_inv in Ht
    as (h3 & pixels & Hpix & Hfr3 & Hdom3 & Hlen3 & Hh4 & ->).
  simpl in *.
  pose proof (Hlen3 d (snapshot_heap_deref _ _ _ Hnull)) as Hlpix.
  destruct (bdata_alloc h3 _) as [h4' bptr] eqn:Hb. simpl in *. subst h4.
  unfold fp_image_detect_minutiae_cb in Hrun. simpl in Hrun.
  destruct (not_cancelled cancellable) eqn:Hc.
  - (* the commit *)
    unfold commit_minutiae in Hrun. simpl in Hrun.
    destruct (lfs_minutiae _) as [m|] eqn:Hm; simpl in Hrun; [|done].
    simplify_eq. unfold fp_image_detect_minutiae_free. simpl. split.
    { done. }
    right. split; [done|]. exists p, bptr, m, pixels.
    split; [done|].
    assert (∀ l, h3 !! l = None → FpImage.data (st_image s) ≠ Some l)
      as Hnd.
    { intros l Hl Heq. rewrite Heq in Hd. simpl in Hd.
      apply (snapshot_heap_none _ _ _ _ _ Hdom3) in Hl. congruence. }
    assert (∀ l, h3 !! l = None → FpImage.binarized (st_image s) ≠ Some l)
      as Hnb.
    { intros l Hl Heq. destruct (Hbin l Heq) as [x Hx].
      apply (snapshot_heap_none _ _ _ _ _ Hdom3) in Hl. congruence. }
    split; [|split; [lia|split]].
    + destruct p as [l0|]; [|done]. simpl in *.
      assert (FpImage.data (st_image s) ≠ Some l0) as Hn1.
      { intros Heq. rewrite Heq in Hd. simpl in Hd.
        rewrite (Hfresh l0 eq_refl) in Hd. done. }
      assert (FpImage.binarized (st_image s) ≠ Some l0) as Hn2.
      { intros Heq. destruct (Hbin l0 Heq) as [x Hx].
        rewrite (Hfresh l0 eq_refl) in Hx. done. }
      rewrite !lookup_g_free_ne by done.
      apply bdata_alloc_spec in Hb
        as [(_ & -> & ->)|(b & l1 & _ & -> & Hl1 & ->)]; [done|].
      rewrite lookup_insert_ne; [done | congruence].
    + intros l1 ->.
      apply bdata_alloc_spec in Hb
        as [(_ & _ & ?)|(b & l1' & _ & ? & Hl1 & ->)]; simplify_eq.
      rewrite !lookup_g_free_ne by eauto.
      rewrite lookup_insert_eq. by eexists.
    + exists pixels. split; [done|].
      apply bdata_alloc_spec in Hb
        as [(Hnone & _ & ->)|(b & l1 & Hsome & -> & _ & _)].
      * done.
      * rewrite Hsome. done.
  - (* cancelled *)
    simpl in Hrun. simplify_eq. unfold fp_image_detect_minutiae_free. simpl. split.
    { done. }
    left. split; [done|]. split; [done|].
    by eapply heap_released.
Qed.

(** The run of a well-formed image whose sizes fit [gint] completes when
    its token is cancelled. *)
Lemma detect_minutiae_run_cancelled_completes (s : state)
    (callback : option positive) :
  image_wf s →
  FpImage.width (st_image s) * FpImage.height (st_image s) <= G_MAXINT →
  ∃ s' task, run s (Some true) callback = Some (s', task).
Proof.
  intros Hwf Hmax.
  destruct (fp_image_detect_minutiae_spec s (Some true) callback Hwf)
    as (p & d & Hd & Hlen & Hfresh & Hnull & Hdisp).
  destruct Hwf as (HW & HH & _ & Hbin).
  unfold G_MAXUINT16 in HW, HH.
  destruct (normalize_run FPI_IMAGE_V_FLIPPED FPI_IMAGE_H_FLIPPED
              FPI_IMAGE_COLORS_INVERTED (snapshot_heap (st_heap s) p d)
              (DetectMinutiaeData.mk callback None
                 (FpImage.width (st_image s)) (FpImage.height (st_image s))
                 (FpImage.ppmm (st_image s)) (FpImage.flags (st_image s))
                 p None) d)
    as (h3 & Hn & Hd3 & _); simpl; try done.
  { lia. }
  { unfold G_MAXINT. lia. }
  { by apply snapshot_heap_deref. }
  simpl in Hn, Hd3.
  unfold detect_minutiae_run. rewrite Hdisp. simpl.
  unfold fp_image_detect_minutiae_thread_func. simpl.
  rewrite Hn. simpl. rewrite Hd3. simpl.
  destruct (bdata_alloc h3 _) as [h4 bptr]. simpl.
  by eexists _, _.
Qed.

(** A run that is not cancelled and whose extraction stores no minutiae
    (as a failing extraction does) has no result: the completion callback
    reads [num] through the NULL pointer. *)
Lemma detect_minutiae_run_failed (s : state) (cancellable : option bool)
    (callback : option positive) :
  image_wf s →
  not_cancelled cancellable = true →
  (∀ pixels,
     lfs_minutiae (get_minutiae pixels (FpImage.width (st_image s))
                     (FpImage.height (st_image s)) 8
                     (FpImage.ppmm (st_image s))) = None) →
  run s cancellable callback = None.
Proof.
  intros Hwf Hc Hfail.
  destruct (run s cancellable callback) as [[s' task]|] eqn:Hrun; [|done].
  destruct (detect_minutiae_run_inv _ _ _ _ _ Hwf Hrun)
    as (_ & [(Hc' & _)|(_ & p & bptr & m & d' & _ & _ & _ & _ & pixels
                        & Hm & _)]).
  - congruence.
  - rewrite Hfail in Hm. done.
Qed.

End RunProperties.

(** ** Cancellation, snapshot and failure of an extraction *)

Lemma sample_state_wf : image_wf sample_state.
Proof.
  unfold image_wf, G_MAXUINT16. simpl.
  split; [lia|]. split; [lia|]. split; [|done].
  exists sample_pixels. split; reflexivity.
Qed.

Section ExtractionProperties.

Variables FPI_IMAGE_V_FLIPPED FPI_IMAGE_H_FLIPPED FPI_IMAGE_COLORS_INVERTED : Z.
Variable get_minutiae : list byte → Z → Z → Z → gdouble → lfs_result.

Local Abbreviation thread_func :=
  (fp_image_detect_minutiae_thread_func FPI_IMAGE_V_FLIPPED
     FPI_IMAGE_H_FLIPPED FPI_IMAGE_COLORS_INVERTED get_minutiae).
Local Abbreviation run :=
  (detect_minutiae_run FPI_IMAGE_V_FLIPPED FPI_IMAGE_H_FLIPPED
     FPI_IMAGE_COLORS_INVERTED get_minutiae).

(** C2. When the token is cancelled as the completion callback reads it,
    the callback commits nothing; over the whole extraction of a
    well-formed image every field of the image is as before (raw buffer,
    flags, binarized buffer and minutiae, absent if they were absent), and
    so is the heap: what the extraction produced is released.  The
    extraction runs to its end when the sizes fit [gint]. *)
Theorem detect_minutiae_cancelled (s : state) (callback : option positive) :
  image_wf s →
  (∀ task, task_cancellable task = Some true →
     ∃ s', fp_image_detect_minutiae_cb s task = Some (s', task)
           ∧ st_image s' = st_image s ∧ st_heap s' = st_heap s)
  ∧ (FpImage.width (st_image s) * FpImage.height (st_image s) <= G_MAXINT →
     ∃ s' task, run s (Some true) callback = Some (s', task))
  ∧ (∀ s' task,
       run s (Some true) callback = Some (s', task) →
       st_image s' = st_image s
       ∧ st_heap s' = st_heap s
       ∧ deref (st_heap s') (FpImage.data (st_image s'))
         = deref (st_heap s) (FpImage.data (st_image s))
       ∧ FpImage.flags (st_image s') = FpImage.flags (st_image s)
       ∧ FpImage.binarized (st_image s') = FpImage.binarized (st_image s)
       ∧ FpImage.minutiae (st_image s') = FpImage.minutiae (st_image s)
       ∧ (FpImage.binarized (st_image s) = None
          → FpImage.binarized (st_image s') = None)
       ∧ (FpImage.minutiae (st_image s) = None
          → FpImage.minutiae (st_image s') = None)).
Proof.
  intros Hwf. split; [|split].
  - intros [c data res] Hc. simpl in Hc. subst c.
    unfold fp_image_detect_minutiae_cb. simpl. eexists. split; [done|].
    done.
  - intros Hmax. by apply detect_minutiae_run_cancelled_completes.
  - intros s' task Hrun.
    destruct (detect_minutiae_run_inv _ _ _ _ _ _ _ _ _ Hwf Hrun)
      as (_ & [(_ & Himg & Hheap)|(Hc & _)]); [|done].
    rewrite Himg, Hheap. repeat split; done.
Qed.

(** C7. The snapshot of a well-formed image completes; it leaves every
    field of the image and every block of the heap as they were, and gives
    the work item a copy of the raw buffer in a block of its own, with the
    flags, width, height and resolution of the image.  The worker that runs
    next leaves the blocks of before the snapshot as they were: the image
    changes first in the completion callback. *)
Theorem snapshot_isolated (s : state) (cancellable : option bool)
    (callback : option positive) :
  image_wf s →
  ∃ s1 task,
    fp_image_detect_minutiae s cancellable callback = Some (s1, task)
    ∧ st_image s1 = st_image s
    ∧ st_calls s1 = st_calls s
    ∧ (∀ l, st_heap s !! l ≠ None → st_heap s1 !! l = st_heap s !! l)
    ∧ deref (st_heap s1) (DetectMinutiaeData.image (task_data task))
      = deref (st_heap s) (FpImage.data (st_image s))
    ∧ (∀ l, DetectMinutiaeData.image (task_data task) = Some l →
            st_heap s !! l = None)
    ∧ DetectMinutiaeData.flags (task_data task) = FpImage.flags (st_image s)
    ∧ DetectMinutiaeData.width (task_data task) = FpImage.width (st_image s)
    ∧ DetectMinutiaeData.height (task_data task)
      = FpImage.height (st_image s)
    ∧ DetectMinutiaeData.ppmm (task_data task) = FpImage.ppmm (st_image s)
    ∧ (∀ task' h',
         thread_func task (st_heap s1) = Some (task', h') →
         ∀ l, st_heap s !! l ≠ None → h' !! l = st_heap s !! l).
Proof.
  intros Hwf.
  destruct (fp_image_detect_minutiae_spec s cancellable callback Hwf)
    as (p & d & Hd & Hlen & Hfresh & Hnull & Hdisp).
  eexists _, _. split; [exact Hdisp|]. simpl.
  assert (∀ l, st_heap s !! l ≠ None → p ≠ Some l) as Hne.
  { intros l Hl ->. by apply Hl, Hfresh. }
  split; [done|]. split; [done|]. split.
  { intros l Hl. apply snapshot_heap_frame. by apply Hne. }
  split.
  { rewrite Hd. by apply snapshot_heap_deref. }
  split; [done|]. split; [done|]. split; [done|]. split; [done|].
  split; [done|].
  intros task' h' Ht l Hl.
  apply thread_func_inv in Ht
    as (h3 & pixels & Hpix & Hfr3 & Hdom3 & _ & -> & _).
  simpl in *.
  assert (h3 !! l = st_heap s !! l) as H3.
  { rewrite Hfr3 by (by apply Hne). apply snapshot_heap_frame.
    by apply Hne. }
  destruct (bdata_alloc h3 _) as [h4 bptr] eqn:Hb. simpl.
  apply bdata_alloc_spec in Hb
    as [(_ & -> & _)|(b & l1 & _ & _ & Hl1 & ->)]; [done|].
  rewrite lookup_insert_ne; [done|]. intros ->. congruence.
Qed.

End ExtractionProperties.

Lemma detect_minutiae_cancelled_witness :
  ∃ s' task,
    detect_minutiae_run 1 2 4 get_minutiae_sample sample_state (Some true)
      (Some 5%positive) = Some (s', task)
    ∧ st_image s' = st_image sample_state
    ∧ st_heap s' = st_heap sample_state.
Proof.
  destruct (detect_minutiae_cancelled 1 2 4 get_minutiae_sample sample_state
              (Some 5%positive) sample_state_wf) as (_ & Hrun & Hsame).
  destruct Hrun as (s' & task & Hrun).
  - simpl. unfold G_MAXINT. lia.
  - exists s', task. split; [exact Hrun|].
    destruct (Hsame s' task Hrun) as (Himg & Hheap & _). by split.
Defined.

Lemma snapshot_isolated_witness :
  ∃ s1 task,
    fp_image_detect_minutiae sample_state None None = Some (s1, task)
    ∧ st_image s1 = st_image sample_state
    ∧ deref (st_heap s1) (DetectMinutiaeData.image (task_data task))
      = Some sample_pixels.
Proof.
  destruct (snapshot_isolated 1 2 4 get_minutiae_sample sample_state None None
              sample_state_wf)
    as (s1 & task & Hd & Himg & _ & _ & Hcopy & _).
  exists s1, task. split; [exact Hd|]. split; [exact Himg|]. exact Hcopy.
Defined.

(** C1 at its failing input: a 3 by 2 image, no cancellable, and an
    extraction function that returns status -1 and stores nothing.  The
    worker returns the error; the completion callback commits all the same:
    it frees the raw buffer of the image and replaces it and the flags by
    those of the work item, then reads [data->minutiae->num] through the
    NULL pointer, so that the callback and the whole extraction have no
    result. *)
Theorem detect_minutiae_failed_extraction :
  let failed :=
    '(s1, task) ← fp_image_detect_minutiae sample_state None None;
    '(task, h) ← fp_image_detect_minutiae_thread_func 1 2 4
                   get_minutiae_failing task (st_heap s1);
    Some ({| st_heap := h; st_image := st_image s1;
             st_calls := st_calls s1 |}, task) in
  (task_result ∘ snd <$> failed) = Some (Some (TaskError (-1)))
  ∧ (DetectMinutiaeData.minutiae ∘ task_data ∘ snd <$> failed) = Some None
  ∧ ((λ st, let s2 := (commit_buffers st.1 (task_data st.2)).1 in
            (st_image s2, st_heap s2 !! 1%positive)) <$> failed)
    = Some (FpImage.mk 3 2 0 0 (Some 2%positive) None None, None)
  ∧ (failed ≫= λ st, fp_image_detect_minutiae_cb st.1 st.2) = None
  ∧ detect_minutiae_run 1 2 4 get_minutiae_failing sample_state None None
    = None.
Proof. vm_compute. repeat split; reflexivity. Qed.

(** ** Dimensions and the raw buffer over the life of an image *)

Lemma properties_spec (id : prop_id) (pspec : GParamSpecUInt) :
  properties id = Some pspec →
  minimum pspec = 0 ∧ maximum pspec = G_MAXUINT16
  ∧ G_PARAM_CONSTRUCT_ONLY ∈ pflags pspec.
Proof.
  destruct id; simpl; intros; simplify_eq; simpl.
  - repeat split. refine (bool_decide_unpack _ _); vm_compute; exact I.
  - repeat split. refine (bool_decide_unpack _ _); vm_compute; exact I.
Qed.

Lemma fp_image_constructed_spec (s : state) :
  0 <= FpImage.width (st_image s) <= G_MAXUINT16 →
  0 <= FpImage.height (st_image s) <= G_MAXUINT16 →
  FpImage.binarized (st_image s) = None →
  let s' := fp_image_constructed s in
  FpImage.width (st_image s') = FpImage.width (st_image s)
  ∧ FpImage.height (st_image s') = FpImage.height (st_image s)
  ∧ FpImage.binarized (st_image s') = None
  ∧ FpImage.minutiae (st_image s') = FpImage.minutiae (st_image s)
  ∧ deref (st_heap s') (FpImage.data (st_image s'))
    = Some (replicate
              (Z.to_nat (FpImage.width (st_image s)
                         * FpImage.height (st_image s))) Byte.x00).
Proof.
  intros HW HH Hbin.
  destruct (dims_product _ _ HW HH) as (Hp & Hwrap & _).
  unfold fp_image_constructed. rewrite Hwrap.
  unfold g_malloc0. case_bool_decide as Hn; simpl.
  - rewrite Hn. simpl. done.
  - by rewrite lookup_insert_eq.
Qed.

Section LifeProperties.

Variable g_param_value_validate : GParamSpecUInt → Z → option Z.

(** What is relied upon of GObject: a value it hands to [set_property] is
    within the range of its [GParamSpec]. *)
Hypothesis g_param_value_validate_range :
  ∀ pspec v v',
    g_param_value_validate pspec v = Some v' →
    minimum pspec <= v' <= maximum pspec.

Variables FPI_IMAGE_V_FLIPPED FPI_IMAGE_H_FLIPPED FPI_IMAGE_COLORS_INVERTED : Z.
Variable get_minutiae : list byte → Z → Z → Z → gdouble → lfs_result.

Local Abbreviation new_image := (fp_image_new g_param_value_validate).
Local Abbreviation step :=
  (image_step g_param_value_validate FPI_IMAGE_V_FLIPPED FPI_IMAGE_H_FLIPPED
     FPI_IMAGE_COLORS_INVERTED get_minutiae).
Local Abbreviation reach :=
  (reachable g_param_value_validate FPI_IMAGE_V_FLIPPED FPI_IMAGE_H_FLIPPED
     FPI_IMAGE_COLORS_INVERTED get_minutiae).

Lemma g_object_construct_property_range (self : FpImage.t) (id : prop_id)
    (value : Z) :
  0 <= FpImage.width self <= G_MAXUINT16 →
  0 <= FpImage.height self <= G_MAXUINT16 →
  let self' :=
    g_object_construct_property g_param_value_validate self id value in
  0 <= FpImage.width self' <= G_MAXUINT16
  ∧ 0 <= FpImage.height self' <= G_MAXUINT16
  ∧ FpImage.binarized self' = FpImage.binarized self
  ∧ FpImage.minutiae self' = FpImage.minutiae self.
Proof.
  intros HW HH. unfold g_object_construct_property.
  destruct (properties id) as [pspec|] eqn:Hp; [|done].
  destruct (g_param_value_validate pspec _) as [v|] eqn:Hv; [|done].
  apply g_param_value_validate_range in Hv.
  destruct (properties_spec _ _ Hp) as (Hmin & Hmax & _).
  rewrite Hmin, Hmax in Hv.
  destruct id; simpl; done.
Qed.

Lemma fp_image_new_spec (h : gmap positive (list byte)) (width height : Z) :
  let s := new_image h width height in
  image_wf s
  ∧ FpImage.binarized (st_image s) = None
  ∧ FpImage.minutiae (st_image s) = None
  ∧ deref (st_heap s) (FpImage.data (st_image s))
    = Some (replicate
              (Z.to_nat (FpImage.width (st_image s)
                         * FpImage.height (st_image s))) Byte.x00).
Proof.
  unfold fp_image_new.
  assert (0 <= FpImage.width fp_image_init <= G_MAXUINT16) as HW0
    by (unfold G_MAXUINT16; simpl; lia).
  assert (0 <= FpImage.height fp_image_init <= G_MAXUINT16) as HH0
    by (unfold G_MAXUINT16; simpl; lia).
  destruct (g_object_construct_property_range fp_image_init PROP_WIDTH width
              HW0 HH0) as (HW1 & HH1 & Hb1 & Hm1).
  set (self1 := g_object_construct_property _ fp_image_init _ _) in *.
  destruct (g_object_construct_property_range self1 PROP_HEIGHT height
              HW1 HH1) as (HW2 & HH2 & Hb2 & Hm2).
  set (self2 := g_object_construct_property _ self1 _ _) in *.
  set (s0 := {| st_heap := h; st_image := self2; st_calls := [] |}).
  assert (FpImage.binarized (st_image s0) = None) as Hbin
    by (simpl; by rewrite Hb2, Hb1).
  assert (FpImage.minutiae self2 = None) as Hmin by (by rewrite Hm2, Hm1).
  destruct (fp_image_constructed_spec s0 HW2 HH2 Hbin)
    as (Ew & Eh & Eb & Em & Ed).
  unfold image_wf. rewrite Ew, Eh, Eb, Em, Ed. simpl.
  split; [|split; [done | split; [done | done]]].
  split; [done|]. split; [done|]. split; [|done].
  eexists. split; [done|]. rewrite length_replicate.
  destruct (dims_product _ _ HW2 HH2) as (Hp & _). lia.
Qed.

(** GObject refuses to set the two properties of a constructed image. *)
Lemma g_object_set_refused (self : FpImage.t) (id : prop_id) (value : Z) :
  g_object_set g_param_value_validate self id value = self.
Proof.
  unfold g_object_set.
  destruct (properties id) as [pspec|] eqn:Hp; [|done].
  destruct (properties_spec _ _ Hp) as (_ & _ & Hco).
  by rewrite bool_decide_true.
Qed.

(** A step that completes keeps the image well-formed and its
    dimensions. *)
Lemma image_step_wf (s s' : state) (op : image_op) :
  image_wf s → step s op = Some s' →
  image_wf s'
  ∧ FpImage.width (st_image s') = FpImage.width (st_image s)
  ∧ FpImage.height (st_image s') = FpImage.height (st_image s).
Proof.
  intros Hwf Hstep. destruct op as [id value|cancellable callback].
  - simpl in Hstep. simplify_eq.
    unfold image_wf. simpl. rewrite g_object_set_refused. done.
  - simpl in Hstep.
    destruct (detect_minutiae_run _ _ _ _ _ _ _) as [[s1 task]|] eqn:Hrun;
      simplify_eq/=.
    destruct (detect_minutiae_run_inv _ _ _ _ _ _ _ _ _ Hwf Hrun)
      as (_ & [(_ & Himg & Hheap)|(_ & p & bptr & m & d' & Himg & Hd & Hl
                                   & Hb & _)]).
    + unfold image_wf. rewrite Himg, Hheap. done.
    + destruct Hwf as (HW & HH & _).
      unfold image_wf. rewrite Himg. simpl.
      split; [|done]. split; [done|]. split; [done|]. split; [|done].
      by exists d'.
Qed.

Lemma reachable_wf (s : state) : reach s → image_wf s.
Proof.
  induction 1 as [h w ht|s s' op _ IH Hstep].
  - apply fp_image_new_spec.
  - by eapply image_step_wf.
Qed.

(** Where the extraction function stores a binarized buffer whenever it
    stores minutiae, the binarized buffer and the minutiae of an image are
    absent together or present together in every state it reaches. *)
Lemma reachable_binarized_with_minutiae (s : state) :
  (∀ pixels w h depth ppmm,
     lfs_minutiae (get_minutiae pixels w h depth ppmm) ≠ None →
     lfs_bdata (get_minutiae pixels w h depth ppmm) ≠ None) →
  reach s →
  (FpImage.binarized (st_image s) = None
   ↔ FpImage.minutiae (st_image s) = None).
Proof.
  intros Hcontract Hs.
  induction Hs as [h w ht|s s' op Hs IH Hstep].
  - destruct (fp_image_new_spec h w ht) as (_ & -> & -> & _). done.
  - apply reachable_wf in Hs.
    destruct op as [id value|cancellable callback]; simpl in Hstep.
    + simplify_eq. simpl. by rewrite g_object_set_refused.
    + destruct (detect_minutiae_run _ _ _ _ _ _ _) as [[s1 task]|] eqn:Hrun;
        simplify_eq/=.
      destruct (detect_minutiae_run_inv _ _ _ _ _ _ _ _ _ Hs Hrun)
        as (_ & [(_ & Himg & _)|(_ & p & bptr & m & d' & Himg & _ & _ & _
                                 & pixels & Hm & Hb)]).
      * by rewrite Himg.
      * rewrite Himg. simpl. split; [|done].
        intros Hnone. apply Hb in Hnone.
        exfalso. eapply Hcontract; [|exact Hnone]. by rewrite Hm.
Qed.

(** C8. A new image has a zeroed raw buffer of [width * height] bytes; in
    every state an image reaches, its raw buffer has exactly
    [width * height] bytes, and [fp_image_get_data] reports that length. *)
Theorem raw_buffer_length :
  (∀ h width height,
     let s := new_image h width height in
     deref (st_heap s) (FpImage.data (st_image s))
     = Some (replicate
               (Z.to_nat (FpImage.width (st_image s)
                          * FpImage.height (st_image s))) Byte.x00))
  ∧ (∀ s, reach s →
       ∃ d, deref (st_heap s) (FpImage.data (st_image s)) = Some d
            ∧ Z.of_nat (length d)
              = FpImage.width (st_image s) * FpImage.height (st_image s)
            ∧ fp_image_get_data (st_image s)
              = (FpImage.data (st_image s),
                 FpImage.width (st_image s) * FpImage.height (st_image s))).
Proof.
  split.
  - intros h width height. apply fp_image_new_spec.
  - intros s Hs. apply reachable_wf in Hs as (HW & HH & (d & Hd & Hl) & _).
    exists d. split; [done|]. split; [done|].
    unfold fp_image_get_data.
    destruct (dims_product _ _ HW HH) as (_ & -> & _). done.
Qed.

(** C10. The width and height properties are construct-only with range
    0 .. [G_MAXUINT16]; in every state an image reaches, both are within
    that range, the product is at most 65535 * 65535 and is the same as a
    [guint] (no wrap-around at 32 bits, hence none at 64), and no step
    changes the width or the height. *)
Theorem image_dimensions_bounded :
  (∀ id pspec,
     properties id = Some pspec →
     minimum pspec = 0 ∧ maximum pspec = G_MAXUINT16
     ∧ G_PARAM_CONSTRUCT_ONLY ∈ pflags pspec)
  ∧ (∀ s, reach s →
       0 <= FpImage.width (st_image s) <= 65535
       ∧ 0 <= FpImage.height (st_image s) <= 65535
       ∧ FpImage.width (st_image s) * FpImage.height (st_image s)
         <= 65535 * 65535
       ∧ FpImage.width (st_image s) * FpImage.height (st_image s) < 2 ^ 32
       ∧ wrap_guint (FpImage.width (st_image s) * FpImage.height (st_image s))
         = FpImage.width (st_image s) * FpImage.height (st_image s)
       ∧ wrap_guint64
           (FpImage.width (st_image s) * FpImage.height (st_image s))
         = FpImage.width (st_image s) * FpImage.height (st_image s)
       ∧ (∀ op s',
            step s op = Some s' →
            FpImage.width (st_image s') = FpImage.width (st_image s)
            ∧ FpImage.height (st_image s') = FpImage.height (st_image s))).
Proof.
  split; [apply properties_spec|].
  intros s Hs. apply reachable_wf in Hs. pose proof Hs as (HW & HH & _).
  destruct (dims_product _ _ HW HH) as (Hp & Hwrap & _).
  unfold G_MAXUINT16 in *.
  split; [done|]. split; [done|]. split; [lia|]. split; [lia|].
  split; [done|]. split; [apply wrap_guint64_id; lia|].
  intros op s' Hstep. by eapply image_step_wf.
Qed.

End LifeProperties.

Lemma g_param_value_validate_uint_range (pspec : GParamSpecUInt) (v v' : Z) :
  g_param_value_validate_uint pspec v = Some v' →
  minimum pspec <= v' <= maximum pspec.
Proof.
  unfold g_param_value_validate_uint. case_bool_decide; intros; by simplify_eq.
Qed.

Lemma raw_buffer_length_witness :
  let s := fp_image_new g_param_value_validate_uint ∅ 3 2 in
  deref (st_heap s) (FpImage.data (st_image s))
  = Some (replicate
            (Z.to_nat (FpImage.width (st_image s)
                       * FpImage.height (st_image s))) Byte.x00).
Proof.
  exact (proj1 (raw_buffer_length g_param_value_validate_uint
                  g_param_value_validate_uint_range 1 2 4
                  get_minutiae_sample) ∅ 3 2).
Defined.

Lemma image_dimensions_bounded_witness :
  let s := fp_image_new g_param_value_validate_uint ∅ 70000 2 in
  0 <= FpImage.width (st_image s) <= 65535
  ∧ 0 <= FpImage.height (st_image s) <= 65535.
Proof.
  destruct (proj2 (image_dimensions_bounded g_param_value_validate_uint
                     g_param_value_validate_uint_range 1 2 4
                     get_minutiae_sample)
              (fp_image_new g_param_value_validate_uint ∅ 70000 2)
              (reachable_new _ _ _ _ _ ∅ 70000 2))
    as (HW & HH & _).
  by split.
Defined.

(** ** Error domains *)

(** The enumerators have the codes C gives them, and the codes of the two
    enumerations overlap: the domain tells the errors apart. *)
Lemma error_codes :
  FpDeviceRetry_code
  <$> [FP_DEVICE_RETRY_GENERAL; FP_DEVICE_RETRY_TOO_SHORT;
       FP_DEVICE_RETRY_CENTER_FINGER; FP_DEVICE_RETRY_REMOVE_FINGER]
  = [0; 1; 2; 3]
  ∧ FpDeviceError_code
    <$> [FP_DEVICE_ERROR_GENERAL; FP_DEVICE_ERROR_NOT_SUPPORTED;
         FP_DEVICE_ERROR_NOT_OPEN; FP_DEVICE_ERROR_ALREADY_OPEN;
         FP_DEVICE_ERROR_BUSY; FP_DEVICE_ERROR_PROTO;
         FP_DEVICE_ERROR_DATA_INVALID; FP_DEVICE_ERROR_DATA_NOT_FOUND;
         FP_DEVICE_ERROR_DATA_FULL]
    = [0; 1; 2; 3; 4; 5; 6; 7; 8].
Proof. split; reflexivity. Qed.

(** C9. The device-error enumeration has exactly the nine listed members
    and the retry enumeration exactly the four listed ones, and no error
    belongs to both domains. *)
Theorem error_domains_disjoint :
  (∀ e : FpDeviceError,
     e ∈ [FP_DEVICE_ERROR_GENERAL; FP_DEVICE_ERROR_NOT_SUPPORTED;
          FP_DEVICE_ERROR_NOT_OPEN; FP_DEVICE_ERROR_ALREADY_OPEN;
          FP_DEVICE_ERROR_BUSY; FP_DEVICE_ERROR_PROTO;
          FP_DEVICE_ERROR_DATA_INVALID; FP_DEVICE_ERROR_DATA_NOT_FOUND;
          FP_DEVICE_ERROR_DATA_FULL])
  ∧ NoDup [FP_DEVICE_ERROR_GENERAL; FP_DEVICE_ERROR_NOT_SUPPORTED;
           FP_DEVICE_ERROR_NOT_OPEN; FP_DEVICE_ERROR_ALREADY_OPEN;
           FP_DEVICE_ERROR_BUSY; FP_DEVICE_ERROR_PROTO;
           FP_DEVICE_ERROR_DATA_INVALID; FP_DEVICE_ERROR_DATA_NOT_FOUND;
           FP_DEVICE_ERROR_DATA_FULL]
  ∧ (∀ r : FpDeviceRetry,
       r ∈ [FP_DEVICE_RETRY_GENERAL; FP_DEVICE_RETRY_TOO_SHORT;
            FP_DEVICE_RETRY_CENTER_FINGER; FP_DEVICE_RETRY_REMOVE_FINGER])
  ∧ NoDup [FP_DEVICE_RETRY_GENERAL; FP_DEVICE_RETRY_TOO_SHORT;
           FP_DEVICE_RETRY_CENTER_FINGER; FP_DEVICE_RETRY_REMOVE_FINGER]
  ∧ (∀ err : GError, ¬ (in_retry_domain err ∧ in_error_domain err))
  ∧ (∀ e r, device_error e ≠ retry_error r).
Proof.
  split; [intros []; refine (bool_decide_unpack _ _); vm_compute; exact I|].
  split; [refine (bool_decide_unpack _ _); vm_compute; exact I|].
  split; [intros []; refine (bool_decide_unpack _ _); vm_compute; exact I|].
  split; [refine (bool_decide_unpack _ _); vm_compute; exact I|].
  split.
  - intros err [[r Hr] [e He]]. rewrite Hr in He. by destruct r, e.
  - intros e r. by destruct e, r.
Qed.

(** * Further properties *)

(** ** Loops that fail, loops that agree *)

Lemma for_range_ext {S : Type} (body1 body2 : Z → S → option S)
    (count : nat) (i : Z) (s : S) :
  (∀ j t, body1 j t = body2 j t) →
  for_range i count body1 s = for_range i count body2 s.
Proof.
  intros Hext. revert i s. induction count as [|c IH]; intros i s; [done|].
  simpl. rewrite Hext. destruct (body2 i s) as [s1|]; simpl; [apply IH | done].
Qed.

Lemma buf_load_beyond (d : list byte) (i : Z) :
  Z.of_nat (length d) <= i → buf_load d i = None.
Proof.
  intros Hi. unfold buf_load. rewrite bool_decide_true by lia.
  apply lookup_ge_None. lia.
Qed.

(** ** Quality metrics at the edges *)

Lemma fpi_mean_sq_diff_norm_swap (buf1 buf2 : list byte) (size : Z) :
  fpi_mean_sq_diff_norm buf1 buf2 size = fpi_mean_sq_diff_norm buf2 buf1 size.
Proof.
  unfold fpi_mean_sq_diff_norm, for_loop. f_equal.
  apply for_range_ext. intros j t.
  destruct (buf_load buf1 j) as [b1|], (buf_load buf2 j) as [b2|]; simpl;
    try done.
  pose proof (byte_val_range b1). pose proof (byte_val_range b2).
  rewrite (wrap_gint_id (byte_val b1 - byte_val b2)) by lia.
  rewrite (wrap_gint_id (byte_val b2 - byte_val b1)) by lia.
  replace ((byte_val b2 - byte_val b1) * (byte_val b2 - byte_val b1))
    with ((byte_val b1 - byte_val b2) * (byte_val b1 - byte_val b2)) by lia.
  done.
Qed.

(** X1. [fpi_mean_sq_diff_norm] does not depend on the order of its two
    buffers. *)
Theorem fpi_mean_sq_diff_norm_sym (buf1 buf2 : list byte) (size : Z) :
  fpi_mean_sq_diff_norm buf1 buf2 size = fpi_mean_sq_diff_norm buf2 buf1 size.
Proof. apply fpi_mean_sq_diff_norm_swap. Qed.

(** X2. On one and the same buffer [fpi_mean_sq_diff_norm] returns 0,
    whatever the size (at least 1 and within the buffer): the accumulator
    stays 0 and cannot overflow. *)
Theorem fpi_mean_sq_diff_norm_same (buf : list byte) (size : Z) :
  1 <= size <= Z.of_nat (length buf) →
  fpi_mean_sq_diff_norm buf buf size = Some 0.
Proof.
  intros Hsz. unfold fpi_mean_sq_diff_norm.
  match goal with
  | |- context [for_loop ?n ?b ?s] =>
      destruct (for_loop_inv (λ _ acc, acc = 0) b n s) as (r & Hr & HP)
  end.
  - done.
  - intros k t Hk ->.
    destruct (lookup_lt_is_Some_2 buf k) as [b Hb]; [lia|].
    rewrite !buf_load_lookup, Hb. simpl. eexists. split; [done|].
    rewrite Z.sub_diag. done.
  - rewrite Hr. simpl. subst r. unfold c_div.
    rewrite bool_decide_false by lia. simpl. by rewrite Z.quot_0_l by lia.
Qed.

Lemma fpi_mean_sq_diff_norm_same_witness :
  fpi_mean_sq_diff_norm sample_pixels sample_pixels 6 = Some 0.
Proof.
  apply fpi_mean_sq_diff_norm_same. simpl. lia.
Defined.

Lemma sum_sq_diff_constant (buf1 buf2 : list byte) (delta : Z) (n : nat) :
  (n <= length buf1)%nat → (n <= length buf2)%nat →
  (∀ k b1 b2, (k < n)%nat → buf1 !! k = Some b1 → buf2 !! k = Some b2 →
              byte_val b1 - byte_val b2 = delta) →
  sum_sq_diff (take n buf1) (take n buf2) = Z.of_nat n * (delta * delta).
Proof.
  induction n as [|n IH]; intros H1 H2 Hd.
  - rewrite !take_0. simpl. lia.
  - destruct (lookup_lt_is_Some_2 buf1 n) as [b1 Hb1]; [lia|].
    destruct (lookup_lt_is_Some_2 buf2 n) as [b2 Hb2]; [lia|].
    rewrite (take_S_r _ _ _ Hb1), (take_S_r _ _ _ Hb2).
    rewrite sum_sq_diff_snoc by (rewrite !length_take; lia).
    rewrite IH; [| lia | lia |].
    2:{ intros k c1 c2 Hk Hc1 Hc2. apply (Hd k c1 c2); [lia|done|done]. }
    rewrite (Hd n b1 b2) by (done || lia). lia.
Qed.

(** X3. For at most 33025 bytes (so that the [int] accumulator cannot
    overflow) [fpi_mean_sq_diff_norm] returns the truncated quotient of the
    sum of squared differences by the size, a value between 0 and 65025; if
    the two buffers differ by one constant at every byte, that is the
    square of the constant. *)
Theorem fpi_mean_sq_diff_norm_documented (buf1 buf2 : list byte) (size : Z) :
  1 <= size <= 33025 →
  size <= Z.of_nat (length buf1) → size <= Z.of_nat (length buf2) →
  fpi_mean_sq_diff_norm buf1 buf2 size
  = Some (mean_square_diff buf1 buf2 size)
  ∧ 0 <= mean_square_diff buf1 buf2 size <= 65025
  ∧ (∀ delta,
       (∀ k b1 b2, Z.of_nat k < size →
                   buf1 !! k = Some b1 → buf2 !! k = Some b2 →
                   byte_val b1 - byte_val b2 = delta) →
       fpi_mean_sq_diff_norm buf1 buf2 size = Some (delta * delta)).
Proof.
  intros Hsz H1 H2.
  pose proof (fpi_mean_sq_diff_norm_small buf1 buf2 size Hsz H1 H2) as Heq.
  split; [done|]. split.
  - unfold mean_square_diff.
    pose proof (sum_sq_diff_bound (take (Z.to_nat size) buf1)
                  (take (Z.to_nat size) buf2)) as Hs.
    rewrite length_take in Hs.
    rewrite Z.quot_div_nonneg by lia.
    split; [apply Z.div_pos; lia | apply Z.div_le_upper_bound; lia].
  - intros delta Hd. rewrite Heq. f_equal. unfold mean_square_diff.
    rewrite (sum_sq_diff_constant buf1 buf2 delta); [| lia | lia |].
    + rewrite Z2Nat.id by lia. rewrite Z.mul_comm. apply Z.quot_mul. lia.
    + intros k b1 b2 Hk. apply Hd. lia.
Qed.

Lemma fpi_mean_sq_diff_norm_documented_witness :
  fpi_mean_sq_diff_norm [Byte.x05; Byte.x07] [Byte.x02; Byte.x04] 2 = Some 9.
Proof.
  refine (proj2 (proj2 (fpi_mean_sq_diff_norm_documented
            [Byte.x05; Byte.x07] [Byte.x02; Byte.x04] 2 _ _ _)) 3 _).
  - lia.
  - simpl. lia.
  - simpl. lia.
  - intros [|[|k]] b1 b2 Hk Hb1 Hb2; simpl in *; simplify_eq; reflexivity.
Defined.

Lemma wrap_guint64_negative (size : Z) :
  - 2 ^ 31 <= size < 0 → wrap_guint64 size ≠ 0.
Proof.
  intros Hs. unfold wrap_guint64.
  replace size with (size + 2 ^ 64 + (-1) * 2 ^ 64) by lia.
  rewrite Z_mod_plus_full, Z.mod_small by lia. lia.
Qed.

(** X4. With size 0 both quality metrics divide by zero (no result); with a
    negative size neither reads its buffers, and both return 0. *)
Theorem quality_metrics_nonpositive_size (buf1 buf2 : list byte) (size : Z) :
  - 2 ^ 31 <= size <= 0 →
  fpi_std_sq_dev buf1 size = (if bool_decide (size = 0) then None else Some 0)
  ∧ fpi_mean_sq_diff_norm buf1 buf2 size
    = (if bool_decide (size = 0) then None else Some 0).
Proof.
  intros Hs.
  unfold fpi_std_sq_dev, fpi_std_sq_dev_mean, fpi_mean_sq_diff_norm, for_loop.
  replace (Z.to_nat size) with O by lia. simpl.
  destruct (decide (size = 0)) as [->|Hne].
  - rewrite bool_decide_true by done. by vm_compute.
  - rewrite (bool_decide_false (size = 0)) by done.
    pose proof (wrap_guint64_negative size ltac:(lia)) as Hw.
    unfold c_div. rewrite !(bool_decide_false (wrap_guint64 size = 0)) by done.
    simpl. rewrite (Z.quot_0_l (wrap_guint64 size)) by done. simpl.
    rewrite (bool_decide_false (size = 0)) by done. simpl.
    rewrite (Z.quot_0_l size) by done. done.
Qed.

Lemma quality_metrics_nonpositive_size_witness :
  fpi_std_sq_dev sample_pixels (-1) = Some 0
  ∧ fpi_mean_sq_diff_norm sample_pixels sample_pixels (-1) = Some 0.
Proof.
  apply (quality_metrics_nonpositive_size sample_pixels sample_pixels (-1)).
  lia.
Defined.

(** X5. A size beyond the end of a buffer makes the quality metrics read
    outside the buffer: there is no result. *)
Theorem quality_metrics_out_of_bounds (buf1 buf2 : list byte) (size : Z) :
  Z.of_nat (length buf1) < size →
  fpi_std_sq_dev buf1 size = None
  ∧ fpi_mean_sq_diff_norm buf1 buf2 size = None
  ∧ fpi_mean_sq_diff_norm buf2 buf1 size = None.
Proof.
  intros Hs.
  assert (fpi_mean_sq_diff_norm buf1 buf2 size = None) as Hm.
  { unfold fpi_mean_sq_diff_norm, for_loop.
    rewrite (for_range_fail _ _ (length buf1)); [done | lia |].
    intros t. rewrite (buf_load_beyond buf1) by lia. done. }
  split; [|split; [done | by rewrite fpi_mean_sq_diff_norm_swap]].
  unfold fpi_std_sq_dev, fpi_std_sq_dev_mean, for_loop.
  rewrite (for_range_fail _ _ (length buf1)); [done | lia |].
  intros t. rewrite (buf_load_beyond buf1) by lia. done.
Qed.

Lemma quality_metrics_out_of_bounds_witness :
  fpi_std_sq_dev sample_pixels 7 = None.
Proof.
  apply (quality_metrics_out_of_bounds sample_pixels sample_pixels 7).
  simpl. lia.
Defined.

(** The sum of squared deviations from [m], bounded through [b * b <= 255 * b]. *)
Lemma sum_sq_dev_upper (m : Z) (l : list byte) :
  sum_sq_dev m l
  <= (255 - 2 * m) * sum_bytes l + Z.of_nat (length l) * (m * m).
Proof.
  unfold sum_sq_dev, sum_bytes. induction l as [|b l IH]; [simpl; lia|].
  rewrite length_cons, Nat2Z.inj_succ. simpl foldr.
  pose proof (byte_val_range b).
  assert (byte_val b * byte_val b <= 255 * byte_val b) by nia.
  nia.
Qed.

(** X6. The squared deviation [fpi_std_sq_dev] returns lies between 0 and
    16256, the value of the buffer [0,0,255,255]. *)
Theorem fpi_std_sq_dev_range (buf : list byte) (size : Z) :
  size = Z.of_nat (length buf) → 1 <= size <= G_MAXINT →
  ∃ v, fpi_std_sq_dev buf size = Some v ∧ 0 <= v <= 16256.
Proof.
  intros Hsz Hrange. exists (squared_deviation buf).
  split; [by apply fpi_std_sq_dev_eq|].
  unfold squared_deviation. rewrite <- Hsz.
  destruct Hrange as [Hlo _].
  pose proof (mean_range buf size Hsz Hlo) as Hm.
  pose proof (sum_bytes_bound buf) as HS. rewrite <- Hsz in HS.
  rewrite (Z.quot_div_nonneg (sum_bytes buf)) in * by lia.
  set (m := sum_bytes buf / size) in *.
  pose proof (sum_sq_dev_bound m buf Hm) as Hnn.
  pose proof (sum_sq_dev_upper m buf) as Hup. rewrite <- Hsz in Hup.
  pose proof (Z.div_mod (sum_bytes buf) size ltac:(lia)) as Hdm.
  pose proof (Z.mod_pos_bound (sum_bytes buf) size ltac:(lia)) as Hr.
  fold m in Hdm. set (r := sum_bytes buf mod size) in *.
  rewrite Z.quot_div_nonneg by lia.
  split; [apply Z.div_pos; lia|].
  assert (sum_sq_dev m buf < size * 16257) as Hlt.
  { rewrite Hdm in Hup.
    assert ((255 - 2 * m) * (size * m + r) + size * (m * m)
            = size * (m * (255 - m)) + r * (255 - 2 * m)) as Hexp by ring.
    rewrite Hexp in Hup.
    destruct (decide (m <= 127)) as [Hle|Hgt].
    - assert (0 <= (m - 126) * (m - 127)) as Hq.
      { destruct (decide (m <= 126)); [|replace m with 127 by lia; lia].
        apply Z.mul_nonpos_nonpos; lia. }
      assert (r * (255 - 2 * m) <= (size - 1) * (255 - 2 * m))
        by (apply Z.mul_le_mono_nonneg_r; lia).
      nia.
    - assert (0 <= (m - 127) * (m - 128)) as Hq
        by (apply Z.mul_nonneg_nonneg; lia).
      assert (r * (255 - 2 * m) <= 0) by (apply Z.mul_nonneg_nonpos; lia).
      nia. }
  assert (sum_sq_dev m buf / size < 16257)
    by (apply Z.div_lt_upper_bound; lia).
  lia.
Qed.

Lemma fpi_std_sq_dev_range_witness :
  ∃ v, fpi_std_sq_dev [Byte.x00; Byte.x00; Byte.xff; Byte.xff] 4 = Some v
       ∧ 0 <= v <= 16256.
Proof.
  apply fpi_std_sq_dev_range.
  - reflexivity.
  - unfold G_MAXINT. lia.
Defined.

(** ** Normalization operations *)

(** X7. A flip or an inversion that completes leaves the buffer with the
    length it had. *)
Theorem normalization_keeps_length (data d' : list byte) (W H : Z) :
  hflip data W H = Some d' ∨ vflip data W H = Some d'
  ∨ invert_colors data W H = Some d' →
  length d' = length data.
Proof.
  intros [Hf|[Hf|Hf]].
  - by eapply hflip_length.
  - by eapply vflip_length.
  - by eapply invert_colors_length.
Qed.

Lemma normalization_keeps_length_witness :
  length [Byte.x03; Byte.x02; Byte.x01; Byte.x06; Byte.x05; Byte.x04]
  = length sample_pixels.
Proof.
  apply (normalization_keeps_length sample_pixels _ 3 2).
  left. reflexivity.
Defined.

Lemma invert_byte_involutive (b : byte) : invert_byte (invert_byte b) = b.
Proof.
  apply byte_val_inj. rewrite !invert_byte_val. lia.
Qed.

(** X8. Inverting the colours of a buffer of [W * H] bytes twice gives the
    buffer back. *)
Theorem invert_colors_involutive (data : list byte) (W H : Z) :
  W * H = Z.of_nat (length data) → W * H <= G_MAXINT →
  (d ← invert_colors data W H; invert_colors d W H) = Some data.
Proof.
  intros Hlen Hmax. rewrite invert_colors_map by done. simpl.
  rewrite invert_colors_map by (rewrite ?length_fmap; done).
  f_equal. rewrite <- list_fmap_compose.
  rewrite <- (list_fmap_id data) at 2. apply list_fmap_ext.
  intros i b _. apply invert_byte_involutive.
Qed.

Lemma invert_colors_involutive_witness :
  (d ← invert_colors sample_pixels 3 2; invert_colors d 3 2)
  = Some sample_pixels.
Proof.
  apply invert_colors_involutive.
  - reflexivity.
  - unfold G_MAXINT. lia.
Defined.

Lemma reverse_concat_rows (rows : list (list byte)) :
  reverse (concat rows) = concat (reverse (reverse <$> rows)).
Proof.
  induction rows as [|r rows IH]; [done|].
  rewrite fmap_cons, reverse_cons, concat_app. simpl.
  rewrite reverse_app, IH, app_nil_r. done.
Qed.

(** X9. On a buffer of [H] rows of [W] bytes the two flips commute, and
    one after the other they reverse the whole buffer (the image turned by
    180 degrees). *)
Theorem flips_compose (W H : Z) (data : list byte) :
  0 <= W → 0 <= H <= G_MAXINT → W * H <= G_MAXINT →
  Z.of_nat (length data) = W * H →
  (d ← hflip data W H; vflip d W H) = Some (reverse data)
  ∧ (d ← vflip data W H; hflip d W H) = Some (reverse data).
Proof.
  intros HW [HH HHmax] Hmax Hlen.
  assert (length data = (Z.to_nat W * Z.to_nat H)%nat) as Hlen' by nia.
  pose proof (rows_of_width _ _ _ Hlen') as Hrows.
  pose proof (rows_of_length (Z.to_nat W) (Z.to_nat H) data) as Hcount.
  pose proof (rows_of_concat _ _ _ Hlen') as Hcat.
  set (rows := rows_of (Z.to_nat W) (Z.to_nat H) data) in *.
  assert (Z.of_nat (Z.to_nat W) * Z.of_nat (length rows) <= G_MAXINT)
    as Hmax' by (rewrite Hcount, !Z2Nat.id by done; done).
  assert (Z.of_nat (length rows) <= G_MAXINT)
    as HHmax' by (rewrite Hcount, Z2Nat.id by done; done).
  replace W with (Z.of_nat (Z.to_nat W)) by lia.
  replace H with (Z.of_nat (length rows)) by lia.
  rewrite <- Hcat, reverse_concat_rows. split.
  - rewrite hflip_rows by done. simpl.
    pose proof (vflip_rows (Z.to_nat W) (reverse <$> rows)
                  (hflip_rows_width _ _ Hrows)) as Hf.
    rewrite length_fmap in Hf. by rewrite Hf.
  - rewrite vflip_rows by done. simpl.
    pose proof (hflip_rows (Z.to_nat W) (reverse rows)) as Hf.
    rewrite length_reverse in Hf. rewrite Hf; try done.
    + by rewrite fmap_reverse.
    + by apply Forall_reverse.
Qed.

Lemma flips_compose_witness :
  (d ← hflip sample_pixels 3 2; vflip d 3 2) = Some (reverse sample_pixels)
  ∧ (d ← vflip sample_pixels 3 2; hflip d 3 2) = Some (reverse sample_pixels).
Proof.
  apply flips_compose.
  - lia.
  - unfold G_MAXINT. lia.
  - unfold G_MAXINT. lia.
  - reflexivity.
Defined.

(** Bytes after the end of a buffer do not change what the buffer accesses
    do within it. *)
Lemma buf_load_app_l (d tail : list byte) (i : Z) (v : byte) :
  buf_load d i = Some v → buf_load (d ++ tail) i = Some v.
Proof.
  unfold buf_load. case_bool_decide; [|done].
  intros Hl. by apply lookup_app_l_Some.
Qed.

Lemma buf_store_app_l (d d' tail : list byte) (i : Z) (v : byte) :
  buf_store d i v = Some d' → buf_store (d ++ tail) i v = Some (d' ++ tail).
Proof.
  unfold buf_store. case_bool_decide as Hi; [|done].
  intros [= <-]. rewrite bool_decide_true by (rewrite length_app; lia).
  f_equal. apply insert_app_l. lia.
Qed.

Lemma memcpy_load_app_l (d tail x : list byte) (off n : Z) :
  memcpy_load d off n = Some x → memcpy_load (d ++ tail) off n = Some x.
Proof.
  unfold memcpy_load. case_bool_decide as Hi; [|done].
  intros [= <-]. rewrite bool_decide_true by (rewrite length_app; lia).
  f_equal. rewrite drop_app_le by lia. apply take_app_le.
  rewrite length_drop. lia.
Qed.

Lemma memcpy_store_app_l (d d' tail src : list byte) (off : Z) :
  memcpy_store d off src = Some d' →
  memcpy_store (d ++ tail) off src = Some (d' ++ tail).
Proof.
  unfold memcpy_store. case_bool_decide as Hi; [|done].
  intros [= <-]. rewrite bool_decide_true by (rewrite length_app; lia).
  f_equal. rewrite take_app_le by lia. rewrite drop_app_le by lia.
  by rewrite <- !app_assoc.
Qed.

Lemma for_range_app_l (body : Z → list byte → option (list byte))
    (tail : list byte) (count : nat) (i : Z) (d d' : list byte) :
  (∀ j t t', body j t = Some t' → body j (t ++ tail) = Some (t' ++ tail)) →
  for_range i count body d = Some d' →
  for_range i count body (d ++ tail) = Some (d' ++ tail).
Proof.
  intros Hb. revert i d. induction count as [|c IH]; intros i d Hrun.
  - simpl in *. by simplify_eq.
  - simpl in *. apply bind_Some in Hrun as (d1 & H1 & Hrun).
    rewrite (Hb _ _ _ H1). simpl. by apply IH.
Qed.

(** X10. The flips and the inversion work on the first [W * H] bytes only:
    run on a longer buffer, an operation that completes on [data] gives the
    same result followed by the rest of the buffer, untouched. *)
Theorem normalization_exact_extent (data tail d' : list byte) (W H : Z) :
  (hflip data W H = Some d' → hflip (data ++ tail) W H = Some (d' ++ tail))
  ∧ (vflip data W H = Some d' → vflip (data ++ tail) W H = Some (d' ++ tail))
  ∧ (invert_colors data W H = Some d' →
     invert_colors (data ++ tail) W H = Some (d' ++ tail)).
Proof.
  split; [|split].
  - unfold hflip, for_loop. apply for_range_app_l.
    intros j t t' Hb.
    apply bind_Some in Hb as (rowbuf & Hl & Hb).
    rewrite (memcpy_load_app_l _ _ _ _ _ Hl). simpl.
    revert Hb. apply for_range_app_l.
    intros k u u' Hs.
    apply bind_Some in Hs as (v & Hv & Hs).
    rewrite Hv. simpl. by apply buf_store_app_l.
  - unfold vflip, for_loop. apply for_range_app_l.
    intros j t t' Hb.
    apply bind_Some in Hb as (rowbuf & Hl1 & Hb).
    apply bind_Some in Hb as (lower & Hl2 & Hb).
    apply bind_Some in Hb as (t1 & Hs1 & Hs2).
    rewrite (memcpy_load_app_l _ _ _ _ _ Hl1). simpl.
    rewrite (memcpy_load_app_l _ _ _ _ _ Hl2). simpl.
    rewrite (memcpy_store_app_l _ _ _ _ _ Hs1). simpl.
    by apply memcpy_store_app_l.
  - unfold invert_colors, for_loop. apply for_range_app_l.
    intros j t t' Hb.
    apply bind_Some in Hb as (v & Hv & Hs).
    rewrite (buf_load_app_l _ _ _ _ Hv). simpl. by apply buf_store_app_l.
Qed.

(** X11. [vflip] leaves an image of at most one row alone, and [hflip] an
    image of one column. *)
Theorem flips_degenerate (data : list byte) (W H : Z) :
  (H <= 1 → vflip data W H = Some data)
  ∧ (W = 1 → 0 <= H <= G_MAXINT → Z.of_nat (length data) = H →
     hflip data W H = Some data).
Proof.
  split.
  - intros HH. unfold vflip, for_loop.
    replace (Z.to_nat (H ÷ 2)) with O; [done|].
    assert (H ÷ 2 <= 0); [|lia].
    destruct (decide (H <= 0)).
    + apply Z.quot_le_upper_bound; lia.
    + replace H with 1 by lia. done.
  - intros -> HH Hlen. rewrite hflip_buffer by lia.
    f_equal. change (Z.to_nat 1) with 1%nat.
    assert (length data = (1 * Z.to_nat H)%nat) as Hlen' by lia.
    rewrite <- (rows_of_concat 1 (Z.to_nat H) data Hlen') at 2.
    f_equal. pose proof (rows_of_width _ _ _ Hlen') as Hr.
    induction Hr as [|r rows Hr1 _ IH]; [done|].
    rewrite fmap_cons, IH. f_equal.
    destruct r as [|x [|y r]]; simpl in Hr1; try lia. done.
Qed.

(** ** Release of blocks *)

Lemma g_free_comm (h : gmap positive (list byte)) (a b : option positive) :
  g_free (g_free h a) b = g_free (g_free h b) a.
Proof. destruct a, b; simpl; try done. apply delete_delete. Qed.

Lemma lookup_g_free_None (h : gmap positive (list byte))
    (p : option positive) (l : positive) :
  h !! l = None → g_free h p !! l = None.
Proof.
  destruct p as [l'|]; simpl; [|done].
  intros Hl. apply lookup_delete_None. by right.
Qed.

Lemma lookup_g_free_twice (h : gmap positive (list byte))
    (a b : option positive) (l : positive) :
  a = Some l ∨ b = Some l → g_free (g_free h a) b !! l = None.
Proof.
  intros [->| ->].
  - apply lookup_g_free_None, lookup_g_free_eq.
  - apply lookup_g_free_eq.
Qed.

Section PipelineExtras.

Variables FPI_IMAGE_V_FLIPPED FPI_IMAGE_H_FLIPPED FPI_IMAGE_COLORS_INVERTED : Z.
Variable get_minutiae : list byte → Z → Z → Z → gdouble → lfs_result.

Local Abbreviation norm :=
  (normalize FPI_IMAGE_V_FLIPPED FPI_IMAGE_H_FLIPPED FPI_IMAGE_COLORS_INVERTED).
Local Abbreviation norm_pixels :=
  (normalize_pixels FPI_IMAGE_V_FLIPPED FPI_IMAGE_H_FLIPPED
     FPI_IMAGE_COLORS_INVERTED).
Local Abbreviation thread_func :=
  (fp_image_detect_minutiae_thread_func FPI_IMAGE_V_FLIPPED
     FPI_IMAGE_H_FLIPPED FPI_IMAGE_COLORS_INVERTED get_minutiae).
Local Abbreviation run :=
  (detect_minutiae_run FPI_IMAGE_V_FLIPPED FPI_IMAGE_H_FLIPPED
     FPI_IMAGE_COLORS_INVERTED get_minutiae).
Local Abbreviation cleared fl :=
  (Z.land fl
     (Z.lnot (Z.lor (Z.lor FPI_IMAGE_H_FLIPPED FPI_IMAGE_V_FLIPPED)
                FPI_IMAGE_COLORS_INVERTED))).

Lemma flag_set_cleared (fl m : Z) :
  (∀ n, 0 <= n → Z.testbit m n = true →
        Z.testbit (Z.lor (Z.lor FPI_IMAGE_H_FLIPPED FPI_IMAGE_V_FLIPPED)
                     FPI_IMAGE_COLORS_INVERTED) n = true) →
  flag_set (cleared fl) m = false.
Proof.
  intros Hm. unfold flag_set. rewrite flags_cleared by done.
  apply bool_decide_eq_false. intros Hne. by apply Hne.
Qed.

(** X12. Normalization is idempotent: run again on the heap and work item
    it has left, it finds the three flags cleared and changes nothing. *)
Theorem normalize_idempotent (h h' : gmap positive (list byte))
    (data data' : DetectMinutiaeData.t) :
  norm h data = Some (h', data') → norm h' data' = Some (h', data').
Proof.
  intros Hn. apply normalize_inv in Hn as (-> & _).
  unfold normalize. simpl.
  rewrite !flag_set_cleared.
  - simpl. do 3 f_equal. rewrite <- Z.land_assoc. f_equal. apply Z.land_diag.
  - intros n Hn Hb. rewrite !Z.lor_spec, Hb. by rewrite ?orb_true_r.
  - intros n Hn Hb. rewrite !Z.lor_spec, Hb. by rewrite ?orb_true_r.
  - intros n Hn Hb. rewrite !Z.lor_spec, Hb. by rewrite ?orb_true_r.
Qed.

(** A completed extraction keeps what [fp_image_finalize] would leave of
    the heap: the blocks it allocates are released or owned by the image,
    and the blocks it releases were the image's. *)
Lemma detect_minutiae_run_finalize (s s' : state) (cancellable : option bool)
    (callback : option positive) (task : GTask) :
  image_wf s →
  run s cancellable callback = Some (s', task) →
  fp_image_finalize s' = fp_image_finalize s.
Proof.
  intros Hwf Hrun.
  destruct (fp_image_detect_minutiae_spec s cancellable callback Hwf)
    as (p & d & Hd & Hlen & Hfresh & Hnull & Hdisp).
  unfold detect_minutiae_run in Hrun. rewrite Hdisp in Hrun. simpl in Hrun.
  apply bind_Some in Hrun as ([task1 h4] & Ht & Hrun).
  apply thread_func_inv in Ht
    as (h3 & pixels & Hpix & Hfr3 & Hdom3 & Hlen3 & Hh4 & ->).
  simpl in *.
  destruct (bdata_alloc h3 _) as [h4' bptr] eqn:Hb. simpl in *. subst h4.
  pose proof (heap_released _ _ _ _ _ _ _ Hfresh Hfr3 Hdom3 Hb) as Hrel.
  unfold fp_image_detect_minutiae_cb in Hrun. simpl in Hrun.
  destruct (not_cancelled cancellable) eqn:Hc.
  - unfold commit_minutiae in Hrun. simpl in Hrun.
    destruct (lfs_minutiae _) as [m|] eqn:Hm; simpl in Hrun; [|done].
    simplify_eq. unfold fp_image_finalize, fp_image_detect_minutiae_free.
    simpl.
    rewrite (g_free_comm _ (FpImage.binarized (st_image s)) p).
    rewrite (g_free_comm _ (FpImage.data (st_image s)) p).
    rewrite (g_free_comm _ (FpImage.binarized (st_image s)) bptr).
    rewrite (g_free_comm _ (FpImage.data (st_image s)) bptr).
    by rewrite Hrel.
  - simpl in Hrun. simplify_eq.
    unfold fp_image_finalize, fp_image_detect_minutiae_free. simpl.
    by rewrite Hrel.
Qed.

(** X13. An extraction that completes calls the user callback exactly once
    (not at all if it is NULL), whether it was cancelled or not. *)
Theorem user_callback_called_once (s s' : state) (cancellable : option bool)
    (callback : option positive) (task : GTask) :
  image_wf s →
  run s cancellable callback = Some (s', task) →
  st_calls s' = st_calls s ++ user_cb_calls callback
  ∧ length (st_calls s')
    = (length (st_calls s) + match callback with
                             | Some _ => 1
                             | None => 0
                             end)%nat.
Proof.
  intros Hwf Hrun.
  destruct (detect_minutiae_run_inv _ _ _ _ _ _ _ _ _ Hwf Hrun) as (Hc & _).
  split; [done|]. rewrite Hc, length_app. by destruct callback.
Qed.

(** X14. The extraction of a well-formed image (sizes within [gint]) that
    is not cancelled and whose extraction function stores minutiae
    completes, and commits: the image keeps its dimensions and resolution,
    has the three flags cleared, the normalized pixels as its raw buffer,
    the minutiae and the binarized buffer the function stored; its former
    buffers are released; the task result is the error with the status if
    the status is not 0, [TRUE] otherwise. *)
Theorem detect_minutiae_commits (s : state) (cancellable : option bool)
    (callback : option positive) (d : list byte) (m : list FpMinutia) :
  image_wf s →
  FpImage.width (st_image s) * FpImage.height (st_image s) <= G_MAXINT →
  not_cancelled cancellable = true →
  deref (st_heap s) (FpImage.data (st_image s)) = Some d →
  lfs_minutiae
    (get_minutiae
       (norm_pixels (FpImage.flags (st_image s))
          (Z.to_nat (FpImage.width (st_image s)))
          (Z.to_nat (FpImage.height (st_image s))) d)
       (FpImage.width (st_image s)) (FpImage.height (st_image s)) 8
       (FpImage.ppmm (st_image s))) = Some m →
  ∃ s' task,
    run s cancellable callback = Some (s', task)
    ∧ FpImage.width (st_image s') = FpImage.width (st_image s)
    ∧ FpImage.height (st_image s') = FpImage.height (st_image s)
    ∧ FpImage.ppmm (st_image s') = FpImage.ppmm (st_image s)
    ∧ FpImage.flags (st_image s') = cleared (FpImage.flags (st_image s))
    ∧ deref (st_heap s') (FpImage.data (st_image s'))
      = Some (norm_pixels (FpImage.flags (st_image s))
                (Z.to_nat (FpImage.width (st_image s)))
                (Z.to_nat (FpImage.height (st_image s))) d)
    ∧ FpImage.minutiae (st_image s') = Some m
    ∧ match lfs_bdata
              (get_minutiae
                 (norm_pixels (FpImage.flags (st_image s))
                    (Z.to_nat (FpImage.width (st_image s)))
                    (Z.to_nat (FpImage.height (st_image s))) d)
                 (FpImage.width (st_image s)) (FpImage.height (st_image s)) 8
                 (FpImage.ppmm (st_image s))) with
      | Some b => ∃ l, FpImage.binarized (st_image s') = Some l
                       ∧ st_heap s' !! l = Some b
      | None => FpImage.binarized (st_image s') = None
      end
    ∧ task_result task
      = Some (let status :=
                lfs_status
                  (get_minutiae
                     (norm_pixels (FpImage.flags (st_image s))
                        (Z.to_nat (FpImage.width (st_image s)))
                        (Z.to_nat (FpImage.height (st_image s))) d)
                     (FpImage.width (st_image s))
                     (FpImage.height (st_image s)) 8
                     (FpImage.ppmm (st_image s))) in
              if bool_decide (status ≠ 0)
              then TaskError status else TaskBoolean true)
    ∧ (∀ l, FpImage.data (st_image s) = Some l
            ∨ FpImage.binarized (st_image s) = Some l →
            st_heap s' !! l = None).
Proof.
  intros Hwf Hmax Hc Hd0 Hm.
  destruct (fp_image_detect_minutiae_spec s cancellable callback Hwf)
    as (p & d' & Hd & Hlen & Hfresh & Hnull & Hdisp).
  assert (d' = d) as -> by congruence.
  destruct Hwf as (HW & HH & _ & Hbin).
  unfold G_MAXUINT16 in HW, HH.
  destruct (normalize_run FPI_IMAGE_V_FLIPPED FPI_IMAGE_H_FLIPPED
              FPI_IMAGE_COLORS_INVERTED (snapshot_heap (st_heap s) p d)
              (DetectMinutiaeData.mk callback None
                 (FpImage.width (st_image s)) (FpImage.height (st_image s))
                 (FpImage.ppmm (st_image s)) (FpImage.flags (st_image s))
                 p None) d)
    as (h3 & Hn & Hd3 & Hfr3 & Hdom3); simpl; try done.
  { lia. }
  { unfold G_MAXINT. lia. }
  { by apply snapshot_heap_deref. }
  simpl in Hn, Hd3, Hfr3.
  unfold detect_minutiae_run. rewrite Hdisp. simpl.
  unfold fp_image_detect_minutiae_thread_func. simpl.
  rewrite Hn. simpl. rewrite Hd3. simpl.
  set (pixels := normalize_pixels _ _ _ _ _ _ d) in *.
  set (r := get_minutiae pixels _ _ _ _) in *.
  destruct (bdata_alloc h3 (lfs_bdata r)) as [h4 bptr] eqn:Hb. simpl.
  unfold fp_image_detect_minutiae_cb. simpl. rewrite Hc. simpl.
  unfold commit_minutiae. simpl. rewrite Hm. simpl.
  eexists _, _. split; [reflexivity|]. simpl.
  unfold fp_image_detect_minutiae_free. simpl.
  assert (∀ l, h3 !! l = None → FpImage.data (st_image s) ≠ Some l) as Hnd.
  { intros l Hl Heq. rewrite Heq in Hd0. simpl in Hd0.
    apply (snapshot_heap_none _ _ _ _ _ Hdom3) in Hl. congruence. }
  assert (∀ l, h3 !! l = None → FpImage.binarized (st_image s) ≠ Some l)
    as Hnb.
  { intros l Hl Heq. destruct (Hbin l Heq) as [x Hx].
    apply (snapshot_heap_none _ _ _ _ _ Hdom3) in Hl. congruence. }
  repeat (split; [done|]).
  split; [|split; [done|split; [|split; [done|]]]].
  - destruct p as [l0|]; [|done]. simpl in *.
    assert (FpImage.data (st_image s) ≠ Some l0) as Hn1.
    { intros Heq. rewrite Heq in Hd0. simpl in Hd0.
      rewrite (Hfresh l0 eq_refl) in Hd0. done. }
    assert (FpImage.binarized (st_image s) ≠ Some l0) as Hn2.
    { intros Heq. destruct (Hbin l0 Heq) as [x Hx].
      rewrite (Hfresh l0 eq_refl) in Hx. done. }
    rewrite !lookup_g_free_ne by done.
    apply bdata_alloc_spec in Hb
      as [(_ & -> & ->)|(b & l1 & _ & -> & Hl1 & ->)]; [done|].
    rewrite lookup_insert_ne; [done | congruence].
  - apply bdata_alloc_spec in Hb
      as [(-> & _ & ->)|(b & l1 & -> & -> & Hl1 & ->)]; [done|].
    exists l1. split; [done|].
    rewrite !lookup_g_free_ne by eauto. apply lookup_insert_eq.
  - intros l Hl. by apply lookup_g_free_twice.
Qed.

(** X15. The extraction of a well-formed image (sizes within [gint]) that
    is not cancelled and whose extraction function stores no minutiae, as
    on failure, has no result; the snapshot and the worker complete, and it
    is the completion callback that has none (it reads [num] through the
    NULL pointer). *)
Theorem detect_minutiae_null_minutiae (s : state) (cancellable : option bool)
    (callback : option positive) :
  image_wf s →
  FpImage.width (st_image s) * FpImage.height (st_image s) <= G_MAXINT →
  not_cancelled cancellable = true →
  (∀ pixels w h depth ppmm,
     lfs_minutiae (get_minutiae pixels w h depth ppmm) = None) →
  run s cancellable callback = None
  ∧ ∃ s1 task task' h',
      fp_image_detect_minutiae s cancellable callback = Some (s1, task)
      ∧ thread_func task (st_heap s1) = Some (task', h')
      ∧ fp_image_detect_minutiae_cb
          {| st_heap := h'; st_image := st_image s1;
             st_calls := st_calls s1 |} task' = None.
Proof.
  intros Hwf Hmax Hc Hfail. split.
  { apply detect_minutiae_run_failed; [done | done |]. intros. apply Hfail. }
  destruct (fp_image_detect_minutiae_spec s cancellable callback Hwf)
    as (p & d & Hd & Hlen & Hfresh & Hnull & Hdisp).
  destruct Hwf as (HW & HH & _ & Hbin).
  unfold G_MAXUINT16 in HW, HH.
  destruct (normalize_run FPI_IMAGE_V_FLIPPED FPI_IMAGE_H_FLIPPED
              FPI_IMAGE_COLORS_INVERTED (snapshot_heap (st_heap s) p d)
              (DetectMinutiaeData.mk callback None
                 (FpImage.width (st_image s)) (FpImage.height (st_image s))
                 (FpImage.ppmm (st_image s)) (FpImage.flags (st_image s))
                 p None) d)
    as (h3 & Hn & Hd3 & _); simpl; try done.
  { lia. }
  { unfold G_MAXINT. lia. }
  { by apply snapshot_heap_deref. }
  simpl in Hn, Hd3.
  destruct (bdata_alloc h3
              (lfs_bdata
                 (get_minutiae
                    (norm_pixels (FpImage.flags (st_image s))
                       (Z.to_nat (FpImage.width (st_image s)))
                       (Z.to_nat (FpImage.height (st_image s))) d)
                    (FpImage.width (st_image s))
                    (FpImage.height (st_image s)) 8
                    (FpImage.ppmm (st_image s))))) as [h4 bptr] eqn:Hb.
  eexists _, _, _, _. split; [exact Hdisp|]. simpl.
  unfold fp_image_detect_minutiae_thread_func. simpl.
  rewrite Hn. simpl. rewrite Hd3. simpl. rewrite Hb. simpl.
  split; [reflexivity|].
  unfold fp_image_detect_minutiae_cb. simpl. rewrite Hc. simpl.
  unfold commit_minutiae. simpl. by rewrite Hfail.
Qed.

End PipelineExtras.

(** ** Creation, release and accessors *)

Lemma fp_image_constructed_finalize (s : state) :
  FpImage.binarized (st_image s) = None →
  fp_image_finalize (fp_image_constructed s) = st_heap s.
Proof.
  intros Hbin. unfold fp_image_finalize, fp_image_constructed, g_malloc0.
  case_bool_decide; simpl; rewrite Hbin; simpl; [done|].
  apply delete_insert_id, not_elem_of_dom, is_fresh.
Qed.

Lemma fp_image_constructed_frame (s : state) (l : positive) :
  st_heap s !! l ≠ None →
  st_heap (fp_image_constructed s) !! l = st_heap s !! l.
Proof.
  intros Hl. unfold fp_image_constructed, g_malloc0.
  case_bool_decide; simpl; [done|].
  apply lookup_insert_ne. intros Heq. apply Hl. rewrite <- Heq.
  apply not_elem_of_dom, is_fresh.
Qed.

Lemma fp_image_constructed_fields (s : state) :
  let s' := fp_image_constructed s in
  FpImage.width (st_image s') = FpImage.width (st_image s)
  ∧ FpImage.height (st_image s') = FpImage.height (st_image s)
  ∧ FpImage.flags (st_image s') = FpImage.flags (st_image s)
  ∧ FpImage.binarized (st_image s') = FpImage.binarized (st_image s)
  ∧ FpImage.minutiae (st_image s') = FpImage.minutiae (st_image s)
  ∧ st_calls s' = st_calls s.
Proof. unfold fp_image_constructed. by destruct (g_malloc0 _ _). Qed.

Section CreationExtras.

Variable g_param_value_validate : GParamSpecUInt → Z → option Z.

Local Abbreviation new_image := (fp_image_new g_param_value_validate).

(** X16. [fp_image_new] makes the width and the height the values GObject
    accepts for them, 0 where it refuses one; the image has no flags, no
    binarized buffer and no minutiae, the blocks of the heap are as before,
    and releasing the image at once gives the heap back. *)
Theorem fp_image_new_fields (h : gmap positive (list byte)) (width height : Z)
    (pw ph : GParamSpecUInt) :
  properties PROP_WIDTH = Some pw → properties PROP_HEIGHT = Some ph →
  let s := new_image h width height in
  FpImage.width (st_image s)
  = default 0 (g_param_value_validate pw (wrap_guint width))
  ∧ FpImage.height (st_image s)
    = default 0 (g_param_value_validate ph (wrap_guint height))
  ∧ FpImage.flags (st_image s) = 0
  ∧ FpImage.binarized (st_image s) = None
  ∧ FpImage.minutiae (st_image s) = None
  ∧ st_calls s = []
  ∧ (∀ l, h !! l ≠ None → st_heap s !! l = h !! l)
  ∧ fp_image_finalize s = h.
Proof.
  intros Hpw Hph. simpl in Hpw, Hph. simplify_eq.
  unfold fp_image_new.
  set (self := g_object_construct_property _
                 (g_object_construct_property _ fp_image_init _ _) _ _).
  set (s0 := {| st_heap := h; st_image := self; st_calls := [] |}).
  destruct (fp_image_constructed_fields s0) as (Ew & Eh & Ef & Eb & Em & Ec).
  rewrite Ew, Eh, Ef, Eb, Em, Ec.
  assert (FpImage.binarized self = None) as Hbin.
  { subst self. unfold g_object_construct_property. simpl.
    by repeat destruct (g_param_value_validate _ _). }
  split; [|split; [|split; [|split; [done|split; [|split; [done|split]]]]]].
  - subst s0 self. unfold g_object_construct_property. simpl.
    by repeat destruct (g_param_value_validate _ _).
  - subst s0 self. unfold g_object_construct_property. simpl.
    by repeat destruct (g_param_value_validate _ _).
  - subst s0 self. unfold g_object_construct_property. simpl.
    by repeat destruct (g_param_value_validate _ _).
  - subst s0 self. unfold g_object_construct_property. simpl.
    by repeat destruct (g_param_value_validate _ _).
  - intros l Hl. by apply (fp_image_constructed_frame s0).
  - by apply (fp_image_constructed_finalize s0).
Qed.

(** What is relied upon of GObject, as for the dimensions. *)
Hypothesis g_param_value_validate_range :
  ∀ pspec v v',
    g_param_value_validate pspec v = Some v' →
    minimum pspec <= v' <= maximum pspec.

Variables FPI_IMAGE_V_FLIPPED FPI_IMAGE_H_FLIPPED FPI_IMAGE_COLORS_INVERTED : Z.
Variable get_minutiae : list byte → Z → Z → Z → gdouble → lfs_result.

Local Abbreviation step :=
  (image_step g_param_value_validate FPI_IMAGE_V_FLIPPED FPI_IMAGE_H_FLIPPED
     FPI_IMAGE_COLORS_INVERTED get_minutiae).
Local Abbreviation reach :=
  (reachable g_param_value_validate FPI_IMAGE_V_FLIPPED FPI_IMAGE_H_FLIPPED
     FPI_IMAGE_COLORS_INVERTED get_minutiae).

(** X17. No step of the life of an image leaks a block or releases one
    that is not the image's: after any step, [fp_image_finalize] leaves the
    heap it would have left before the step. *)
Theorem image_step_no_leak (s s' : state) (op : image_op) :
  reach s → step s op = Some s' →
  fp_image_finalize s' = fp_image_finalize s.
Proof.
  intros Hs Hstep.
  apply (reachable_wf _ g_param_value_validate_range) in Hs.
  destruct op as [id value|cancellable callback]; simpl in Hstep.
  - simplify_eq. unfold fp_image_finalize. simpl.
    by rewrite g_object_set_refused.
  - destruct (detect_minutiae_run _ _ _ _ _ _ _) as [[s1 task]|] eqn:Hrun;
      simplify_eq/=.
    by eapply detect_minutiae_run_finalize.
Qed.

(** X18. Where the extraction function stores a binarized buffer whenever
    it stores minutiae, [fp_image_get_minutiae] and
    [fp_image_get_binarized] return NULL together or non-NULL together in
    every state an image reaches; the binarized buffer returned is an
    allocated block, its length is reported as [width * height], and no
    length is written when NULL is returned. *)
Theorem image_accessors_together (s : state) :
  (∀ pixels w h depth ppmm,
     lfs_minutiae (get_minutiae pixels w h depth ppmm) ≠ None →
     lfs_bdata (get_minutiae pixels w h depth ppmm) ≠ None) →
  reach s →
  (fp_image_get_minutiae (st_image s) = None
   ↔ (fp_image_get_binarized (st_image s)).1 = None)
  ∧ (∀ l, (fp_image_get_binarized (st_image s)).1 = Some l →
          is_Some (st_heap s !! l)
          ∧ (fp_image_get_binarized (st_image s)).2
            = Some (FpImage.width (st_image s)
                    * FpImage.height (st_image s)))
  ∧ ((fp_image_get_binarized (st_image s)).1 = None →
     (fp_image_get_binarized (st_image s)).2 = None).
Proof.
  intros Hcontract Hs.
  pose proof (reachable_binarized_with_minutiae _ g_param_value_validate_range
                _ _ _ _ s Hcontract Hs) as Hiff.
  apply (reachable_wf _ g_param_value_validate_range) in Hs
    as (HW & HH & _ & Hbin).
  destruct (dims_product _ _ HW HH) as (_ & Hwrap & _).
  unfold fp_image_get_minutiae, fp_image_get_binarized. simpl.
  split; [by symmetry|]. split.
  - intros l Hl. split; [by apply Hbin|]. by rewrite Hl, Hwrap.
  - by intros ->.
Qed.

End CreationExtras.

(** X19. Setting a property and getting it returns the value set; the
    other property and the other fields of the image are not touched, and
    the property id 0 sets and gets nothing. *)
Theorem property_round_trip (self : FpImage.t) (id : prop_id) (value : Z) :
  fp_image_get_property (fp_image_set_property self id value) id
  = match id with
    | PROP_0 => None
    | _ => Some value
    end
  ∧ (∀ id', id' ≠ id →
       fp_image_get_property (fp_image_set_property self id value) id'
       = fp_image_get_property self id')
  ∧ FpImage.ppmm (fp_image_set_property self id value) = FpImage.ppmm self
  ∧ FpImage.flags (fp_image_set_property self id value) = FpImage.flags self
  ∧ FpImage.data (fp_image_set_property self id value) = FpImage.data self
  ∧ FpImage.binarized (fp_image_set_property self id value)
    = FpImage.binarized self
  ∧ FpImage.minutiae (fp_image_set_property self id value)
    = FpImage.minutiae self
  ∧ fp_image_set_property self PROP_0 value = self.
Proof.
  split; [by destruct id|].
  split; [intros id' Hne; by destruct id, id'|].
  by destruct id.
Qed.

(** X20. Within each enumeration the integer code tells the enumerators
    apart, and so a [GError] of either domain names one enumerator; the
    codes alone do not tell the domains apart, every retry code being a
    device error code as well. *)
Theorem error_codes_identify :
  (∀ r1 r2, FpDeviceRetry_code r1 = FpDeviceRetry_code r2 → r1 = r2)
  ∧ (∀ e1 e2, FpDeviceError_code e1 = FpDeviceError_code e2 → e1 = e2)
  ∧ (∀ r1 r2, retry_error r1 = retry_error r2 → r1 = r2)
  ∧ (∀ e1 e2, device_error e1 = device_error e2 → e1 = e2)
  ∧ (∀ r, 0 <= FpDeviceRetry_code r <= 3)
  ∧ (∀ e, 0 <= FpDeviceError_code e <= 8)
  ∧ (∀ r, ∃ e, FpDeviceError_code e = FpDeviceRetry_code r).
Proof.
  assert (∀ r1 r2, FpDeviceRetry_code r1 = FpDeviceRetry_code r2 → r1 = r2)
    as Hr by (by intros [] []).
  assert (∀ e1 e2, FpDeviceError_code e1 = FpDeviceError_code e2 → e1 = e2)
    as He by (by intros [] []).
  split; [done|]. split; [done|].
  split; [intros r1 r2 [= Heq]; by apply Hr|].
  split; [intros e1 e2 [= Heq]; by apply He|].
  split; [intros []; simpl; lia|].
  split; [intros []; simpl; lia|].
  intros [].
  - by exists FP_DEVICE_ERROR_GENERAL.
  - by exists FP_DEVICE_ERROR_NOT_SUPPORTED.
  - by exists FP_DEVICE_ERROR_NOT_OPEN.
  - by exists FP_DEVICE_ERROR_ALREADY_OPEN.
Qed.

(** ** Instances *)

Lemma normalization_exact_extent_witness :
  hflip (sample_pixels ++ [Byte.x07]) 3 2
  = Some ([Byte.x03; Byte.x02; Byte.x01; Byte.x06; Byte.x05; Byte.x04]
          ++ [Byte.x07]).
Proof.
  apply (proj1 (normalization_exact_extent sample_pixels [Byte.x07]
                  [Byte.x03; Byte.x02; Byte.x01; Byte.x06; Byte.x05; Byte.x04]
                  3 2)).
  reflexivity.
Defined.

Lemma flips_degenerate_witness :
  vflip sample_pixels 6 1 = Some sample_pixels
  ∧ hflip sample_pixels 1 6 = Some sample_pixels.
Proof.
  destruct (flips_degenerate sample_pixels 6 1) as [Hv _].
  destruct (flips_degenerate sample_pixels 1 6) as [_ Hh].
  split.
  - apply Hv. lia.
  - apply Hh.
    + reflexivity.
    + unfold G_MAXINT. lia.
    + reflexivity.
Defined.

Lemma normalize_idempotent_witness :
  (normalize 1 2 4 sample_heap sample_work_item
   ≫= λ r, normalize 1 2 4 r.1 r.2)
  = normalize 1 2 4 sample_heap sample_work_item.
Proof.
  destruct (normalize 1 2 4 sample_heap sample_work_item) as [[h' d']|] eqn:Hn.
  - simpl. exact (normalize_idempotent 1 2 4 sample_heap h' sample_work_item
                    d' Hn).
  - reflexivity.
Defined.

Lemma user_callback_called_once_witness :
  ∃ s' task,
    detect_minutiae_run 1 2 4 get_minutiae_sample sample_state None
      (Some 5%positive) = Some (s', task)
    ∧ st_calls s' = [5%positive].
Proof.
  destruct (detect_minutiae_run 1 2 4 get_minutiae_sample sample_state None
              (Some 5%positive)) as [[s' task]|] eqn:Hrun.
  - exists s', task. split; [reflexivity|].
    exact (proj1 (user_callback_called_once 1 2 4 get_minutiae_sample
                    sample_state s' None (Some 5%positive) task
                    sample_state_wf Hrun)).
  - vm_compute in Hrun. discriminate Hrun.
Defined.

Lemma detect_minutiae_commits_witness :
  ∃ s' task,
    detect_minutiae_run 1 2 4 get_minutiae_sample sample_state None None
    = Some (s', task)
    ∧ FpImage.flags (st_image s') = 0
    ∧ deref (st_heap s') (FpImage.data (st_image s'))
      = Some [Byte.xf9; Byte.xfa; Byte.xfb; Byte.xfc; Byte.xfd; Byte.xfe]
    ∧ FpImage.minutiae (st_image s')
      = Some [{| minutia_x := 1; minutia_y := 1 |}].
Proof.
  destruct (detect_minutiae_commits 1 2 4 get_minutiae_sample sample_state
              None None sample_pixels
              [{| minutia_x := 1; minutia_y := 1 |}] sample_state_wf)
    as (s' & task & Hrun & _ & _ & _ & Hfl & Hd & Hm & _).
  - simpl. unfold G_MAXINT. lia.
  - reflexivity.
  - reflexivity.
  - reflexivity.
  - exists s', task. split; [exact Hrun|]. split; [exact Hfl|].
    split; [exact Hd | exact Hm].
Defined.

Lemma detect_minutiae_null_minutiae_witness :
  detect_minutiae_run 1 2 4 get_minutiae_failing sample_state None None = None.
Proof.
  refine (proj1 (detect_minutiae_null_minutiae 1 2 4 get_minutiae_failing
                   sample_state None None sample_state_wf _ _ _)).
  - simpl. unfold G_MAXINT. lia.
  - reflexivity.
  - intros. reflexivity.
Defined.

Lemma fp_image_new_fields_witness :
  let s := fp_image_new g_param_value_validate_uint ∅ 3 70000 in
  FpImage.width (st_image s) = 3 ∧ FpImage.height (st_image s) = 0.
Proof.
  destruct (fp_image_new_fields g_param_value_validate_uint ∅ 3 70000 _ _
              eq_refl eq_refl) as (Hw & Hh & _).
  split; [exact Hw | exact Hh].
Defined.

Lemma image_step_no_leak_witness :
  let s := fp_image_new g_param_value_validate_uint ∅ 3 2 in
  ∃ s', image_step g_param_value_validate_uint 1 2 4 get_minutiae_sample s
          (OpDetectMinutiae None None) = Some s'
        ∧ fp_image_finalize s' = fp_image_finalize s.
Proof.
  intros s.
  destruct (image_step g_param_value_validate_uint 1 2 4 get_minutiae_sample
              s (OpDetectMinutiae None None)) as [s'|] eqn:Hstep.
  - exists s'. split; [reflexivity|].
    exact (image_step_no_leak g_param_value_validate_uint
             g_param_value_validate_uint_range 1 2 4 get_minutiae_sample
             s s' (OpDetectMinutiae None None)
             (reachable_new _ _ _ _ _ ∅ 3 2) Hstep).
  - vm_compute in Hstep. discriminate Hstep.
Defined.

Lemma image_accessors_together_witness :
  let s := fp_image_new g_param_value_validate_uint ∅ 3 2 in
  fp_image_get_minutiae (st_image s) = None
  ↔ (fp_image_get_binarized (st_image s)).1 = None.
Proof.
  refine (proj1 (image_accessors_together g_param_value_validate_uint
                   g_param_value_validate_uint_range 1 2 4 get_minutiae_sample
                   (fp_image_new g_param_value_validate_uint ∅ 3 2) _
                   (reachable_new _ _ _ _ _ ∅ 3 2))).
  intros pixels w h depth ppmm _. discriminate.
Defined.

(** ** What is read of a buffer *)

Lemma for_range_ext_below {S : Type} (body1 body2 : Z → S → option S)
    (count : nat) (i : Z) (s : S) :
  (∀ k t, (k < count)%nat →
          body1 (i + Z.of_nat k) t = body2 (i + Z.of_nat k) t) →
  for_range i count body1 s = for_range i count body2 s.
Proof.
  revert i s. induction count as [|c IH]; intros i s Hext; [done|].
  simpl. pose proof (Hext O s ltac:(lia)) as H0.
  rewrite Z.add_0_r in H0. rewrite H0.
  destruct (body2 i s) as [s1|]; simpl; [|done].
  apply IH. intros k t Hk.
  replace (i + 1 + Z.of_nat k) with (i + Z.of_nat (Datatypes.S k)) by lia.
  apply Hext. lia.
Qed.

Lemma buf_load_take (buf : list byte) (n k : nat) :
  (k < n)%nat →
  buf_load (take n buf) (0 + Z.of_nat k) = buf_load buf (0 + Z.of_nat k).
Proof.
  intros Hk. rewrite Z.add_0_l, !buf_load_lookup. by apply lookup_take_lt.
Qed.

(** X21. [fpi_std_sq_dev] reads the first [size] bytes only: for a size
    within the buffer (and within [gint]) it returns the squared deviation
    of the prefix of that size, whatever follows it. *)
Theorem fpi_std_sq_dev_prefix (buf : list byte) (size : Z) :
  1 <= size <= G_MAXINT → size <= Z.of_nat (length buf) →
  fpi_std_sq_dev buf size
  = Some (squared_deviation (take (Z.to_nat size) buf)).
Proof.
  intros Hrange Hlen.
  rewrite <- (fpi_std_sq_dev_eq (take (Z.to_nat size) buf) size)
    by (rewrite ?length_take; lia || done).
  unfold fpi_std_sq_dev, fpi_std_sq_dev_mean, for_loop.
  rewrite (for_range_ext_below
             (λ i mean, b ← buf_load buf i;
                        Some (wrap_guint64 (mean + byte_val b)))
             (λ i mean, b ← buf_load (take (Z.to_nat size) buf) i;
                        Some (wrap_guint64 (mean + byte_val b)))).
  2:{ intros k t Hk. by rewrite buf_load_take. }
  destruct (for_range 0 (Z.to_nat size) _ 0 ≫= _) as [mean|]; simpl; [|done].
  f_equal. apply for_range_ext_below.
  intros k t Hk. by rewrite buf_load_take.
Qed.

Lemma fpi_std_sq_dev_prefix_witness :
  fpi_std_sq_dev
    [Byte.x00; Byte.x00; Byte.xff; Byte.xff; Byte.x07; Byte.x09] 4
  = Some 16256.
Proof.
  apply (fpi_std_sq_dev_prefix
           [Byte.x00; Byte.x00; Byte.xff; Byte.xff; Byte.x07; Byte.x09] 4).
  - unfold G_MAXINT. lia.
  - simpl. lia.
Defined.

(** X22. The snapshot reads exactly [width * height] bytes of the raw
    buffer: if the block is shorter there is no result (the copy runs past
    its end); otherwise the work item gets those first bytes, and the image
    is as before. *)
Theorem snapshot_reads_extent (s : state) (cancellable : option bool)
    (callback : option positive) (d : list byte) :
  0 <= FpImage.width (st_image s) <= G_MAXUINT16 →
  0 <= FpImage.height (st_image s) <= G_MAXUINT16 →
  deref (st_heap s) (FpImage.data (st_image s)) = Some d →
  (Z.of_nat (length d)
   < FpImage.width (st_image s) * FpImage.height (st_image s) →
   fp_image_detect_minutiae s cancellable callback = None)
  ∧ (FpImage.width (st_image s) * FpImage.height (st_image s)
     <= Z.of_nat (length d) →
     ∃ s1 task,
       fp_image_detect_minutiae s cancellable callback = Some (s1, task)
       ∧ st_image s1 = st_image s
       ∧ deref (st_heap s1) (DetectMinutiaeData.image (task_data task))
         = Some (take (Z.to_nat (FpImage.width (st_image s)
                                 * FpImage.height (st_image s))) d)).
Proof.
  intros HW HH Hd.
  destruct (dims_product _ _ HW HH) as (Hp & Hwrap & HwW & HwH).
  unfold fp_image_detect_minutiae. rewrite Hwrap, HwW, HwH.
  set (n := FpImage.width (st_image s) * FpImage.height (st_image s)) in *.
  destruct (g_malloc (st_heap s) n) as [h1 p] eqn:Hm.
  assert (deref h1 (FpImage.data (st_image s)) = Some d) as Hd1.
  { apply g_malloc_spec in Hm
      as [(_ & _ & ->)|(_ & l & _ & Hfresh & ->)]; [done|].
    destruct (FpImage.data (st_image s)) as [l'|]; simpl in *; [|done].
    rewrite lookup_insert_ne; [done | congruence]. }
  rewrite Hd1. simpl. split.
  - intros Hshort. unfold memcpy_load.
    by rewrite bool_decide_false by lia.
  - intros Hlong. unfold memcpy_load. rewrite bool_decide_true by lia.
    simpl. rewrite drop_0.
    apply g_malloc_spec in Hm
      as [(Hn & -> & ->)|(Hn & l & -> & Hfresh & ->)]; simpl.
    + rewrite Hn. simpl. eexists _, _. split; [reflexivity|]. done.
    + rewrite lookup_insert_eq. simpl. unfold memcpy_store.
      rewrite bool_decide_true
        by (rewrite length_take, length_replicate; lia).
      simpl. eexists _, _. split; [reflexivity|]. simpl. split; [done|].
      rewrite lookup_insert_eq. f_equal.
      rewrite drop_ge by (rewrite length_take, length_replicate; lia).
      by rewrite app_nil_r.
Qed.

Lemma snapshot_reads_extent_witness :
  fp_image_detect_minutiae
    {| st_heap := {[ 1%positive := [Byte.x01; Byte.x02] ]};
       st_image := FpImage.mk 3 2 0 0 (Some 1%positive) None None;
       st_calls := [] |} None None
  = None.
Proof.
  refine (proj1 (snapshot_reads_extent
                   {| st_heap := {[ 1%positive := [Byte.x01; Byte.x02] ]};
                      st_image :=
                        FpImage.mk 3 2 0 0 (Some 1%positive) None None;
                      st_calls := [] |} None None [Byte.x01; Byte.x02]
                   _ _ _) _).
  - simpl. unfold G_MAXUINT16. lia.
  - simpl. unfold G_MAXUINT16. lia.
  - reflexivity.
  - simpl. lia.
Defined.
